(** * Gesture-driven particle engine: classifier, glyph clouds, mode
      resolver and particle integrator.

    A shallow embedding of [utils/gestureUtils.ts] ([distance],
    [isFingerExtended], [detectGesture], [generateTextParticles]) and of the
    [useFrame] callback of [components/ParticleField.tsx].

    JavaScript numbers are IEEE 754 binary64 values; they are modelled by
    Rocq's primitive floats, so that [NaN], infinities and rounding are the
    ones the program meets; numeric bounds are stated on the real number a
    float stands for and proved from the rounding functions of [SpecFloat].
    [Math.sin], [Math.cos], [Math.random] and the
    2-D canvas are supplied by the host and are parameters of the functions
    that use them.  Reading a property of [undefined] raises a [TypeError];
    functions that can do so return a [result]. *)

From Stdlib Require Import ZArith Reals Lra List String Bool Lia.
From Stdlib Require Import Floats.
From Stdlib Require Uint63.
Import ListNotations.

Set Warnings "-inexact-float,-abstract-large-number".

(* ------------------------------------------------------------------ *)
(** ** Exceptions *)

(** The only exception the modelled code can raise is the [TypeError] of a
    property read on [undefined]. *)
Inductive result (A : Type) : Type :=
| Ok (a : A)
| TypeError.
Arguments Ok {A} a.
Arguments TypeError {A}.

Definition bind {A B : Type} (r : result A) (k : A -> result B) : result B :=
  match r with
  | Ok a => k a
  | TypeError => TypeError
  end.

Notation "x <- r ;; k" := (bind r (fun x => k))
  (at level 61, r at next level, right associativity).

(** [xs.map(f)] where the callback may throw: the first exception aborts. *)
Fixpoint mapM {A B : Type} (f : A -> result B) (xs : list A) : result (list B) :=
  match xs with
  | [] => Ok []
  | x :: xs' => y <- f x ;; ys <- mapM f xs' ;; Ok (y :: ys)
  end.

(** [e.prop] where [e] may be [undefined]. *)
Definition prop {A B : Type} (e : option A) (field : A -> B) : result B :=
  match e with
  | Some a => Ok (field a)
  | None => TypeError
  end.

(* ------------------------------------------------------------------ *)
(** ** Numbers *)

(** [Number(z)] for an integer [z]: the binary64 value nearest to it. *)
Definition float_of_Z (z : Z) : float :=
  SF2Prim (binary_normalize prec emax z 0 false).

Definition float_of_nat (n : nat) : float := float_of_Z (Z.of_nat n).

(** [Math.fround]: what a [Float32Array] keeps of a number stored in it. *)
Definition fround (x : float) : float :=
  match Prim2SF x with
  | S754_finite s m e => SF2Prim (binary_round 24 128 s m e)
  | _ => x
  end.

Module JsMath.
Open Scope float_scope.

Definition sqrt (x : float) : float := PrimFloat.sqrt x.
Definition abs (x : float) : float := PrimFloat.abs x.

(** [Math.pow(x, 2)]: engines return [x * x] for the exponent 2. *)
Definition pow2 (x : float) : float := x * x.

(** [Math.max] and [Math.min]: [NaN] if either argument is, and
    [+0] above [-0]. *)
Definition max (a b : float) : float :=
  if is_nan a || is_nan b then nan
  else if a <? b then b
  else if b <? a then a
  else match classify a with NZero => b | _ => a end.

Definition min (a b : float) : float :=
  if is_nan a || is_nan b then nan
  else if a <? b then a
  else if b <? a then b
  else match classify a with PZero => b | _ => a end.

(** [x || d] on numbers: [0], [-0] and [NaN] are falsy. *)
Definition or_else (x d : float) : float :=
  if is_nan x || is_zero x then d else x.

(** [THREE.MathUtils.lerp]. *)
Definition lerp (x y t : float) : float := (1 - t) * x + t * y.
End JsMath.

(* ------------------------------------------------------------------ *)
(** ** The value of a binary floating-point number *)

Section FloatValue.
Open Scope R_scope.

(** [2 ^ e], for an integer [e]. *)
Definition bpow (e : Z) : R := powerRZ 2 e.

Definition cond_Ropp (s : bool) (y : R) : R := if s then - y else y.

(** The real number a finite float stands for ([0] for the others). *)
Definition B2R (f : spec_float) : R :=
  match f with
  | S754_finite s m e => cond_Ropp s (IZR (Zpos m) * bpow e)
  | _ => 0
  end.

(** Neither [NaN] nor an infinity. *)
Definition is_finite_SF (f : spec_float) : bool :=
  match f with
  | S754_zero _ | S754_finite _ _ _ => true
  | _ => false
  end.

(** [y] lies in [[m, m + 1)], at the place the round and sticky bits of the
    record say: on [m], below the middle, on the middle, or above it. *)
Definition located (mrs : shr_record) (y : R) : Prop :=
  (0 <= shr_m mrs)%Z
  /\ match shr_r mrs, shr_s mrs with
     | false, false => y = IZR (shr_m mrs)
     | false, true => IZR (shr_m mrs) < y < IZR (shr_m mrs) + / 2
     | true, false => y = IZR (shr_m mrs) + / 2
     | true, true => IZR (shr_m mrs) + / 2 < y < IZR (shr_m mrs) + 1
     end.

(** [r] is a finite number of the format [(prec, emax)] within half a unit
    in the last place of [x]. *)
Definition rounds_to (prec emax : Z) (x : R) (r : spec_float) : Prop :=
  is_finite_SF r = true
  /\ Rabs (B2R r - x) <= bpow (- prec) * Rabs x + bpow (SpecFloat.emin prec emax - 1).

(** A JavaScript number that is neither [NaN] nor an infinity, and its
    value. *)
Definition finite (a : float) : Prop := is_finite_SF (Prim2SF a) = true.

Definition val (a : float) : R := B2R (Prim2SF a).

(** [a] is a finite binary64 number within half a unit in the last place
    of [x]. *)
Definition near (x : R) (a : float) : Prop :=
  finite a /\ Rabs (val a - x) <= bpow (-53) * Rabs x + bpow (-1075).

(** [2 ^ -53], the relative error of one binary64 operation, and
    [2 ^ -200], above its absolute error [2 ^ -1075] on subnormal results. *)
Definition u64 : R := / 9007199254740992.
Definition tiny : R := / 1606938044258990275541962092341162602522202993782792835301376.

(** [t] is within binary64 rounding of [v]. *)
Definition close (v t : R) : Prop := Rabs (t - v) <= u64 * Rabs v + tiny.

End FloatValue.

(* ------------------------------------------------------------------ *)
(** ** Data model ([types.ts]) *)

Record HandLandmark : Type := mkLandmark { x : float; y : float; z : float }.

(** [HandResult]: only [landmarks] is read by the engine. *)
Record HandResult : Type := mkHandResult { landmarks : list (list HandLandmark) }.

Inductive AppState : Type := IDLE | INTERACTIVE | TEXT_MODE.

Definition AppState_eqb (a b : AppState) : bool :=
  match a, b with
  | IDLE, IDLE | INTERACTIVE, INTERACTIVE | TEXT_MODE, TEXT_MODE => true
  | _, _ => false
  end.

(** [arr[i]] on a JavaScript array: [undefined] past the end. *)
Definition at_ {A : Type} (arr : list A) (i : nat) : option A := nth_error arr i.

(* ------------------------------------------------------------------ *)
(** ** Gesture classifier ([gestureUtils.ts], lines 3-47) *)

Module Gesture.
Open Scope string_scope.
Open Scope float_scope.

(** [distance(a, b)]: either argument may be [undefined]. *)
Definition distance (a b : option HandLandmark) : result float :=
  ax <- prop a x ;; bx <- prop b x ;;
  ay <- prop a y ;; by_ <- prop b y ;;
  az <- prop a z ;; bz <- prop b z ;;
  Ok (JsMath.sqrt (JsMath.pow2 (ax - bx) + JsMath.pow2 (ay - by_) + JsMath.pow2 (az - bz))).

Definition isFingerExtended (landmarks : list HandLandmark) (tipIdx pipIdx : nat)
  : result bool :=
  let wrist := at_ landmarks 0 in
  let tip := at_ landmarks tipIdx in
  let pip := at_ landmarks pipIdx in
  dt <- distance wrist tip ;;
  dp <- distance wrist pip ;;
  Ok (dp <? dt).

(** [[...].filter(Boolean).length] *)
Definition countTrue (bs : list bool) : nat := List.length (filter (fun b => b) bs).

Definition detectGesture (landmarks : list HandLandmark) : result string :=
  match landmarks with
  | [] => Ok "unknown"
  | _ =>
    thumbOpen <- isFingerExtended landmarks 4 2 ;;
    indexOpen <- isFingerExtended landmarks 8 6 ;;
    middleOpen <- isFingerExtended landmarks 12 10 ;;
    ringOpen <- isFingerExtended landmarks 16 14 ;;
    pinkyOpen <- isFingerExtended landmarks 20 18 ;;
    let openCount := countTrue [thumbOpen; indexOpen; middleOpen; ringOpen; pinkyOpen] in
    if (openCount =? 5)%nat then Ok "5"
    else if indexOpen && negb middleOpen && negb ringOpen && negb pinkyOpen then Ok "1"
    else if indexOpen && middleOpen && negb ringOpen && negb pinkyOpen then Ok "2"
    else if (openCount <=? 1)%nat && negb indexOpen then Ok "fist"
    else Ok "unknown"
  end.
End Gesture.

(* ------------------------------------------------------------------ *)
(** ** Glyph point-cloud generator ([gestureUtils.ts], lines 49-95) *)

(** The generator only adds, subtracts, multiplies and divides.  It is written
    over this interface, so that what the scan visits, emits and draws is
    proved without looking at the numbers; the program runs the binary64
    instance [Arith_float], whose [store32] is the rounding of a
    [Float32Array]. *)
Class Arith (num : Type) : Type := {
  nadd : num -> num -> num;
  nsub : num -> num -> num;
  nmul : num -> num -> num;
  ndiv : num -> num -> num;
  nopp : num -> num;
  (** an integer-valued number *)
  of_Z : Z -> num;
  (** the value kept by a [Float32Array] element *)
  store32 : num -> num
}.

Declare Scope num_scope.
Delimit Scope num_scope with num.
Infix "+" := nadd : num_scope.
Infix "-" := nsub : num_scope.
Infix "*" := nmul : num_scope.
Infix "/" := ndiv : num_scope.
Notation "- a" := (nopp a) : num_scope.

(** A decimal literal [m / 10^k], such as [0.3 = dec 3 1].  Division of two
    exactly represented integers is correctly rounded, so at the float
    instance this is the literal's binary64 value. *)
Definition dec {num : Type} `{Arith num} (m : Z) (k : nat) : num :=
  (of_Z m / of_Z (10 ^ Z.of_nat k))%num.

#[export] Instance Arith_float : Arith float := {
  nadd := PrimFloat.add;
  nsub := PrimFloat.sub;
  nmul := PrimFloat.mul;
  ndiv := PrimFloat.div;
  nopp := PrimFloat.opp;
  of_Z := float_of_Z;
  store32 := fround
}.

Section Generator.
Context {num : Type} `{Arith num}.

(** The 2-D canvas is a collaborator.  [renderText text width height] is
    [None] when [canvas.getContext('2d')] returns [null], and otherwise the
    RGBA bytes [getImageData(0, 0, width, height).data] after the text was
    drawn white on black.  This describes the canvas for positive [width]
    and [height]: with a width or height of 0, [getImageData] throws an
    [IndexSizeError], a case left out of the model. *)
Variable renderText : string -> Z -> Z -> option (list Z).

(** [Math_random k] is the value of the [k]-th call of [Math.random()]. *)
Variable Math_random : nat -> num.

(** [data[index]]: [undefined] outside the array. *)
Definition byteAt (data : list Z) (index : Z) : option Z :=
  if (index <? 0)%Z then None else nth_error data (Z.to_nat index).

(** [data[index] > 128]; a comparison with [undefined] is false. *)
Definition bright (data : list Z) (index : Z) : bool :=
  match byteAt data index with
  | Some b => (128 <? b)%Z
  | None => false
  end.

Section Scan.
Variables (data : list Z) (width height density : Z).
Open Scope num_scope.

Definition jitterOf (r : num) : num := (r - dec 5 1) * of_Z density * dec 3 1.

(** Lines 79-89: the three numbers pushed for the bright pixel [(x, y)],
    with [k] calls of [Math.random] made before. *)
Definition emit (x y : Z) (k : nat) : list num :=
  let jitterX := jitterOf (Math_random k) in
  let jitterY := jitterOf (Math_random (S k)) in
  let nX := ((of_Z x + jitterX) / of_Z width - dec 5 1) * of_Z 20 in
  let nY := (- ((of_Z y + jitterY) / of_Z height - dec 5 1)) * of_Z 20
            * (of_Z height / of_Z width) in
  let nZ := (Math_random (S (S k)) - dec 5 1) * dec 2 1 in
  [nX; nY; nZ].

(** The inner loop [for (x = ...; x < width; x += density)].  [None]: the
    fuel ran out, the loop was still running. *)
Fixpoint scanRow (fuel : nat) (y x : Z) (k : nat) (positions : list num)
  : option (list num * nat) :=
  match fuel with
  | O => None
  | S fuel' =>
    if (x <? width)%Z then
      let index := ((y * width + x) * 4)%Z in
      if bright data index
      then scanRow fuel' y (x + density)%Z (3 + k)%nat (positions ++ emit x y k)
      else scanRow fuel' y (x + density)%Z k positions
    else Some (positions, k)
  end.

(** The outer loop [for (y = 0; y < height; y += density)]. *)
Fixpoint scanRows (fuel : nat) (y : Z) (k : nat) (positions : list num)
  : option (list num * nat) :=
  match fuel with
  | O => None
  | S fuel' =>
    if (y <? height)%Z then
      match scanRow (S (Z.to_nat width)) y 0 k positions with
      | Some (positions', k') => scanRows fuel' (y + density)%Z k' positions'
      | None => None
      end
    else Some (positions, k)
  end.
End Scan.

(** [generateTextParticles(text, width, height, density)], started after
    [k] calls of [Math.random]; returns the [Float32Array] and the number of
    calls made.  [None] when the scan does not terminate ([density <= 0]). *)
Definition generateTextParticlesFrom (k : nat) (text : string)
    (width height density : Z) : option (list num * nat) :=
  match renderText text width height with
  | None => Some ([], k)
  | Some data =>
    match scanRows data width height density (S (Z.to_nat height)) 0 k [] with
    | Some (positions, k') => Some (map store32 positions, k')
    | None => None
    end
  end.

Definition generateTextParticles (text : string) (width height density : Z)
  : option (list num) :=
  option_map fst (generateTextParticlesFrom 0 text width height density).
End Generator.


(* ------------------------------------------------------------------ *)
(** ** Particle field ([components/ParticleField.tsx]) *)

Module ParticleField.
Open Scope string_scope.
Open Scope float_scope.

(** [THREE.Color]: linear RGB components. *)
Record Color : Type := mkColor { r : float; g : float; b : float }.

(** [new THREE.Color('#00FFFF')], ['#FFFFFF'] and ['#FF0000']: components 0
    and 1 are the same in every colour space. *)
Definition cyan : Color := mkColor 0 1 1.
Definition white : Color := mkColor 1 1 1.
Definition red : Color := mkColor 1 0 0.

(** [this.lerp(color, alpha)] *)
Definition Color_lerp (this color : Color) (alpha : float) : Color :=
  mkColor (r this + (r color - r this) * alpha)
          (g this + (g color - g this) * alpha)
          (b this + (b color - b this) * alpha).

Record Vec3 : Type := mkVec3 { vx : float; vy : float; vz : float }.

(** An element of [interactionPoints]: [{x, y}]. *)
Record Point : Type := mkPoint { ptx : float; pty : float }.

(** [useThree().viewport] *)
Record Viewport : Type := mkViewport { vwidth : float; vheight : float }.

(** The cache [textGeometries]: one [Float32Array] per phrase key. *)
Record TextGeometries : Type := mkTextGeometries {
  HELLO : list float;
  YUFU : list float;
  WITHME : list float;
  PHOTO : list float
}.

(** An element of [worldHands]. *)
Record WorldHand : Type := mkWorldHand {
  wx : float;
  wy : float;
  rawX : float;
  gesture : string
}.

(** [arr[i].field] where [arr] itself may be [undefined]. *)
Definition coord {A B : Type} (arr : option (list A)) (i : nat) (field : A -> B)
  : result B :=
  match arr with
  | Some a => prop (at_ a i) field
  | None => TypeError
  end.

(** Lines 52-63: the four clouds, generated in this order at 1024 x 512 with
    the default density 6. *)
Definition textGeometries (renderText : string -> Z -> Z -> option (list Z))
    (Math_random : nat -> float) : option TextGeometries :=
  let gen := generateTextParticlesFrom renderText Math_random in
  match gen 0%nat "大家好" 1024%Z 512%Z 6%Z with
  | Some (hello, k1) =>
    match gen k1 "我是玉福" 1024%Z 512%Z 6%Z with
    | Some (yufu, k2) =>
      match gen k2 "和我一起" 1024%Z 512%Z 6%Z with
      | Some (withme, k3) =>
        match gen k3 "走进摄影世界" 1024%Z 512%Z 6%Z with
        | Some (photo, _) => Some (mkTextGeometries hello yufu withme photo)
        | None => None
        end
      | None => None
      end
    | None => None
    end
  | None => None
  end.

(** Lines 92-102: the callback of [hands.map]. *)
Definition worldHand (viewport : Viewport) (hand : list HandLandmark)
  : result WorldHand :=
  h0x <- prop (at_ hand 0) x ;; h5x <- prop (at_ hand 5) x ;;
  h17x <- prop (at_ hand 17) x ;;
  let cx := h0x + h5x + h17x in
  h0y <- prop (at_ hand 0) y ;; h5y <- prop (at_ hand 5) y ;;
  h17y <- prop (at_ hand 17) y ;;
  let cy := h0y + h5y + h17y in
  gesture <- Gesture.detectGesture hand ;;
  Ok (mkWorldHand ((0.5 - cx / 3) * vwidth viewport)
                  ((0.5 - cy / 3) * vheight viewport)
                  (cx / 3)
                  gesture).

Definition worldHands (viewport : Viewport) (hands : list (list HandLandmark))
  : result (list WorldHand) :=
  mapM (worldHand viewport) hands.

(** Line 108: thumb, index, middle, ring and pinky tips, then the palm centre. *)
Definition indices : list nat := [4; 8; 12; 16; 20; 9]%nat.

(** Lines 109-115: the points one hand pushes. *)
Definition handPoints (viewport : Viewport) (hand : list HandLandmark)
  : result (list Point) :=
  mapM (fun idx =>
          let p := at_ hand idx in
          p_x <- prop p x ;;
          p_y <- prop p y ;;
          Ok (mkPoint ((0.5 - p_x) * vwidth viewport)
                      ((0.5 - p_y) * vheight viewport)))
       indices.

(** Lines 105-116 *)
Definition interactionPoints (viewport : Viewport) (hands : list (list HandLandmark))
  : result (list Point) :=
  pts <- mapM (handPoints viewport) hands ;;
  Ok (List.concat pts).

(** What lines 85-185 decide. [rotationY] is [groupRef.current.rotation.y]
    after them. *)
Record Resolved : Type := mkResolved {
  activeTextTarget : option (list float);
  targetColor : Color;
  interactionMode : AppState;
  rotationSpeed : float;
  diffusion : float;
  rotationY : float
}.

(** Lines 119-152: exactly one hand. *)
Definition resolveOne (textGeometries : TextGeometries) (userColor : Color)
    (delta rotY : float) (hands : list (list HandLandmark))
    (worldHands : list WorldHand) : result Resolved :=
  let h := at_ worldHands 0 in
  h_gesture <- prop h gesture ;;
  if (h_gesture =? "5")%string then
    Ok (mkResolved (Some (HELLO textGeometries)) userColor TEXT_MODE 0.2 1.0 rotY)
  else
    h_rawX <- prop h rawX ;;
    let rotY1 :=
      if h_rawX <? 0.2 then rotY + 2 * delta
      else if 0.8 <? h_rawX then rotY - 2 * delta
      else rotY + 0.1 * delta in
    let l := at_ hands 0 in
    l0x <- coord l 0 x ;; l5x <- coord l 5 x ;;
    l0y <- coord l 0 y ;; l5y <- coord l 5 y ;;
    let palmSize := JsMath.sqrt (JsMath.pow2 (l0x - l5x) + JsMath.pow2 (l0y - l5y)) in
    l4x <- coord l 4 x ;; l20x <- coord l 20 x ;;
    l4y <- coord l 4 y ;; l20y <- coord l 20 y ;;
    let spread := JsMath.sqrt (JsMath.pow2 (l4x - l20x) + JsMath.pow2 (l4y - l20y)) in
    let ratio := spread / palmSize in
    let normalizedOpen := JsMath.min (JsMath.max ((ratio - 1.0) / 2.0) 0) 1 in
    let diffusion := 1.0 + normalizedOpen * 3.0 in
    let rotationSpeed := 0.2 + normalizedOpen * 2.0 in
    Ok (mkResolved None userColor INTERACTIVE rotationSpeed diffusion
                   (rotY1 + rotationSpeed * delta)).

(** Lines 154-181: exactly two hands. *)
Definition resolveTwo (textGeometries : TextGeometries) (userColor : Color)
    (rotY : float) (worldHands : list WorldHand) : result Resolved :=
  let w0 := at_ worldHands 0 in
  let w1 := at_ worldHands 1 in
  g1 <- prop w0 gesture ;;
  g2 <- prop w1 gesture ;;
  if (g1 =? "1")%string && (g2 =? "1")%string then
    Ok (mkResolved (Some (YUFU textGeometries)) userColor TEXT_MODE 0.2 1.0 rotY)
  else if (g1 =? "2")%string && (g2 =? "2")%string then
    Ok (mkResolved (Some (WITHME textGeometries)) userColor TEXT_MODE 0.2 1.0 rotY)
  else if (g1 =? "5")%string && (g2 =? "5")%string then
    Ok (mkResolved (Some (PHOTO textGeometries)) userColor TEXT_MODE 0.2 1.0 rotY)
  else
    w0x <- prop w0 wx ;; w0y <- prop w0 wy ;;
    w1x <- prop w1 wx ;; w1y <- prop w1 wy ;;
    let avgDist :=
      (JsMath.abs w0x + JsMath.abs w0y + JsMath.abs w1x + JsMath.abs w1y) / 4 in
    let color :=
      if avgDist <? 3.5 then white
      else if avgDist <? 8 then red
      else cyan in
    Ok (mkResolved None color INTERACTIVE 0.2 1.0 rotY).

(** Lines 85-185: the mode, the active cloud and the colour target, from the
    hand count. *)
Definition resolve (textGeometries : TextGeometries) (userColor : Color)
    (delta rotY : float) (hands : list (list HandLandmark))
    (worldHands : list WorldHand) : result Resolved :=
  let handCount := List.length hands in
  if (0 <? handCount)%nat then
    if (handCount =? 1)%nat then
      resolveOne textGeometries userColor delta rotY hands worldHands
    else if (handCount =? 2)%nat then
      resolveTwo textGeometries userColor rotY worldHands
    else Ok (mkResolved None userColor IDLE 0.2 1.0 rotY)
  else Ok (mkResolved None cyan IDLE 0.2 1.0 rotY).

(** Lines 82-185 on one observation: [worldHands], then the branch on the
    hand count. *)
Definition resolveObservation (viewport : Viewport) (textGeometries : TextGeometries)
    (userColor : Color) (delta rotY : float) (hands : list (list HandLandmark))
  : result Resolved :=
  wh <- worldHands viewport hands ;;
  resolve textGeometries userColor delta rotY hands wh.

(** Line 201 *)
Definition isHolding (res : Resolved) : bool :=
  AppState_eqb (interactionMode res) INTERACTIVE
  && (0.95 <? r (targetColor res))
  && (0.95 <? g (targetColor res))
  && (0.95 <? b (targetColor res)).

(** Lines 204-209: [handCenter]. *)
Definition handCenter (handCount : nat) (worldHands : list WorldHand) : Vec3 :=
  if (0 <? handCount)%nat then
    let sumX := fold_left (fun s h => s + wx h) worldHands 0 in
    let sumY := fold_left (fun s h => s + wy h) worldHands 0 in
    mkVec3 (sumX / float_of_nat handCount) (sumY / float_of_nat handCount) 0
  else mkVec3 0 0 0.

(** Line 12 *)
Definition COUNT : nat := 8000.

(** The state the callback keeps between frames.  [positions] and [colors]
    are the geometry's [Float32Array] attributes and [target] is
    [particles.target], each read as one triple per particle (entries [3i],
    [3i+1], [3i+2]); [randomCalls] counts the calls of [Math.random] so far. *)
Record Scene : Type := mkScene {
  timeRef : float;
  rotation : Vec3;
  currentColor : Color;
  positions : list Vec3;
  colors : list Vec3;
  target : list Vec3;
  randomCalls : nat
}.

Section Integrator.
Variables (Math_sin Math_cos : float -> float).
Variable Math_random : nat -> float.

(** [arr[k]] on a [Float32Array] whose value is then used in arithmetic:
    [undefined] past the end, which arithmetic turns into [NaN]. *)
Definition f32at (arr : list float) (k : nat) : float := nth k arr nan.

(** Lines 220-229.  The cached clouds hold whole triples, so
    [activeTextTarget.length / 3] is an integer and [%] the integer
    remainder. *)
Definition textTarget (cloud : list float) (i : nat) : Vec3 :=
  let textIdx := ((i mod (List.length cloud / 3)) * 3)%nat in
  let tx := f32at cloud textIdx in
  let ty := f32at cloud (textIdx + 1) in
  let tz := f32at cloud (textIdx + 2) in
  let spread := 0.04 in
  mkVec3 (tx + Math_sin (float_of_nat i * 0.5) * spread)
         (ty + Math_cos (float_of_nat i * 0.9) * spread)
         (tz + Math_sin (float_of_nat i * 1.2) * spread).

(** Lines 233-258: sphere/cloud mode, with [k] calls of [Math.random] made
    before; returns the target and the calls made after. *)
Definition sphereTarget (home : Vec3) (diffusion time : float) (holding : bool)
    (i k : nat) : Vec3 * nat :=
  let ix := float_of_nat (i * 3) in
  let iy := float_of_nat (i * 3 + 1) in
  let iz := float_of_nat (i * 3 + 2) in
  let baseTx := vx home * diffusion in
  let baseTy := vy home * diffusion in
  let baseTz := vz home * diffusion in
  let noiseX := Math_sin (time * 2 + float_of_nat i * 0.1) * 0.2 in
  let noiseY := Math_cos (time * 2 + float_of_nat i * 0.1) * 0.2 in
  let noiseZ := 0 in
  if holding then
    let morphSpeed := 8.0 in
    let morphAmp := 2.0 in
    let noiseX := noiseX + Math_sin (time * morphSpeed + iy * 0.1) * morphAmp in
    let noiseY := noiseY + Math_cos (time * morphSpeed + ix * 0.1) * morphAmp in
    let noiseZ := noiseZ + Math_sin (time * morphSpeed + iz * 0.1) * morphAmp in
    let noiseX := noiseX + (Math_random k - 0.5) * 1.5 in
    let noiseY := noiseY + (Math_random (S k) - 0.5) * 1.5 in
    let noiseZ := noiseZ + (Math_random (S (S k)) - 0.5) * 1.5 in
    (mkVec3 (baseTx + noiseX) (baseTy + noiseY) (baseTz + noiseZ), (3 + k)%nat)
  else
    (mkVec3 (baseTx + noiseX) (baseTy + noiseY) (baseTz + noiseZ), k).

(** Lines 216-259: the target of particle [i] before the forces.  The text
    branch needs the mode, a cloud, and [activeTextTarget.length > 0]. *)
Definition particleTarget (res : Resolved) (holding : bool) (time : float)
    (home : Vec3) (i k : nat) : Vec3 * nat :=
  let sphere := sphereTarget home (diffusion res) time holding i k in
  if AppState_eqb (interactionMode res) TEXT_MODE then
    match activeTextTarget res with
    | Some cloud =>
      if (0 <? List.length cloud)%nat then (textTarget cloud i, k) else sphere
    | None => sphere
    end
  else sphere.

(** Lines 273-282 *)
Definition radiusOf (mode : AppState) (holding : bool) : float :=
  if AppState_eqb mode TEXT_MODE then 1.5
  else if holding then 8.0
  else 3.5.

Definition forceMultiOf (mode : AppState) (holding : bool) : float :=
  if AppState_eqb mode TEXT_MODE then 8.0
  else if holding then 15.0
  else 3.0.

(** Lines 266-292: the body of the loop over the interaction points, for a
    particle at [pos] whose target so far is [t]. *)
Definition repel (mode : AppState) (holding : bool) (pos t : Vec3) (point : Point)
  : Vec3 :=
  let dx := vx pos - ptx point in
  let dy := vy pos - pty point in
  let dz := vz pos - 0 in
  let distSq := dx * dx + dy * dy + dz * dz in
  let radius := radiusOf mode holding in
  let forceMulti := forceMultiOf mode holding in
  let radiusSq := radius * radius in
  if distSq <? radiusSq then
    let force := 1.0 - distSq / radiusSq in
    mkVec3 (vx t + dx * force * forceMulti)
           (vy t + dy * force * forceMulti)
           (vz t + dz * force * forceMulti)
  else t.

(** Lines 297-310: the global flee of the holding state. *)
Definition flee (center : Vec3) (time : float) (pos t : Vec3) : Vec3 :=
  let dx := vx pos - vx center in
  let dy := vy pos - vy center in
  let dist := JsMath.or_else (JsMath.sqrt (dx * dx + dy * dy)) 0.1 in
  let spiralX := - dy in
  let spiralY := dx in
  let tx := vx t + (dx / dist) * 8.0 in
  let ty := vy t + (dy / dist) * 8.0 in
  let tx := tx + (spiralX / dist) * 4.0 * Math_sin (time * 5) in
  let ty := ty + (spiralY / dist) * 4.0 * Math_sin (time * 5) in
  mkVec3 tx ty (vz t).

(** Lines 263-311 *)
Definition applyForces (mode : AppState) (holding : bool) (center : Vec3)
    (time : float) (points : list Point) (pos t : Vec3) : Vec3 :=
  if (0 <? List.length points)%nat then
    let t := fold_left (fun t point => repel mode holding pos t point) points t in
    if holding then flee center time pos t else t
  else t.

(** Lines 314-318: the lerp towards the target, stored in the
    [Float32Array]. *)
Definition integrate (holding : bool) (pos t : Vec3) : Vec3 :=
  let speed := if holding then 0.15 else 0.1 in
  mkVec3 (fround (vx pos + (vx t - vx pos) * speed))
         (fround (vy pos + (vy t - vy pos) * speed))
         (fround (vz pos + (vz t - vz pos) * speed)).

(** One turn of the loop of lines 211-323, for particle [i]. *)
Definition stepParticle (res : Resolved) (holding : bool) (center : Vec3)
    (time : float) (points : list Point) (i : nat) (pos home : Vec3) (k : nat)
  : Vec3 * nat :=
  let '(t, k') := particleTarget res holding time home i k in
  let t := applyForces (interactionMode res) holding center time points pos t in
  (integrate holding pos t, k').

(** The loop of lines 211-323 from particle [i] on. *)
Fixpoint updateParticles (res : Resolved) (holding : bool) (center : Vec3)
    (time : float) (points : list Point) (i : nat) (positions target : list Vec3)
    (k : nat) : list Vec3 * nat :=
  match positions, target with
  | pos :: positions', home :: target' =>
    let '(pos', k') := stepParticle res holding center time points i pos home k in
    let '(rest, k'') :=
      updateParticles res holding center time points (S i) positions' target' k' in
    (pos' :: rest, k'')
  | _, _ => ([], k)
  end.

(** Lines 188-193 *)
Definition settleRotation (res : Resolved) (delta : float) (rot : Vec3) : Vec3 :=
  let rot := mkVec3 (vx rot) (rotationY res) (vz rot) in
  if AppState_eqb (interactionMode res) TEXT_MODE then
    mkVec3 (JsMath.lerp (vx rot) 0 (delta * 3))
           (JsMath.lerp (vy rot) 0 (delta * 3))
           (JsMath.lerp (vz rot) 0 (delta * 3))
  else rot.

(** The callback of [useFrame] (lines 74-327), with the mesh and the group
    mounted.  [TypeError]: the callback threw and the frame was abandoned. *)
Definition useFrame (textGeometries : TextGeometries) (userColor : Color)
    (handData : option HandResult) (viewport : Viewport) (delta : float)
    (s : Scene) : result Scene :=
  let time := timeRef s + delta in
  let hands := match handData with Some d => landmarks d | None => [] end in
  let handCount := List.length hands in
  wh <- worldHands viewport hands ;;
  points <- interactionPoints viewport hands ;;
  res <- resolve textGeometries userColor delta (vy (rotation s)) hands wh ;;
  let rot := settleRotation res delta (rotation s) in
  let color := Color_lerp (currentColor s) (targetColor res) 0.1 in
  let holding := isHolding res in
  let center := handCenter handCount wh in
  let '(positions', k) :=
    updateParticles res holding center time points 0 (positions s) (target s)
                    (randomCalls s) in
  let shade := mkVec3 (fround (r color)) (fround (g color)) (fround (b color)) in
  Ok (mkScene time rot color positions' (map (fun _ => shade) positions')
              (target s) k).

End Integrator.

End ParticleField.


(* ------------------------------------------------------------------ *)
(** ** The classifier as the specification words it *)

Module Spec.
Open Scope float_scope.

Inductive GestureLabel : Type := one | two | five | fist | unknown.

(** The string [detectGesture] returns for a label. *)
Definition label_string (l : GestureLabel) : string :=
  match l with
  | one => "1"
  | two => "2"
  | five => "5"
  | fist => "fist"
  | unknown => "unknown"
  end.

(** Landmark [i] of a hand of 21 landmarks. *)
Definition joint (hand : list HandLandmark) (i : nat) : HandLandmark :=
  nth i hand (mkLandmark 0 0 0).

(** Euclidean distance of two landmarks. *)
Definition euclid (a b : HandLandmark) : float :=
  JsMath.sqrt (JsMath.pow2 (x a - x b) + JsMath.pow2 (y a - y b)
               + JsMath.pow2 (z a - z b)).

(** A finger is extended iff [distance(wrist, tip) > distance(wrist, pivot)]. *)
Definition extended (hand : list HandLandmark) (tip pivot : nat) : bool :=
  euclid (joint hand 0) (joint hand pivot) <? euclid (joint hand 0) (joint hand tip).

Definition classify (hand : list HandLandmark) : GestureLabel :=
  let thumb := extended hand 4 2 in
  let index := extended hand 8 6 in
  let middle := extended hand 12 10 in
  let ring := extended hand 16 14 in
  let pinky := extended hand 20 18 in
  let openCount :=
    (Nat.b2n thumb + Nat.b2n index + Nat.b2n middle + Nat.b2n ring + Nat.b2n pinky)%nat in
  if (openCount =? 5)%nat then five
  else if index && negb middle && negb ring && negb pinky then one
  else if index && middle && negb ring && negb pinky then two
  else if (openCount <=? 1)%nat && negb index then fist
  else unknown.

(** What [worldHand] and the callback of line 109 compute on a hand of 21
    landmarks. *)
Definition worldHandOf (viewport : ParticleField.Viewport) (hand : list HandLandmark)
  : ParticleField.WorldHand :=
  let cx := x (joint hand 0) + x (joint hand 5) + x (joint hand 17) in
  let cy := y (joint hand 0) + y (joint hand 5) + y (joint hand 17) in
  ParticleField.mkWorldHand
    ((0.5 - cx / 3) * ParticleField.vwidth viewport)
    ((0.5 - cy / 3) * ParticleField.vheight viewport)
    (cx / 3)
    (label_string (classify hand)).

Definition pointOf (viewport : ParticleField.Viewport) (hand : list HandLandmark)
    (idx : nat) : ParticleField.Point :=
  ParticleField.mkPoint
    ((0.5 - x (joint hand idx)) * ParticleField.vwidth viewport)
    ((0.5 - y (joint hand idx)) * ParticleField.vheight viewport).

(** The repulsion of one interaction point on a particle at [pos] whose
    target so far is [t]: within the radius of the mode, the target is
    displaced along the direction from the point to the particle, by
    [1 - distSq / radiusSq] times the force multiplier of the mode; at the
    radius or beyond, it is left alone.  The point lies in the plane
    [z = 0]. *)
Definition push (mode : AppState) (holding : bool)
    (pos t : ParticleField.Vec3) (point : ParticleField.Point) : ParticleField.Vec3 :=
  let radius :=
    match mode with
    | TEXT_MODE => 1.5
    | _ => if holding then 8.0 else 3.5
    end in
  let forceMulti :=
    match mode with
    | TEXT_MODE => 8.0
    | _ => if holding then 15.0 else 3.0
    end in
  let dx := ParticleField.vx pos - ParticleField.ptx point in
  let dy := ParticleField.vy pos - ParticleField.pty point in
  let dz := ParticleField.vz pos - 0 in
  let distSq := dx * dx + dy * dy + dz * dz in
  let radiusSq := radius * radius in
  if distSq <? radiusSq then
    ParticleField.mkVec3
      (ParticleField.vx t + dx * (1.0 - distSq / radiusSq) * forceMulti)
      (ParticleField.vy t + dy * (1.0 - distSq / radiusSq) * forceMulti)
      (ParticleField.vz t + dz * (1.0 - distSq / radiusSq) * forceMulti)
  else t.

(** A flat buffer made of whole triples, each satisfying [P]. *)
Inductive Triples {A : Type} (P : A -> A -> A -> Prop) : list A -> Prop :=
| Triples_nil : Triples P []
| Triples_cons a b c l : P a b c -> Triples P l -> Triples P (a :: b :: c :: l).

(** A point of a glyph cloud as the generator computes it, in binary64
    and then rounded by the [Float32Array]: it comes from a pixel [(x, y)] of
    the image whose coordinates are multiples of [density], moved on each
    image axis by the jitter [(r - 0.5) * density * 0.3] of a random number
    [r] and then normalised; its depth is [(r - 0.5) * 0.2].  The three
    random numbers are consecutive calls of [Math.random]. *)
Definition emittedFrom (Math_random : nat -> float) (width height density : Z)
    (nX nY nZ : float) : Prop :=
  exists (x y : Z) (k : nat),
    (0 <= x < width)%Z /\ (0 <= y < height)%Z /\
    (density | x)%Z /\ (density | y)%Z /\
    let jitterX := (Math_random k - 0.5) * float_of_Z density * 0.3 in
    let jitterY := (Math_random (S k) - 0.5) * float_of_Z density * 0.3 in
    nX = fround (((float_of_Z x + jitterX) / float_of_Z width - 0.5) * 20) /\
    nY = fround (- ((float_of_Z y + jitterY) / float_of_Z height - 0.5) * 20
                 * (float_of_Z height / float_of_Z width)) /\
    nZ = fround ((Math_random (S (S k)) - 0.5) * 0.2).

(** A point of a glyph cloud with its bounds: it is computed as
    [emittedFrom] says; its jitters are finite numbers of amplitude at most
    [0.15 * density], up to the rounding [2 ^ -50] of three binary64
    operations; and the three stored numbers are finite and lie in the box
    [[-10, 10]] (aspect-corrected on Y) widened by the image [3 * density /
    width] of the jitter, with a depth of at most [0.1], up to the rounding
    [2 ^ -23] of the [Float32Array]. *)
Definition boundedPoint (Math_random : nat -> float) (width height density : Z)
    (nX nY nZ : float) : Prop :=
  exists (x y : Z) (k : nat),
    (0 <= x < width)%Z /\ (0 <= y < height)%Z /\
    (density | x)%Z /\ (density | y)%Z /\
    let jitterX := (Math_random k - 0.5) * float_of_Z density * 0.3 in
    let jitterY := (Math_random (S k) - 0.5) * float_of_Z density * 0.3 in
    nX = fround (((float_of_Z x + jitterX) / float_of_Z width - 0.5) * 20) /\
    nY = fround (- ((float_of_Z y + jitterY) / float_of_Z height - 0.5) * 20
                 * (float_of_Z height / float_of_Z width)) /\
    nZ = fround ((Math_random (S (S k)) - 0.5) * 0.2) /\
    finite jitterX /\ finite jitterY /\
    (Rabs (val jitterX) <= 15 / 100 * IZR density * (1 + / 1125899906842624))%R /\
    (Rabs (val jitterY) <= 15 / 100 * IZR density * (1 + / 1125899906842624))%R /\
    finite nX /\ finite nY /\ finite nZ /\
    (Rabs (val nX) <= (10 + 3 * IZR density / IZR width) * (1 + / 8388608))%R /\
    (Rabs (val nY) <= (10 * IZR height + 3 * IZR density) / IZR width * (1 + / 8388608))%R /\
    (Rabs (val nZ) <= 1 / 10 * (1 + / 8388608))%R.

End Spec.

(* ------------------------------------------------------------------ *)
(** ** Sample inputs *)

Module Sample.
Open Scope float_scope.

(** A hand on the vertical line [x = 0.5]: landmark [i] lies [d_i / 64]
    above the wrist height [0.5]. *)
Definition hand_of (ds : list Z) : list HandLandmark :=
  map (fun d => mkLandmark 0.5 (0.5 - float_of_Z d / 64) 0) ds.

Definition hand_five : list HandLandmark :=
  hand_of [0; 1; 2; 3; 4; 5; 6; 7; 8; 9; 10; 11; 12; 13; 14; 15; 16; 17; 18; 19; 20]%Z.
Definition hand_one : list HandLandmark :=
  hand_of [0; 1; 4; 3; 2; 5; 6; 7; 8; 9; 10; 9; 8; 9; 10; 9; 8; 9; 10; 9; 8]%Z.
Definition hand_two : list HandLandmark :=
  hand_of [0; 1; 4; 3; 2; 5; 6; 7; 8; 9; 10; 11; 12; 9; 10; 9; 8; 9; 10; 9; 8]%Z.
Definition hand_fist : list HandLandmark :=
  hand_of [0; 1; 4; 3; 2; 5; 6; 5; 4; 9; 10; 9; 8; 9; 10; 9; 8; 9; 10; 9; 8]%Z.

(** The open hand with every landmark of odd index moved, off the line and
    in depth; the landmarks of even index are those of [hand_five]. *)
Definition hand_five_odd_moved : list HandLandmark :=
  map (fun p => if Nat.even (fst p) then snd p
                else mkLandmark 0.25 (y (snd p) + 0.125) 0.5)
      (combine (seq 0 21) hand_five).

(** All 21 landmarks on one point. *)
Definition hand_point : list HandLandmark := repeat (mkLandmark 0.5 0.5 0) 21.

(** A hand of a single landmark. *)
Definition hand_short : list HandLandmark := [mkLandmark 0.5 0.5 0].

Definition viewport0 : ParticleField.Viewport := ParticleField.mkViewport 16 9.

Definition clouds0 : ParticleField.TextGeometries :=
  ParticleField.mkTextGeometries [1; 1; 1] [2; 2; 2] [3; 3; 3] [4; 4; 4].

(** A canvas whose every pixel is white: the glyphs cover the image. *)
Definition whiteCanvas (text : string) (width height : Z) : option (list Z) :=
  Some (repeat 255%Z (Z.to_nat (width * height * 4))).

(** A text cloud of two points. *)
Definition cloud2 : list float := [1; 2; 3; 4; 5; 6].

Definition res_text (cloud : option (list float)) : ParticleField.Resolved :=
  ParticleField.mkResolved cloud ParticleField.cyan TEXT_MODE 0.2 1.0 0.

Definition scene0 : ParticleField.Scene :=
  ParticleField.mkScene 0 (ParticleField.mkVec3 0 0 0) ParticleField.cyan
    [ParticleField.mkVec3 4 0 0; ParticleField.mkVec3 0 5 0]
    [ParticleField.mkVec3 0 1 1; ParticleField.mkVec3 0 1 1]
    [ParticleField.mkVec3 4 0 0; ParticleField.mkVec3 0 5 0]
    0.

(** The open hand moved to the column [x = cx] of the camera image. *)
Definition hand_at (cx : float) : list HandLandmark :=
  map (fun l => mkLandmark cx (y l) (z l)) hand_five.

End Sample.

(* ------------------------------------------------------------------ *)
(** ** The scan of the generator as a list of samples *)

Module Grid.

(** [n] coordinates from [start], [density] apart. *)
Fixpoint colsFrom (density : Z) (n : nat) (start : Z) : list Z :=
  match n with
  | O => []
  | S n' => start :: colsFrom density n' (start + density)%Z
  end.

(** How many multiples of [density] lie in [[0, limit)]. *)
Definition gridCount (limit density : Z) : nat :=
  Z.to_nat ((limit + density - 1) / density).

(** The sampled coordinates [0, density, 2 * density, ...] below [limit]. *)
Definition grid (limit density : Z) : list Z :=
  colsFrom density (gridCount limit density) 0.

(** The sampled pixels [(x, y)], row by row. *)
Definition samples (width height density : Z) : list (Z * Z) :=
  flat_map (fun y => map (fun x => (x, y)) (grid width density)) (grid height density).

(** Whether the red byte of pixel [p = (x, y)] exceeds 128. *)
Definition brightAt (data : list Z) (width : Z) (p : Z * Z) : bool :=
  bright data ((snd p * width + fst p) * 4).

(** The sampled pixels whose red byte exceeds 128, in the same order. *)
Definition brightSamples (data : list Z) (width height density : Z) : list (Z * Z) :=
  filter (brightAt data width) (samples width height density).

(** [n] sampled coordinates remain from [start] below [limit]. *)
Definition remaining (density limit : Z) (n : nat) (start : Z) : Prop :=
  (limit <= start + Z.of_nat n * density)%Z
  /\ (n <> 0%nat -> start + (Z.of_nat n - 1) * density < limit)%Z.

(** The numbers pushed for a list of pixels, three random numbers each,
    the first pixel using the calls [k], [k + 1], [k + 2]. *)
Fixpoint emitAll {num : Type} `{Arith num} (Math_random : nat -> num)
    (width height density : Z) (k : nat) (pixels : list (Z * Z)) : list num :=
  match pixels with
  | [] => []
  | p :: rest =>
    emit Math_random width height density (fst p) (snd p) k
    ++ emitAll Math_random width height density (3 + k) rest
  end.

End Grid.

(* ------------------------------------------------------------------ *)
(** ** Mounting and running ([ParticleField.tsx], lines 19-49 and 65-67) *)

Module Startup.
Import ParticleField.
Open Scope float_scope.

Section Seed.
Variables (Math_sin Math_cos Math_acos : float -> float) (Math_PI : float).
Variable Math_random : nat -> float.

(** Lines 26-32: the point of the sphere shell drawn with the calls [k],
    [k + 1] and [k + 2] of [Math.random], as the [Float32Array]s keep it. *)
Definition seedPoint (k : nat) : Vec3 :=
  let theta := Math_random k * Math_PI * 2 in
  let phi := Math_acos ((Math_random (S k) * 2) - 1) in
  let r := 4 + Math_random (S (S k)) * 2 in
  let x := r * Math_sin phi * Math_cos theta in
  let y := r * Math_sin phi * Math_sin theta in
  let z := r * Math_cos phi in
  mkVec3 (fround x) (fround y) (fround z).

(** The three buffers of [particles]. *)
Record Particles : Type := mkParticles {
  pos : list Vec3;
  target : list Vec3;
  colors : list Vec3
}.

(** Lines 19-49: the loop over [i < COUNT]. *)
Definition particles : Particles :=
  let seeded := map (fun i => seedPoint (3 * i)) (seq 0 COUNT) in
  let color := cyan in
  let c := mkVec3 (fround (r color)) (fround (g color)) (fround (b color)) in
  mkParticles seeded seeded (map (fun _ => c) (seq 0 COUNT)).

(** The state before the first frame: [timeRef] is 0, the group is not
    rotated, [currentColor] is the user's colour, and [calls] calls of
    [Math.random] were made while mounting. *)
Definition initialScene (userColor : Color) (calls : nat) : Scene :=
  mkScene 0 (mkVec3 0 0 0) userColor (pos particles) (colors particles)
          (target particles) calls.

End Seed.

(** What one frame receives. *)
Record FrameInput : Type := mkFrameInput {
  handData : option HandResult;
  viewport : Viewport;
  delta : float
}.

(** The callback run on successive frames, up to the first that throws. *)
Fixpoint runFrames (Math_sin Math_cos : float -> float) (Math_random : nat -> float)
    (textGeometries : TextGeometries) (userColor : Color)
    (inputs : list FrameInput) (s : Scene) : result Scene :=
  match inputs with
  | [] => Ok s
  | input :: rest =>
    s' <- useFrame Math_sin Math_cos Math_random textGeometries userColor
            (handData input) (viewport input) (delta input) s ;;
    runFrames Math_sin Math_cos Math_random textGeometries userColor rest s'
  end.

End Startup.

(** A particle whose three coordinates are [NaN]. *)
Definition allNaN (v : ParticleField.Vec3) : Prop :=
  v = ParticleField.mkVec3 nan nan nan.

(* ------------------------------------------------------------------ *)
(** * Properties *)

(** ** Reading a well-formed hand *)

Section HandAccess.
Import Gesture Spec.

Lemma prop_joint {B : Type} (hand : list HandLandmark) (i : nat) (field : HandLandmark -> B) :
  (i < List.length hand)%nat ->
  prop (at_ hand i) field = Ok (field (joint hand i)).
Proof.
  intros Hi. unfold at_, joint.
  destruct (nth_error hand i) as [l|] eqn:E.
  - now rewrite (nth_error_nth _ _ _ E).
  - apply nth_error_None in E. lia.
Qed.

Lemma prop_undefined {B : Type} (hand : list HandLandmark) (i : nat) (field : HandLandmark -> B) :
  (List.length hand <= i)%nat ->
  prop (at_ hand i) field = TypeError.
Proof.
  intros Hi. unfold at_. apply nth_error_None in Hi. now rewrite Hi.
Qed.

Lemma distance_defined (hand : list HandLandmark) (i j : nat) :
  (i < List.length hand)%nat -> (j < List.length hand)%nat ->
  distance (at_ hand i) (at_ hand j) = Ok (euclid (joint hand i) (joint hand j)).
Proof.
  intros Hi Hj. unfold distance.
  rewrite !(prop_joint hand i), !(prop_joint hand j) by assumption.
  reflexivity.
Qed.

Lemma distance_undefined (a b : option HandLandmark) :
  b = None -> distance a b = TypeError.
Proof. intros ->. unfold distance. destruct a; reflexivity. Qed.

Lemma isFingerExtended_extended (hand : list HandLandmark) (tip pivot : nat) :
  (0 < List.length hand)%nat ->
  (tip < List.length hand)%nat -> (pivot < List.length hand)%nat ->
  isFingerExtended hand tip pivot = Ok (extended hand tip pivot).
Proof.
  intros H0 Ht Hp. unfold isFingerExtended.
  rewrite !distance_defined by assumption. reflexivity.
Qed.

Lemma isFingerExtended_undefined (hand : list HandLandmark) (tip pivot : nat) :
  (List.length hand <= tip)%nat ->
  isFingerExtended hand tip pivot = TypeError.
Proof.
  intros Ht. unfold isFingerExtended.
  rewrite distance_undefined; [reflexivity|].
  unfold at_. now apply nth_error_None.
Qed.

(** On 21 landmarks [detectGesture] returns, and returns the label of the
    specification's procedure. *)
Lemma detectGesture_spec (hand : list HandLandmark) :
  List.length hand = 21%nat ->
  detectGesture hand = Ok (label_string (classify hand)).
Proof.
  intros Hlen. unfold detectGesture.
  destruct hand as [|l0 rest] eqn:E; [discriminate Hlen|].
  rewrite <- E in *. clear E l0 rest.
  rewrite !isFingerExtended_extended by lia.
  unfold classify. cbn [bind].
  destruct (extended hand 4 2), (extended hand 8 6), (extended hand 12 10),
    (extended hand 16 14), (extended hand 20 18); reflexivity.
Qed.

(** A non-empty hand that lacks landmark 20 makes [detectGesture] throw. *)
Lemma detectGesture_short (hand : list HandLandmark) :
  (0 < List.length hand < 21)%nat ->
  detectGesture hand = TypeError.
Proof.
  intros [Hpos Hlt]. unfold detectGesture.
  destruct hand as [|l0 rest] eqn:E; [cbn in Hpos; lia|].
  rewrite <- E in *. clear E l0 rest.
  rewrite (isFingerExtended_undefined hand 20 18) by lia.
  destruct (isFingerExtended hand 4 2); [|reflexivity].
  destruct (isFingerExtended hand 8 6); [|reflexivity].
  destruct (isFingerExtended hand 12 10); [|reflexivity].
  destruct (isFingerExtended hand 16 14); reflexivity.
Qed.

Lemma mapM_Ok {A B : Type} (f : A -> result B) (g : A -> B) (xs : list A) :
  Forall (fun a => f a = Ok (g a)) xs -> mapM f xs = Ok (map g xs).
Proof.
  induction 1 as [|a xs Ha _ IH]; [reflexivity|].
  cbn [mapM map]. rewrite Ha, IH. reflexivity.
Qed.

Lemma mapM_TypeError {A B : Type} (f : A -> result B) (a : A) (xs : list A) :
  In a xs -> f a = TypeError -> mapM f xs = TypeError.
Proof.
  intros Hin Ha. induction xs as [|a' xs IH]; [contradiction|].
  cbn [mapM]. destruct Hin as [->|Hin].
  - now rewrite Ha.
  - rewrite (IH Hin). destruct (f a'); reflexivity.
Qed.

End HandAccess.

Section Resolver.
Import Gesture Spec ParticleField.
Variables (viewport : Viewport) (textGeometries : TextGeometries).
Variables (userColor : Color) (delta rotY : float).

Lemma worldHand_spec (hand : list HandLandmark) :
  List.length hand = 21%nat ->
  worldHand viewport hand = Ok (worldHandOf viewport hand).
Proof.
  intros Hlen. unfold worldHand.
  rewrite !prop_joint by lia. rewrite (detectGesture_spec hand Hlen).
  reflexivity.
Qed.

Lemma worldHand_short (hand : list HandLandmark) :
  (List.length hand < 21)%nat ->
  worldHand viewport hand = TypeError.
Proof.
  intros Hlt. unfold worldHand.
  destruct hand as [|l0 rest] eqn:E; [reflexivity|].
  rewrite <- E in *.
  assert (Hpos : (0 < List.length hand)%nat) by (rewrite E; cbn; lia).
  clear E l0 rest.
  rewrite (detectGesture_short hand) by lia.
  destruct (prop (at_ hand 0) x); [|reflexivity].
  destruct (prop (at_ hand 5) x); [|reflexivity].
  destruct (prop (at_ hand 17) x); [|reflexivity].
  destruct (prop (at_ hand 0) y); [|reflexivity].
  destruct (prop (at_ hand 5) y); [|reflexivity].
  destruct (prop (at_ hand 17) y); reflexivity.
Qed.

Lemma worldHands_spec (hands : list (list HandLandmark)) :
  Forall (fun hand => List.length hand = 21%nat) hands ->
  worldHands viewport hands = Ok (map (worldHandOf viewport) hands).
Proof.
  intros Hall. apply mapM_Ok.
  eapply Forall_impl; [|exact Hall]. intros hand. apply worldHand_spec.
Qed.

Lemma handPoints_spec (hand : list HandLandmark) :
  List.length hand = 21%nat ->
  handPoints viewport hand = Ok (map (pointOf viewport hand) indices).
Proof.
  intros Hlen. unfold handPoints. apply mapM_Ok.
  unfold indices. repeat constructor; rewrite !prop_joint by lia; reflexivity.
Qed.

Lemma interactionPoints_spec (hands : list (list HandLandmark)) :
  Forall (fun hand => List.length hand = 21%nat) hands ->
  interactionPoints viewport hands
  = Ok (flat_map (fun hand => map (pointOf viewport hand) indices) hands).
Proof.
  intros Hall. unfold interactionPoints.
  rewrite (mapM_Ok _ (fun hand => map (pointOf viewport hand) indices)).
  - cbn [bind]. now rewrite flat_map_concat_map.
  - eapply Forall_impl; [|exact Hall]. intros hand. apply handPoints_spec.
Qed.

(** Two well-formed hands: what [resolveTwo] is run on. *)
Lemma resolveObservation_two (h1 h2 : list HandLandmark) :
  List.length h1 = 21%nat -> List.length h2 = 21%nat ->
  resolveObservation viewport textGeometries userColor delta rotY [h1; h2]
  = resolveTwo textGeometries userColor rotY
      [worldHandOf viewport h1; worldHandOf viewport h2].
Proof.
  intros H1 H2. unfold resolveObservation.
  rewrite worldHands_spec by (repeat constructor; assumption).
  reflexivity.
Qed.

End Resolver.

(* ------------------------------------------------------------------ *)
(** ** Gesture classifier *)

(** C1. For every hand of exactly 21 landmarks, [detectGesture] returns the
    label of the specified procedure: a finger is extended iff the wrist is
    farther from its tip than from its pivot (joints 6, 10, 14, 18, and joint
    2 for the thumb), and the rules five, one, two, fist, unknown are tried in
    this order. *)
Theorem detectGesture_follows_procedure (hand : list HandLandmark) :
  List.length hand = 21%nat ->
  Gesture.detectGesture hand = Ok (Spec.label_string (Spec.classify hand)).
Proof.
  intros Hlen. unfold Gesture.detectGesture.
  destruct hand as [|wrist rest] eqn:E; [discriminate Hlen|].
  rewrite <- E in *. clear E wrist rest.
  (* the five tests are the specification's, every joint being defined *)
  rewrite (isFingerExtended_extended hand 4 2), (isFingerExtended_extended hand 8 6),
    (isFingerExtended_extended hand 12 10), (isFingerExtended_extended hand 16 14),
    (isFingerExtended_extended hand 20 18) by lia.
  cbn [bind]. unfold Spec.classify, Gesture.countTrue.
  (* the rules agree on each of the 32 combinations of extended fingers *)
  destruct (Spec.extended hand 4 2) eqn:thumb, (Spec.extended hand 8 6) eqn:index,
    (Spec.extended hand 12 10) eqn:middle, (Spec.extended hand 16 14) eqn:ring,
    (Spec.extended hand 20 18) eqn:pinky; reflexivity.
Qed.

Lemma detectGesture_follows_procedure_witness :
  Gesture.detectGesture Sample.hand_two
  = Ok (Spec.label_string (Spec.classify Sample.hand_two)).
Proof. apply detectGesture_follows_procedure. reflexivity. Defined.

Example detectGesture_samples :
  Gesture.detectGesture Sample.hand_five = Ok "5"%string
  /\ Gesture.detectGesture Sample.hand_one = Ok "1"%string
  /\ Gesture.detectGesture Sample.hand_two = Ok "2"%string
  /\ Gesture.detectGesture Sample.hand_fist = Ok "fist"%string
  /\ Gesture.detectGesture [] = Ok "unknown"%string.
Proof. repeat split; vm_compute; reflexivity. Qed.

(** C2 (the code departs from it). A hand of 1 to 20 landmarks makes
    [detectGesture] throw a [TypeError] instead of returning ["unknown"], and
    a frame whose observation holds a hand of fewer than 21 landmarks is
    abandoned by that exception. *)
Theorem malformed_hand_throws (hand : list HandLandmark) :
  (0 < List.length hand < 21)%nat ->
  Gesture.detectGesture hand = TypeError
  /\ forall Math_sin Math_cos Math_random textGeometries userColor viewport delta s hands,
       In hand hands ->
       ParticleField.useFrame Math_sin Math_cos Math_random textGeometries userColor
         (Some (mkHandResult hands)) viewport delta s = TypeError.
Proof.
  intros Hlen. split; [now apply detectGesture_short|].
  intros Math_sin Math_cos Math_random tg uc vp delta s hands Hin.
  unfold ParticleField.useFrame, ParticleField.worldHands. cbn [landmarks].
  rewrite (mapM_TypeError _ hand hands Hin); [reflexivity|].
  apply worldHand_short. lia.
Qed.

Lemma malformed_hand_throws_witness :
  Gesture.detectGesture Sample.hand_short = TypeError
  /\ forall Math_sin Math_cos Math_random textGeometries userColor viewport delta s hands,
       In Sample.hand_short hands ->
       ParticleField.useFrame Math_sin Math_cos Math_random textGeometries userColor
         (Some (mkHandResult hands)) viewport delta s = TypeError.
Proof. apply malformed_hand_throws. cbn. lia. Defined.

(** A hand of more than 21 landmarks is classified on its first 21. *)
Example long_hand_classified :
  Gesture.detectGesture (Sample.hand_five ++ [mkLandmark 0.5 0.5 0]) = Ok "5"%string.
Proof. vm_compute. reflexivity. Qed.

(** Even the empty hand, which [detectGesture] alone answers with
    ["unknown"], abandons the frame: [hand[0].x] is read first. *)
Example empty_hand_abandons_frame :
  forall Math_sin Math_cos Math_random,
    ParticleField.useFrame Math_sin Math_cos Math_random Sample.clouds0
      ParticleField.cyan (Some (mkHandResult [[]])) Sample.viewport0 0%float
      Sample.scene0 = TypeError.
Proof. reflexivity. Qed.

(* ------------------------------------------------------------------ *)
(** ** Mode resolver *)

(** C3. With exactly two (well-formed) hands: both ['5'] gives text mode on
    the PHOTO cloud, both ['1'] on the YUFU cloud, both ['2'] on the WITHME
    cloud, and text mode is entered in no other case. *)
Theorem two_hands_text_mode
    (viewport : ParticleField.Viewport) (textGeometries : ParticleField.TextGeometries)
    (userColor : ParticleField.Color) (delta rotY : float) (h1 h2 : list HandLandmark) :
  List.length h1 = 21%nat -> List.length h2 = 21%nat ->
  exists g1 g2 res,
    Gesture.detectGesture h1 = Ok g1 /\ Gesture.detectGesture h2 = Ok g2 /\
    ParticleField.resolveObservation viewport textGeometries userColor delta rotY [h1; h2]
    = Ok res /\
    (g1 = "5"%string /\ g2 = "5"%string ->
     ParticleField.interactionMode res = TEXT_MODE
     /\ ParticleField.activeTextTarget res = Some (ParticleField.PHOTO textGeometries)) /\
    (g1 = "1"%string /\ g2 = "1"%string ->
     ParticleField.interactionMode res = TEXT_MODE
     /\ ParticleField.activeTextTarget res = Some (ParticleField.YUFU textGeometries)) /\
    (g1 = "2"%string /\ g2 = "2"%string ->
     ParticleField.interactionMode res = TEXT_MODE
     /\ ParticleField.activeTextTarget res = Some (ParticleField.WITHME textGeometries)) /\
    (ParticleField.interactionMode res = TEXT_MODE ->
     (g1 = "5"%string /\ g2 = "5"%string) \/ (g1 = "1"%string /\ g2 = "1"%string)
     \/ (g1 = "2"%string /\ g2 = "2"%string)).
Proof.
  intros H1 H2.
  exists (Spec.label_string (Spec.classify h1)), (Spec.label_string (Spec.classify h2)).
  rewrite (resolveObservation_two _ _ _ _ _ h1 h2 H1 H2).
  rewrite (detectGesture_spec h1 H1), (detectGesture_spec h2 H2).
  unfold ParticleField.resolveTwo, Spec.worldHandOf.
  cbn [at_ nth_error prop bind ParticleField.gesture ParticleField.wx ParticleField.wy].
  destruct (Spec.classify h1), (Spec.classify h2); cbn;
    (eexists; split; [reflexivity|]; split; [reflexivity|]; split; [reflexivity|]);
    cbn; repeat split; intros; try discriminate;
    repeat match goal with H : _ /\ _ |- _ => destruct H end; try discriminate; tauto.
Qed.

Lemma two_hands_text_mode_witness :
  exists g1 g2 res,
    Gesture.detectGesture Sample.hand_five = Ok g1 /\
    Gesture.detectGesture Sample.hand_five = Ok g2 /\
    ParticleField.resolveObservation Sample.viewport0 Sample.clouds0 ParticleField.red
      0%float 0%float [Sample.hand_five; Sample.hand_five] = Ok res /\
    (g1 = "5"%string /\ g2 = "5"%string ->
     ParticleField.interactionMode res = TEXT_MODE
     /\ ParticleField.activeTextTarget res = Some (ParticleField.PHOTO Sample.clouds0)) /\
    (g1 = "1"%string /\ g2 = "1"%string ->
     ParticleField.interactionMode res = TEXT_MODE
     /\ ParticleField.activeTextTarget res = Some (ParticleField.YUFU Sample.clouds0)) /\
    (g1 = "2"%string /\ g2 = "2"%string ->
     ParticleField.interactionMode res = TEXT_MODE
     /\ ParticleField.activeTextTarget res = Some (ParticleField.WITHME Sample.clouds0)) /\
    (ParticleField.interactionMode res = TEXT_MODE ->
     (g1 = "5"%string /\ g2 = "5"%string) \/ (g1 = "1"%string /\ g2 = "1"%string)
     \/ (g1 = "2"%string /\ g2 = "2"%string)).
Proof. apply two_hands_text_mode; reflexivity. Defined.

Example two_hands_samples :
  ParticleField.resolveObservation Sample.viewport0 Sample.clouds0 ParticleField.red
    0%float 0%float [Sample.hand_five; Sample.hand_five]
  = Ok (ParticleField.mkResolved (Some [4; 4; 4]%float) ParticleField.red TEXT_MODE
          0.2%float 1%float 0%float)
  /\ ParticleField.resolveObservation Sample.viewport0 Sample.clouds0 ParticleField.red
       0%float 0%float [Sample.hand_one; Sample.hand_one]
     = Ok (ParticleField.mkResolved (Some [2; 2; 2]%float) ParticleField.red TEXT_MODE
             0.2%float 1%float 0%float)
  /\ ParticleField.resolveObservation Sample.viewport0 Sample.clouds0 ParticleField.red
       0%float 0%float [Sample.hand_two; Sample.hand_two]
     = Ok (ParticleField.mkResolved (Some [3; 3; 3]%float) ParticleField.red TEXT_MODE
             0.2%float 1%float 0%float)
  /\ ParticleField.resolveObservation Sample.viewport0 Sample.clouds0 ParticleField.red
       0%float 0%float [Sample.hand_five; Sample.hand_one]
     = Ok (ParticleField.mkResolved None ParticleField.white INTERACTIVE
             0.2%float 1%float 0%float).
Proof. repeat split; vm_compute; reflexivity. Qed.

(** C4 (amended). With zero hands the mode is Idle and the colour target is
    the fixed cyan [#00FFFF], whatever colour the user selected; the user's
    colour is the target when one (well-formed) hand is visible. *)
Theorem idle_target_is_cyan
    (viewport : ParticleField.Viewport) (textGeometries : ParticleField.TextGeometries)
    (userColor : ParticleField.Color) (delta rotY : float) :
  ParticleField.resolveObservation viewport textGeometries userColor delta rotY []
  = Ok (ParticleField.mkResolved None ParticleField.cyan IDLE 0.2 1.0 rotY)
  /\ forall hand, List.length hand = 21%nat ->
       exists res,
         ParticleField.resolveObservation viewport textGeometries userColor delta rotY [hand]
         = Ok res
         /\ ParticleField.targetColor res = userColor.
Proof.
  split; [reflexivity|]. intros hand Hlen.
  unfold ParticleField.resolveObservation.
  rewrite worldHands_spec by (repeat constructor; assumption).
  cbn [bind map]. unfold ParticleField.resolve. cbn [List.length Nat.ltb Nat.leb Nat.eqb].
  unfold ParticleField.resolveOne.
  change (at_ [hand] 0) with (Some hand). unfold ParticleField.coord.
  rewrite !prop_joint by lia.
  cbn [at_ nth_error prop bind].
  destruct (String.eqb _ "5"); eexists; split; reflexivity.
Qed.

Lemma idle_target_is_cyan_witness :
  ParticleField.resolveObservation Sample.viewport0 Sample.clouds0 ParticleField.red
    0%float 0%float []
  = Ok (ParticleField.mkResolved None ParticleField.cyan IDLE 0.2 1.0 0)
  /\ exists res,
       ParticleField.resolveObservation Sample.viewport0 Sample.clouds0 ParticleField.red
         0%float 0%float [Sample.hand_fist] = Ok res
       /\ ParticleField.targetColor res = ParticleField.red.
Proof.
  destruct (idle_target_is_cyan Sample.viewport0 Sample.clouds0 ParticleField.red
              0%float 0%float) as [Hidle Hone].
  split; [exact Hidle|]. apply Hone. reflexivity.
Defined.

(** C4 as stated fails: the user selected red, no hand is visible, and the
    colour target is cyan. *)
Lemma idle_target_is_not_user_color :
  exists res,
    ParticleField.resolveObservation Sample.viewport0 Sample.clouds0 ParticleField.red
      0%float 0%float [] = Ok res
    /\ ParticleField.interactionMode res = IDLE
    /\ ParticleField.targetColor res <> ParticleField.red.
Proof.
  eexists. split; [reflexivity|]. split; [reflexivity|].
  cbn. intros H.
  apply (f_equal (fun c => (ParticleField.r c <? 0.5)%float)) in H.
  vm_compute in H. discriminate H.
Qed.

(** C5 (amended). With more than two (well-formed) hands neither the one-hand
    nor the two-hand logic runs: the mode stays Idle, no glyph cloud is
    active, diffusion and rotation keep their defaults and the colour target
    is the user's colour. *)
Theorem many_hands_stay_idle
    (viewport : ParticleField.Viewport) (textGeometries : ParticleField.TextGeometries)
    (userColor : ParticleField.Color) (delta rotY : float)
    (hands : list (list HandLandmark)) :
  (2 < List.length hands)%nat ->
  Forall (fun hand => List.length hand = 21%nat) hands ->
  ParticleField.resolveObservation viewport textGeometries userColor delta rotY hands
  = Ok (ParticleField.mkResolved None userColor IDLE 0.2 1.0 rotY).
Proof.
  intros Hlen Hall. unfold ParticleField.resolveObservation.
  rewrite worldHands_spec by assumption. cbn [bind]. unfold ParticleField.resolve.
  destruct hands as [|h1 [|h2 [|h3 rest]]]; cbn in Hlen; try lia.
  reflexivity.
Qed.

Lemma many_hands_stay_idle_witness :
  ParticleField.resolveObservation Sample.viewport0 Sample.clouds0 ParticleField.red
    0%float 0%float [Sample.hand_five; Sample.hand_five; Sample.hand_five]
  = Ok (ParticleField.mkResolved None ParticleField.red IDLE 0.2 1.0 0).
Proof.
  apply many_hands_stay_idle; [cbn; lia | repeat constructor].
Defined.

(** C5 as stated fails: three open hands leave the mode Idle with no cloud,
    while their first two alone enter text mode on the PHOTO cloud; three
    fists keep the user's red, while their first two alone turn the target
    white. *)
Lemma many_hands_differ_from_first_two :
  exists r3 r2 f3 f2,
    ParticleField.resolveObservation Sample.viewport0 Sample.clouds0 ParticleField.red
      0%float 0%float [Sample.hand_five; Sample.hand_five; Sample.hand_five] = Ok r3
    /\ ParticleField.resolveObservation Sample.viewport0 Sample.clouds0 ParticleField.red
         0%float 0%float [Sample.hand_five; Sample.hand_five] = Ok r2
    /\ ParticleField.interactionMode r3 = IDLE
    /\ ParticleField.interactionMode r2 = TEXT_MODE
    /\ ParticleField.activeTextTarget r3 = None
    /\ ParticleField.activeTextTarget r2 = Some (ParticleField.PHOTO Sample.clouds0)
    /\ ParticleField.resolveObservation Sample.viewport0 Sample.clouds0 ParticleField.red
         0%float 0%float [Sample.hand_fist; Sample.hand_fist; Sample.hand_fist] = Ok f3
    /\ ParticleField.resolveObservation Sample.viewport0 Sample.clouds0 ParticleField.red
         0%float 0%float [Sample.hand_fist; Sample.hand_fist] = Ok f2
    /\ ParticleField.targetColor f3 = ParticleField.red
    /\ ParticleField.targetColor f2 = ParticleField.white.
Proof.
  do 4 eexists.
  split; [vm_compute; reflexivity|]. split; [vm_compute; reflexivity|].
  split; [reflexivity|]. split; [reflexivity|]. split; [reflexivity|].
  split; [reflexivity|].
  split; [vm_compute; reflexivity|]. split; [vm_compute; reflexivity|].
  split; reflexivity.
Qed.

(** C8 (the code departs from it). The ratio is the plain quotient
    [spread / palmSize]: on a hand whose landmarks coincide it is [0 / 0], and
    the diffusion, the rotation speed and the group's rotation come out as
    [NaN]. *)
Theorem zero_palm_gives_nan :
  exists res,
    ParticleField.resolveObservation Sample.viewport0 Sample.clouds0 ParticleField.cyan
      0.016%float 0%float [Sample.hand_point] = Ok res
    /\ ParticleField.interactionMode res = INTERACTIVE
    /\ is_nan (ParticleField.diffusion res) = true
    /\ is_nan (ParticleField.rotationSpeed res) = true
    /\ is_nan (ParticleField.rotationY res) = true
    /\ is_finite (ParticleField.diffusion res) = false.
Proof.
  eexists. split; [vm_compute; reflexivity|].
  repeat split; vm_compute; reflexivity.
Qed.

(* ------------------------------------------------------------------ *)
(** ** Particle integrator *)

Section IntegratorFacts.
Import ParticleField.
Open Scope float_scope.
Variables (Math_sin Math_cos : float -> float) (Math_random : nat -> float).

Lemma cloud_points (cloud : list float) (P : nat) :
  List.length cloud = (3 * P)%nat -> (List.length cloud / 3 = P)%nat.
Proof. intros ->. rewrite Nat.mul_comm. apply Nat.div_mul. discriminate. Qed.

(** In text mode with a cloud of [P > 0] points the target is read from
    point [i mod P]. *)
Lemma particleTarget_text (res : Resolved) (holding : bool) (time : float)
    (home : Vec3) (i k : nat) (cloud : list float) (P : nat) :
  interactionMode res = TEXT_MODE ->
  activeTextTarget res = Some cloud ->
  List.length cloud = (3 * P)%nat -> (0 < P)%nat ->
  particleTarget Math_sin Math_cos Math_random res holding time home i k
  = (mkVec3
       (f32at cloud (i mod P * 3) + Math_sin (float_of_nat i * 0.5) * 0.04)
       (f32at cloud (i mod P * 3 + 1) + Math_cos (float_of_nat i * 0.9) * 0.04)
       (f32at cloud (i mod P * 3 + 2) + Math_sin (float_of_nat i * 1.2) * 0.04),
     k).
Proof.
  intros Hmode Hcloud Hlen HP. unfold particleTarget.
  rewrite Hmode, Hcloud. cbn [AppState_eqb].
  assert (Hpos : (0 <? List.length cloud)%nat = true) by (apply Nat.ltb_lt; lia).
  rewrite Hpos. unfold textTarget. rewrite (cloud_points cloud P Hlen). reflexivity.
Qed.

(** In text mode without a cloud, or with an empty one, the target is the
    sphere-mode one. *)
Lemma particleTarget_no_cloud (res : Resolved) (holding : bool) (time : float)
    (home : Vec3) (i k : nat) :
  interactionMode res = TEXT_MODE ->
  activeTextTarget res = None \/ activeTextTarget res = Some [] ->
  particleTarget Math_sin Math_cos Math_random res holding time home i k
  = sphereTarget Math_sin Math_cos Math_random home (diffusion res) time holding i k.
Proof.
  intros Hmode [Hnone|Hempty]; unfold particleTarget; rewrite Hmode.
  - rewrite Hnone. reflexivity.
  - rewrite Hempty. reflexivity.
Qed.

(** Text mode leaves diffusion and rotation speed at their defaults and is
    never the holding state. *)
Lemma resolve_text_defaults (textGeometries : TextGeometries) (userColor : Color)
    (delta rotY : float) (hands : list (list HandLandmark)) (wh : list WorldHand)
    (res : Resolved) :
  resolve textGeometries userColor delta rotY hands wh = Ok res ->
  interactionMode res = TEXT_MODE ->
  diffusion res = 1.0 /\ rotationSpeed res = 0.2 /\ isHolding res = false.
Proof.
  intros Hres Hmode.
  assert (Hhold : isHolding res = false) by (unfold isHolding; now rewrite Hmode).
  revert Hres. unfold resolve.
  destruct (0 <? List.length hands)%nat;
    [|intros [= <-]; discriminate Hmode].
  destruct (List.length hands =? 1)%nat.
  - unfold resolveOne.
    destruct (prop (at_ wh 0) gesture) as [g|]; [cbn [bind]|discriminate].
    destruct (String.eqb g "5"); [intros [= <-]; auto|].
    repeat match goal with
           | |- bind ?r _ = _ -> _ => destruct r; [cbn [bind]|discriminate]
           end.
    intros [= <-]; discriminate Hmode.
  - destruct (List.length hands =? 2)%nat; [|intros [= <-]; discriminate Hmode].
    unfold resolveTwo.
    destruct (prop (at_ wh 0) gesture) as [g1|]; [cbn [bind]|discriminate].
    destruct (prop (at_ wh 1) gesture) as [g2|]; [cbn [bind]|discriminate].
    repeat match goal with
           | |- (if ?c then _ else _) = _ -> _ => destruct c; [intros [= <-]; auto|]
           end.
    repeat match goal with
           | |- bind ?r _ = _ -> _ => destruct r; [cbn [bind]|discriminate]
           end.
    intros [= <-]; discriminate Hmode.
Qed.

(** On well-formed hands the resolver returns. *)
Lemma resolveObservation_total (viewport : Viewport) (textGeometries : TextGeometries)
    (userColor : Color) (delta rotY : float) (hands : list (list HandLandmark)) :
  Forall (fun hand => List.length hand = 21%nat) hands ->
  exists res,
    resolve textGeometries userColor delta rotY hands (map (Spec.worldHandOf viewport) hands)
    = Ok res.
Proof.
  intros Hall. unfold resolve.
  destruct hands as [|h1 [|h2 [|h3 rest]]]; cbn [List.length Nat.ltb Nat.leb Nat.eqb map].
  - eauto.
  - inversion Hall as [|? ? H1 _]; subst. unfold resolveOne.
    change (at_ [h1] 0) with (Some h1). unfold coord.
    rewrite !prop_joint by lia. cbn [at_ nth_error prop bind].
    destruct (String.eqb _ "5"); eauto.
  - unfold resolveTwo. cbn [at_ nth_error prop bind].
    repeat match goal with
           | |- exists _, (if ?c then _ else _) = _ => destruct c; [eauto|]
           end.
    eauto.
  - eauto.
Qed.

(** On well-formed hands the frame is completed. *)
Lemma useFrame_total (textGeometries : TextGeometries) (userColor : Color)
    (viewport : Viewport) (delta : float) (s : Scene)
    (hands : list (list HandLandmark)) :
  Forall (fun hand => List.length hand = 21%nat) hands ->
  exists res,
    resolveObservation viewport textGeometries userColor delta (vy (rotation s)) hands
    = Ok res
    /\ useFrame Math_sin Math_cos Math_random textGeometries userColor
         (Some (mkHandResult hands)) viewport delta s
       = let points :=
           flat_map (fun hand => map (Spec.pointOf viewport hand) indices) hands in
         let holding := isHolding res in
         let color := Color_lerp (currentColor s) (targetColor res) 0.1 in
         let shade := mkVec3 (fround (r color)) (fround (g color)) (fround (b color)) in
         let moved :=
           updateParticles Math_sin Math_cos Math_random res holding
             (handCenter (List.length hands) (map (Spec.worldHandOf viewport) hands))
             (timeRef s + delta) points 0 (positions s) (target s) (randomCalls s) in
         Ok (mkScene (timeRef s + delta) (settleRotation res delta (rotation s)) color
               (fst moved) (map (fun _ => shade) (fst moved)) (target s) (snd moved)).
Proof.
  intros Hall.
  destruct (resolveObservation_total viewport textGeometries userColor delta
              (vy (rotation s)) hands Hall) as [res Hres].
  exists res. unfold resolveObservation, useFrame. cbn [landmarks].
  rewrite (worldHands_spec viewport hands Hall),
    (interactionPoints_spec viewport hands Hall).
  cbn [bind]. rewrite Hres. cbn [bind]. split; [reflexivity|].
  cbv zeta. destruct (updateParticles _ _ _ _ _ _ _ _ _ _ _ _) as [moved k].
  reflexivity.
Qed.

End IntegratorFacts.

(** C6 (amended). In text mode with a cloud of [P > 0] points, the target of
    particle [i] before the forces is the cloud's [(i mod P)]-th point plus
    a sinusoidal jitter of amplitude 0.04 that is a function of the particle
    index alone: the target is the same at every elapsed time. *)
Theorem text_target_is_cloud_point
    (Math_sin Math_cos : float -> float) (Math_random : nat -> float)
    (res : ParticleField.Resolved) (holding : bool) (time : float)
    (home : ParticleField.Vec3) (i k : nat) (cloud : list float) (P : nat) :
  ParticleField.interactionMode res = TEXT_MODE ->
  ParticleField.activeTextTarget res = Some cloud ->
  List.length cloud = (3 * P)%nat -> (0 < P)%nat ->
  (i mod P * 3 + 2 < List.length cloud)%nat
  /\ ParticleField.particleTarget Math_sin Math_cos Math_random res holding time home i k
     = (ParticleField.mkVec3
          (nth (i mod P * 3) cloud nan + Math_sin (float_of_nat i * 0.5) * 0.04)
          (nth (i mod P * 3 + 1) cloud nan + Math_cos (float_of_nat i * 0.9) * 0.04)
          (nth (i mod P * 3 + 2) cloud nan + Math_sin (float_of_nat i * 1.2) * 0.04),
        k)%float
  /\ forall time',
       ParticleField.particleTarget Math_sin Math_cos Math_random res holding time' home i k
       = ParticleField.particleTarget Math_sin Math_cos Math_random res holding time home i k.
Proof.
  intros Hmode Hcloud Hlen HP. split; [|split].
  - pose proof (Nat.mod_upper_bound i P). lia.
  - apply particleTarget_text; assumption.
  - intros time'.
    rewrite !(particleTarget_text _ _ _ res holding _ home i k cloud P) by assumption.
    reflexivity.
Qed.

Lemma text_target_is_cloud_point_witness :
  (5 mod 2 * 3 + 2 < List.length Sample.cloud2)%nat
  /\ ParticleField.particleTarget (fun _ => 0%float) (fun _ => 1%float) (fun _ => 0%float)
       (Sample.res_text (Some Sample.cloud2)) false 0%float
       (ParticleField.mkVec3 4 0 0) 5 0
     = (ParticleField.mkVec3
          (nth (5 mod 2 * 3) Sample.cloud2 nan + 0 * 0.04)
          (nth (5 mod 2 * 3 + 1) Sample.cloud2 nan + 1 * 0.04)
          (nth (5 mod 2 * 3 + 2) Sample.cloud2 nan + 0 * 0.04),
        0%nat)%float
  /\ forall time',
       ParticleField.particleTarget (fun _ => 0%float) (fun _ => 1%float) (fun _ => 0%float)
         (Sample.res_text (Some Sample.cloud2)) false time'
         (ParticleField.mkVec3 4 0 0) 5 0
       = ParticleField.particleTarget (fun _ => 0%float) (fun _ => 1%float) (fun _ => 0%float)
           (Sample.res_text (Some Sample.cloud2)) false 0%float
           (ParticleField.mkVec3 4 0 0) 5 0.
Proof.
  apply (text_target_is_cloud_point (fun _ => 0%float) (fun _ => 1%float) (fun _ => 0%float)
           (Sample.res_text (Some Sample.cloud2)) false 0%float
           (ParticleField.mkVec3 4 0 0) 5 0 Sample.cloud2 2);
    [reflexivity | reflexivity | reflexivity | lia].
Defined.

(** C6 as stated fails: for the two-point cloud and particle 5, no
    [Math.sin], [Math.cos] and no two elapsed times give different text
    targets, so the jitter is not a function of the elapsed time. *)
Lemma text_jitter_ignores_time :
  ~ exists (Math_sin Math_cos : float -> float) (Math_random : nat -> float)
      (holding : bool) (home : ParticleField.Vec3) (k : nat) (t1 t2 : float),
      ParticleField.particleTarget Math_sin Math_cos Math_random
        (Sample.res_text (Some Sample.cloud2)) holding t1 home 5 k
      <> ParticleField.particleTarget Math_sin Math_cos Math_random
           (Sample.res_text (Some Sample.cloud2)) holding t2 home 5 k.
Proof.
  intros (Math_sin & Math_cos & Math_random & holding & home & k & t1 & t2 & Hne).
  apply Hne. reflexivity.
Qed.

(** C9. When the mode is text mode but the active cloud is missing or empty,
    the target of every particle is the sphere-mode one; and in a frame whose
    (well-formed) hands trigger a phrase whose cloud is empty, the callback
    returns and every target is the home position, at the default diffusion,
    plus the ambient noise, with no cloud entry read. *)
Theorem missing_cloud_falls_back
    (Math_sin Math_cos : float -> float) (Math_random : nat -> float) :
  (forall res holding time home i k,
      ParticleField.interactionMode res = TEXT_MODE ->
      ParticleField.activeTextTarget res = None
      \/ ParticleField.activeTextTarget res = Some [] ->
      ParticleField.particleTarget Math_sin Math_cos Math_random res holding time home i k
      = ParticleField.sphereTarget Math_sin Math_cos Math_random home
          (ParticleField.diffusion res) time holding i k)
  /\ (forall textGeometries userColor viewport delta s hands res,
         Forall (fun hand => List.length hand = 21%nat) hands ->
         ParticleField.resolveObservation viewport textGeometries userColor delta
           (ParticleField.vy (ParticleField.rotation s)) hands = Ok res ->
         ParticleField.interactionMode res = TEXT_MODE ->
         ParticleField.activeTextTarget res = Some [] ->
         (exists s',
             ParticleField.useFrame Math_sin Math_cos Math_random textGeometries userColor
               (Some (mkHandResult hands)) viewport delta s = Ok s')
         /\ forall home i k,
             ParticleField.particleTarget Math_sin Math_cos Math_random res
               (ParticleField.isHolding res)
               (ParticleField.timeRef s + delta)%float home i k
             = (let time := ParticleField.timeRef s + delta in
                ParticleField.mkVec3
                  (ParticleField.vx home * 1.0
                   + Math_sin (time * 2 + float_of_nat i * 0.1) * 0.2)
                  (ParticleField.vy home * 1.0
                   + Math_cos (time * 2 + float_of_nat i * 0.1) * 0.2)
                  (ParticleField.vz home * 1.0 + 0),
                k)%float).
Proof.
  split; [intros; now apply particleTarget_no_cloud|].
  intros tg uc vp delta s hands res Hall Hres Hmode Hcloud. split.
  - destruct (useFrame_total Math_sin Math_cos Math_random tg uc vp delta s hands Hall)
      as (res' & _ & ->).
    cbv zeta. eauto.
  - intros home i k.
    rewrite particleTarget_no_cloud by auto.
    unfold ParticleField.resolveObservation in Hres.
    rewrite (worldHands_spec vp hands Hall) in Hres. cbn [bind] in Hres.
    destruct (resolve_text_defaults _ _ _ _ _ _ _ Hres Hmode) as (-> & _ & ->).
    reflexivity.
Qed.

Lemma missing_cloud_falls_back_witness :
  (exists s',
      ParticleField.useFrame (fun _ => 0%float) (fun _ => 1%float) (fun _ => 0%float)
        (ParticleField.mkTextGeometries [] [] [] []) ParticleField.cyan
        (Some (mkHandResult [Sample.hand_five; Sample.hand_five]))
        Sample.viewport0 0%float Sample.scene0 = Ok s')
  /\ forall home i k,
      ParticleField.particleTarget (fun _ => 0%float) (fun _ => 1%float) (fun _ => 0%float)
        (Sample.res_text (Some [])) (ParticleField.isHolding (Sample.res_text (Some [])))
        (ParticleField.timeRef Sample.scene0 + 0)%float home i k
      = (let time := ParticleField.timeRef Sample.scene0 + 0 in
         ParticleField.mkVec3
           (ParticleField.vx home * 1.0 + 0 * 0.2)
           (ParticleField.vy home * 1.0 + 1 * 0.2)
           (ParticleField.vz home * 1.0 + 0),
         k)%float.
Proof.
  apply (proj2 (missing_cloud_falls_back (fun _ => 0%float) (fun _ => 1%float)
                  (fun _ => 0%float))
           (ParticleField.mkTextGeometries [] [] [] []) ParticleField.cyan
           Sample.viewport0 0%float Sample.scene0
           [Sample.hand_five; Sample.hand_five] (Sample.res_text (Some []))).
  - repeat constructor.
  - vm_compute. reflexivity.
  - reflexivity.
  - reflexivity.
Defined.

(** A third hand, which the mode logic ignores, pushes a particle that the
    first two hands are too far to reach. *)
Example third_hand_pushes :
  forall Math_sin : float -> float,
  exists points2 points3 res,
    ParticleField.interactionPoints Sample.viewport0 [Sample.hand_at 0; Sample.hand_at 0]
    = Ok points2
    /\ ParticleField.interactionPoints Sample.viewport0
         [Sample.hand_at 0; Sample.hand_at 0; Sample.hand_at 0.5] = Ok points3
    /\ ParticleField.resolveObservation Sample.viewport0 Sample.clouds0 ParticleField.cyan
         0%float 0%float [Sample.hand_at 0; Sample.hand_at 0; Sample.hand_at 0.5] = Ok res
    /\ ParticleField.interactionMode res = IDLE
    /\ ParticleField.applyForces Math_sin IDLE false (ParticleField.mkVec3 0 0 0) 0%float
         points2 (ParticleField.mkVec3 1 2.8 0) (ParticleField.mkVec3 4 0 0)
       = ParticleField.mkVec3 4 0 0
    /\ (4 <? ParticleField.vx
               (ParticleField.applyForces Math_sin IDLE false (ParticleField.mkVec3 0 0 0)
                  0%float points3 (ParticleField.mkVec3 1 2.8 0)
                  (ParticleField.mkVec3 4 0 0)))%float = true.
Proof.
  intros Math_sin. do 3 eexists.
  split; [vm_compute; reflexivity|]. split; [vm_compute; reflexivity|].
  split; [vm_compute; reflexivity|]. split; [reflexivity|].
  split; vm_compute; reflexivity.
Qed.

(* ------------------------------------------------------------------ *)
(** ** Glyph point-cloud generator: the scan *)

Section ScanInvariant.
Import Spec.
Context {num : Type} `{Arith num}.
Variable Math_random : nat -> num.
Variables (data : list Z) (width height density : Z).
Variable Pt : num -> num -> num -> Prop.
Hypothesis Hdensity : (0 < density)%Z.
Hypothesis emit_Pt :
  forall x y k, (0 <= x < width)%Z -> (0 <= y < height)%Z ->
                Triples Pt (emit Math_random width height density x y k).

Lemma Triples_app {A : Type} (P : A -> A -> A -> Prop) (l1 l2 : list A) :
  Triples P l1 -> Triples P l2 -> Triples P (l1 ++ l2).
Proof. induction 1; intros; cbn; [assumption | constructor; auto]. Qed.

Lemma Triples_length {A : Type} (P : A -> A -> A -> Prop) (l : list A) :
  Triples P l -> exists n, List.length l = (3 * n)%nat.
Proof.
  induction 1 as [|a b c l _ _ [n IH]]; [now exists 0%nat|].
  exists (S n). cbn [List.length]. lia.
Qed.

(** The inner loop returns when the fuel exceeds the columns left, and keeps
    the buffer made of emitted points. *)
Lemma scanRow_emits (y : Z) (Hy : (0 <= y < height)%Z) (fuel : nat) :
  forall x k positions,
    (0 <= x)%Z -> (Z.max 0 (width - x) < Z.of_nat fuel)%Z ->
    Triples Pt positions ->
    exists positions' k',
      scanRow Math_random data width height density fuel y x k positions
      = Some (positions', k')
      /\ Triples Pt positions'.
Proof.
  induction fuel as [|fuel IH]; intros x k positions Hx Hf HT; [lia|].
  cbn [scanRow]. destruct (x <? width)%Z eqn:Ex.
  - apply Z.ltb_lt in Ex.
    destruct (bright data ((y * width + x) * 4)).
    + apply IH; [lia | lia |].
      apply Triples_app; [exact HT | apply emit_Pt; lia].
    + apply IH; [lia | lia | exact HT].
  - eauto.
Qed.

Lemma scanRows_emits (fuel : nat) :
  forall y k positions,
    (0 <= y)%Z -> (Z.max 0 (height - y) < Z.of_nat fuel)%Z ->
    Triples Pt positions ->
    exists positions' k',
      scanRows Math_random data width height density fuel y k positions
      = Some (positions', k')
      /\ Triples Pt positions'.
Proof.
  induction fuel as [|fuel IH]; intros y k positions Hy Hf HT; [lia|].
  cbn [scanRows]. destruct (y <? height)%Z eqn:Ey.
  - apply Z.ltb_lt in Ey.
    destruct (scanRow_emits y (conj Hy Ey) (S (Z.to_nat width)) 0 k positions)
      as (ps & k' & -> & HT'); [lia | lia | exact HT |].
    apply IH; [lia | lia | exact HT'].
  - eauto.
Qed.

End ScanInvariant.

(** On an image of positive size and with a positive density the generator
    returns, at every number instance, a buffer of whole triples. *)
Lemma generate_whole_triples {num : Type} `{Arith num}
    (renderText : string -> Z -> Z -> option (list Z)) (Math_random : nat -> num)
    (k : nat) (text : string) (width height density : Z) :
  (0 < width)%Z -> (0 < height)%Z -> (0 < density)%Z ->
  exists cloud k' n,
    generateTextParticlesFrom renderText Math_random k text width height density
    = Some (cloud, k')
    /\ List.length cloud = (3 * n)%nat.
Proof.
  intros _ _ Hd. unfold generateTextParticlesFrom.
  destruct (renderText text width height) as [data|].
  - destruct (scanRows_emits Math_random data width height density (fun _ _ _ => True) Hd)
      with (fuel := S (Z.to_nat height)) (y := 0%Z) (k := k) (positions := @nil num)
      as (ps & k' & -> & HT); [| lia | lia | constructor |].
    + intros x y k0 _ _. unfold emit. repeat constructor.
    + destruct (Triples_length _ _ HT) as [n Hn].
      exists (map store32 ps), k', n. split; [reflexivity|]. now rewrite length_map.
  - exists [], k, 0%nat. split; reflexivity.
Qed.

(** With [density = 0] the inner loop never leaves a column inside the
    image: no amount of fuel lets it return. *)
Lemma scanRow_density_zero {num : Type} `{Arith num} (Math_random : nat -> num)
    (data : list Z) (width height : Z) (fuel : nat) :
  forall y x k positions,
    (x < width)%Z ->
    scanRow Math_random data width height 0 fuel y x k positions = None.
Proof.
  induction fuel as [|fuel IH]; intros y x k positions Hx; [reflexivity|].
  cbn [scanRow]. rewrite (proj2 (Z.ltb_lt x width) Hx), Z.add_0_r.
  destruct (bright data ((y * width + x) * 4)); now apply IH.
Qed.

(** The four cached clouds exist and hold whole triples, whatever the canvas
    draws: [activeTextTarget.length / 3] is an integer. *)
Lemma textGeometries_whole_triples
    (renderText : string -> Z -> Z -> option (list Z)) (Math_random : nat -> float) :
  exists tg,
    ParticleField.textGeometries renderText Math_random = Some tg
    /\ Forall (fun cloud => exists n, List.length cloud = (3 * n)%nat)
         [ParticleField.HELLO tg; ParticleField.YUFU tg;
          ParticleField.WITHME tg; ParticleField.PHOTO tg].
Proof.
  unfold ParticleField.textGeometries.
  destruct (generate_whole_triples renderText Math_random 0 "大家好" 1024 512 6)
    as (c1 & k1 & n1 & -> & H1); [lia | lia | lia |].
  destruct (generate_whole_triples renderText Math_random k1 "我是玉福" 1024 512 6)
    as (c2 & k2 & n2 & -> & H2); [lia | lia | lia |].
  destruct (generate_whole_triples renderText Math_random k2 "和我一起" 1024 512 6)
    as (c3 & k3 & n3 & -> & H3); [lia | lia | lia |].
  destruct (generate_whole_triples renderText Math_random k3 "走进摄影世界" 1024 512 6)
    as (c4 & k4 & n4 & -> & H4); [lia | lia | lia |].
  eexists. split; [reflexivity|].
  cbn [ParticleField.HELLO ParticleField.YUFU ParticleField.WITHME ParticleField.PHOTO].
  repeat (apply Forall_cons; [eauto|]). apply Forall_nil.
Qed.

(* ------------------------------------------------------------------ *)
(** ** Glyph point-cloud generator: points outside the box *)

(** Stored in the [Float32Array], the depth [(0 - 0.5) * 0.2] of a random
    number 0 is rounded to binary32 and ends below [-0.1]. *)
Example stored_depth_rounds_outside :
  exists nX nY nZ rest,
    generateTextParticles Sample.whiteCanvas (fun _ => 0%float) "A" 12 6 6
    = Some (nX :: nY :: nZ :: rest)
    /\ (nZ <? -0.1)%float = true.
Proof. do 4 eexists. split; vm_compute; reflexivity. Qed.

(** C7 as stated fails: on a 12 x 6 image covered by the glyph, with density
    6 and every random number equal to 0.25, the first emitted point has
    [X = -10.75 < -10] and [Y = 5.75 > 10 * (6 / 12)]. *)
Lemma generated_point_outside_box :
  exists nX nY nZ rest,
    generateTextParticles Sample.whiteCanvas (fun _ => 0.25%float) "A" 12 6 6
    = Some (nX :: nY :: nZ :: rest)
    /\ (nX <? -10)%float = true
    /\ (10 * (6 / 12) <? nY)%float = true.
Proof.
  do 4 eexists. split; [vm_compute; reflexivity|]. split; vm_compute; reflexivity.
Qed.

(* ------------------------------------------------------------------ *)
(** * Further properties *)

(** ** Gesture classifier: what it reads and when it throws *)

Section GestureFacts.
Import Gesture Spec.

Lemma detectGesture_spec_ge (hand : list HandLandmark) :
  (21 <= List.length hand)%nat ->
  detectGesture hand = Ok (label_string (classify hand)).
Proof.
  intros Hlen. unfold detectGesture.
  destruct hand as [|l0 rest] eqn:E; [cbn in Hlen; lia|].
  rewrite <- E in *. clear E l0 rest.
  rewrite !isFingerExtended_extended by lia.
  unfold classify. cbn [bind].
  destruct (extended hand 4 2), (extended hand 8 6), (extended hand 12 10),
    (extended hand 16 14), (extended hand 20 18); reflexivity.
Qed.

(** [isFingerExtended] reads the hand through three of its entries only. *)
Lemma isFingerExtended_reads (h1 h2 : list HandLandmark) (tip pivot : nat) :
  at_ h1 0 = at_ h2 0 -> at_ h1 tip = at_ h2 tip -> at_ h1 pivot = at_ h2 pivot ->
  isFingerExtended h1 tip pivot = isFingerExtended h2 tip pivot.
Proof. intros H0 Ht Hp. unfold isFingerExtended. now rewrite H0, Ht, Hp. Qed.

Lemma detectGesture_reads (h1 h2 : list HandLandmark) :
  (forall i, In i [0; 2; 4; 6; 8; 10; 12; 14; 16; 18; 20]%nat -> at_ h1 i = at_ h2 i) ->
  detectGesture h1 = detectGesture h2.
Proof.
  intros Hsame.
  assert (H0 : at_ h1 0 = at_ h2 0) by (apply Hsame; cbn; tauto).
  unfold detectGesture.
  rewrite (isFingerExtended_reads h1 h2 4 2), (isFingerExtended_reads h1 h2 8 6),
    (isFingerExtended_reads h1 h2 12 10), (isFingerExtended_reads h1 h2 16 14),
    (isFingerExtended_reads h1 h2 20 18)
    by (try exact H0; apply Hsame; cbn; tauto).
  destruct h1 as [|a1 r1], h2 as [|a2 r2]; try reflexivity; discriminate H0.
Qed.

Lemma at_firstn {A : Type} (l : list A) (n i : nat) :
  (i < n)%nat -> at_ (firstn n l) i = at_ l i.
Proof.
  intros Hi. unfold at_. rewrite nth_error_firstn.
  apply Nat.ltb_lt in Hi. now rewrite Hi.
Qed.

End GestureFacts.

(** X1. On a hand of at least 21 landmarks the five rules exclude one
    another, so each label is decided by the extension flags alone: ['5'] iff
    all five fingers are extended, ['1'] iff the index is and the middle, ring
    and pinky are not (whatever the thumb), ['2'] iff index and middle are and
    ring and pinky are not, ['fist'] iff the index is retracted and at most
    one other finger is extended, and ['unknown'] in the remaining cases. *)
Theorem gesture_labels_characterised (hand : list HandLandmark) :
  (21 <= List.length hand)%nat ->
  exists thumb index middle ring pinky,
    Gesture.isFingerExtended hand 4 2 = Ok thumb
    /\ Gesture.isFingerExtended hand 8 6 = Ok index
    /\ Gesture.isFingerExtended hand 12 10 = Ok middle
    /\ Gesture.isFingerExtended hand 16 14 = Ok ring
    /\ Gesture.isFingerExtended hand 20 18 = Ok pinky
    /\ (Gesture.detectGesture hand = Ok "5"%string
        <-> thumb && index && middle && ring && pinky = true)
    /\ (Gesture.detectGesture hand = Ok "1"%string
        <-> index && negb middle && negb ring && negb pinky = true)
    /\ (Gesture.detectGesture hand = Ok "2"%string
        <-> index && middle && negb ring && negb pinky = true)
    /\ (Gesture.detectGesture hand = Ok "fist"%string
        <-> negb index = true
            /\ (Gesture.countTrue [thumb; middle; ring; pinky] <= 1)%nat)
    /\ (Gesture.detectGesture hand = Ok "unknown"%string
        <-> (index = true /\ ring || pinky = true /\ thumb && middle && ring && pinky = false)
            \/ (index = false
                /\ (2 <= Gesture.countTrue [thumb; middle; ring; pinky])%nat)).
Proof.
  intros Hlen.
  exists (Spec.extended hand 4 2), (Spec.extended hand 8 6), (Spec.extended hand 12 10),
    (Spec.extended hand 16 14), (Spec.extended hand 20 18).
  rewrite !isFingerExtended_extended by lia.
  rewrite (detectGesture_spec_ge hand Hlen). unfold Spec.classify.
  destruct (Spec.extended hand 4 2), (Spec.extended hand 8 6), (Spec.extended hand 12 10),
    (Spec.extended hand 16 14), (Spec.extended hand 20 18);
    cbn; repeat split; try reflexivity; intros;
    repeat match goal with
           | H : _ /\ _ |- _ => destruct H
           | H : _ \/ _ |- _ => destruct H
           end;
    try discriminate; try lia; try tauto;
    try (left; repeat split; reflexivity); try (right; split; [reflexivity|lia]).
Qed.

Lemma gesture_labels_characterised_witness :
  exists thumb index middle ring pinky,
    Gesture.isFingerExtended Sample.hand_one 4 2 = Ok thumb
    /\ Gesture.isFingerExtended Sample.hand_one 8 6 = Ok index
    /\ Gesture.isFingerExtended Sample.hand_one 12 10 = Ok middle
    /\ Gesture.isFingerExtended Sample.hand_one 16 14 = Ok ring
    /\ Gesture.isFingerExtended Sample.hand_one 20 18 = Ok pinky
    /\ (Gesture.detectGesture Sample.hand_one = Ok "5"%string
        <-> thumb && index && middle && ring && pinky = true)
    /\ (Gesture.detectGesture Sample.hand_one = Ok "1"%string
        <-> index && negb middle && negb ring && negb pinky = true)
    /\ (Gesture.detectGesture Sample.hand_one = Ok "2"%string
        <-> index && middle && negb ring && negb pinky = true)
    /\ (Gesture.detectGesture Sample.hand_one = Ok "fist"%string
        <-> negb index = true
            /\ (Gesture.countTrue [thumb; middle; ring; pinky] <= 1)%nat)
    /\ (Gesture.detectGesture Sample.hand_one = Ok "unknown"%string
        <-> (index = true /\ ring || pinky = true /\ thumb && middle && ring && pinky = false)
            \/ (index = false
                /\ (2 <= Gesture.countTrue [thumb; middle; ring; pinky])%nat)).
Proof. apply gesture_labels_characterised. cbn. lia. Defined.

(** X2. [detectGesture] reads the landmarks 0, 2, 4, ..., 20 and nothing
    else: two hands that agree on these eleven entries (present or absent)
    get the same answer, label or exception. *)
Theorem detectGesture_reads_eleven_landmarks (h1 h2 : list HandLandmark) :
  (forall i, In i [0; 2; 4; 6; 8; 10; 12; 14; 16; 18; 20]%nat -> at_ h1 i = at_ h2 i) ->
  Gesture.detectGesture h1 = Gesture.detectGesture h2.
Proof.
  intros Hsame.
  assert (H0 : at_ h1 0 = at_ h2 0) by (apply Hsame; cbn; tauto).
  unfold Gesture.detectGesture.
  rewrite (isFingerExtended_reads h1 h2 4 2), (isFingerExtended_reads h1 h2 8 6),
    (isFingerExtended_reads h1 h2 12 10), (isFingerExtended_reads h1 h2 16 14),
    (isFingerExtended_reads h1 h2 20 18)
    by (try exact H0; apply Hsame; cbn; tauto).
  destruct h1 as [|a1 r1], h2 as [|a2 r2]; try reflexivity; discriminate H0.
Qed.

Lemma detectGesture_reads_eleven_landmarks_witness :
  (forall i, In i [1; 3; 5; 7; 9; 11; 13; 15; 17; 19]%nat ->
             at_ Sample.hand_five i <> at_ Sample.hand_five_odd_moved i)
  /\ Gesture.detectGesture Sample.hand_five
     = Gesture.detectGesture Sample.hand_five_odd_moved.
Proof.
  split.
  - intros i Hi E. cbn in Hi.
    assert (Hx : match at_ Sample.hand_five i with
                 | Some l => (x l <? 0.375)%float
                 | None => true
                 end
                 = match at_ Sample.hand_five_odd_moved i with
                   | Some l => (x l <? 0.375)%float
                   | None => true
                   end)
      by (rewrite E; reflexivity).
    repeat (destruct Hi as [<-|Hi]; [vm_compute in Hx; discriminate Hx | ]). contradiction.
  - apply detectGesture_reads_eleven_landmarks.
    intros i Hi. cbn in Hi.
    repeat (destruct Hi as [<-|Hi]; [reflexivity|]). contradiction.
Defined.

(** X3. [detectGesture] throws exactly on the hands of 1 to 20 landmarks: the
    empty hand and every hand of 21 landmarks or more get a label. *)
Theorem detectGesture_throws_iff (hand : list HandLandmark) :
  Gesture.detectGesture hand = TypeError <-> (0 < List.length hand < 21)%nat.
Proof.
  split.
  - intros Hthrow.
    destruct hand as [|l0 rest] eqn:E; [discriminate Hthrow|].
    rewrite <- E in *.
    assert (Hpos : (0 < List.length hand)%nat) by (rewrite E; cbn; lia).
    destruct (Nat.lt_ge_cases (List.length hand) 21) as [Hlt|Hge]; [lia|].
    rewrite (detectGesture_spec_ge hand Hge) in Hthrow. discriminate Hthrow.
  - apply detectGesture_short.
Qed.

(** X4. Landmarks after the 21st are ignored: a longer hand is classified as
    its first 21 landmarks are. *)
Theorem detectGesture_ignores_extra_landmarks (hand : list HandLandmark) :
  (21 <= List.length hand)%nat ->
  Gesture.detectGesture hand = Gesture.detectGesture (firstn 21 hand).
Proof.
  intros Hlen. symmetry. apply detectGesture_reads.
  intros i Hi. apply at_firstn. cbn in Hi.
  repeat (destruct Hi as [<-|Hi]; [lia|]). contradiction.
Qed.

Lemma detectGesture_ignores_extra_landmarks_witness :
  Gesture.detectGesture (Sample.hand_two ++ Sample.hand_five)
  = Gesture.detectGesture (firstn 21 (Sample.hand_two ++ Sample.hand_five)).
Proof. apply detectGesture_ignores_extra_landmarks. cbn. lia. Defined.

(* ------------------------------------------------------------------ *)
(** ** Mode resolver: every hand count *)

Section ResolverFacts.
Import Gesture Spec ParticleField.
Variables (viewport : Viewport) (textGeometries : TextGeometries).
Variables (userColor : Color) (delta rotY : float).

Lemma worldHand_spec_ge (hand : list HandLandmark) :
  (21 <= List.length hand)%nat ->
  worldHand viewport hand = Ok (worldHandOf viewport hand).
Proof.
  intros Hlen. unfold worldHand.
  rewrite !prop_joint by lia. rewrite (detectGesture_spec_ge hand Hlen).
  reflexivity.
Qed.

Lemma worldHands_spec_ge (hands : list (list HandLandmark)) :
  Forall (fun hand => (21 <= List.length hand)%nat) hands ->
  worldHands viewport hands = Ok (map (worldHandOf viewport) hands).
Proof.
  intros Hall. apply mapM_Ok.
  eapply Forall_impl; [|exact Hall]. intros hand. apply worldHand_spec_ge.
Qed.

Lemma worldHands_short (hands : list (list HandLandmark)) :
  Exists (fun hand => (List.length hand < 21)%nat) hands ->
  worldHands viewport hands = TypeError.
Proof.
  intros Hex. apply Exists_exists in Hex. destruct Hex as (hand & Hin & Hlt).
  apply (mapM_TypeError _ hand hands Hin). now apply worldHand_short.
Qed.

Lemma interactionPoints_spec_ge (hands : list (list HandLandmark)) :
  Forall (fun hand => (21 <= List.length hand)%nat) hands ->
  interactionPoints viewport hands
  = Ok (flat_map (fun hand => map (pointOf viewport hand) indices) hands).
Proof.
  intros Hall. unfold interactionPoints.
  rewrite (mapM_Ok _ (fun hand => map (pointOf viewport hand) indices)).
  - cbn [bind]. now rewrite flat_map_concat_map.
  - eapply Forall_impl; [|exact Hall]. intros hand Hlen. cbv beta in Hlen.
    unfold handPoints. apply mapM_Ok. unfold indices.
    repeat (apply Forall_cons; [rewrite !prop_joint by lia; reflexivity|]).
    apply Forall_nil.
Qed.

(** A hand is short or not. *)
Lemma hands_short_or_not (hands : list (list HandLandmark)) :
  Exists (fun hand => (List.length hand < 21)%nat) hands
  \/ Forall (fun hand => (21 <= List.length hand)%nat) hands.
Proof.
  induction hands as [|hand rest [IH|IH]].
  - right. constructor.
  - left. now apply Exists_cons_tl.
  - destruct (Nat.lt_ge_cases (List.length hand) 21) as [Hlt|Hge].
    + left. now apply Exists_cons_hd.
    + right. now constructor.
Qed.

(** The one-hand branch on a hand of at least 21 landmarks. *)
Lemma resolveOne_spec (hand : list HandLandmark) :
  (21 <= List.length hand)%nat ->
  resolveOne textGeometries userColor delta rotY [hand] [worldHandOf viewport hand]
  = if String.eqb (label_string (classify hand)) "5"
    then Ok (mkResolved (Some (HELLO textGeometries)) userColor TEXT_MODE 0.2 1.0 rotY)
    else
      let rawX := ((x (joint hand 0) + x (joint hand 5) + x (joint hand 17)) / 3)%float in
      let rotY1 :=
        (if rawX <? 0.2 then rotY + 2 * delta
         else if 0.8 <? rawX then rotY - 2 * delta
         else rotY + 0.1 * delta)%float in
      let palmSize :=
        JsMath.sqrt (JsMath.pow2 (x (joint hand 0) - x (joint hand 5))
                     + JsMath.pow2 (y (joint hand 0) - y (joint hand 5)))%float in
      let spread :=
        JsMath.sqrt (JsMath.pow2 (x (joint hand 4) - x (joint hand 20))
                     + JsMath.pow2 (y (joint hand 4) - y (joint hand 20)))%float in
      let normalizedOpen :=
        JsMath.min (JsMath.max ((spread / palmSize - 1.0) / 2.0)%float 0%float) 1%float in
      Ok (mkResolved None userColor INTERACTIVE
                     (0.2 + normalizedOpen * 2.0)%float
                     (1.0 + normalizedOpen * 3.0)%float
                     (rotY1 + (0.2 + normalizedOpen * 2.0) * delta)%float).
Proof.
  intros Hlen. unfold resolveOne.
  change (at_ [hand] 0) with (Some hand). unfold coord.
  rewrite !prop_joint by lia.
  cbn [at_ nth_error prop bind worldHandOf gesture rawX].
  destruct (String.eqb _ "5"); reflexivity.
Qed.

(** What [resolve] can return, by hand count. *)
Lemma resolve_cases (hands : list (list HandLandmark)) (wh : list WorldHand)
    (res : Resolved) :
  resolve textGeometries userColor delta rotY hands wh = Ok res ->
  ((List.length hands = 0)%nat /\ res = mkResolved None cyan IDLE 0.2 1.0 rotY)
  \/ ((2 < List.length hands)%nat /\ res = mkResolved None userColor IDLE 0.2 1.0 rotY)
  \/ ((List.length hands = 1)%nat
      /\ res = mkResolved (Some (HELLO textGeometries)) userColor TEXT_MODE 0.2 1.0 rotY)
  \/ ((List.length hands = 1)%nat
      /\ interactionMode res = INTERACTIVE /\ activeTextTarget res = None
      /\ targetColor res = userColor)
  \/ ((List.length hands = 2)%nat
      /\ exists cloud,
          In cloud [YUFU textGeometries; WITHME textGeometries; PHOTO textGeometries]
          /\ res = mkResolved (Some cloud) userColor TEXT_MODE 0.2 1.0 rotY)
  \/ ((List.length hands = 2)%nat
      /\ exists color,
          In color [white; red; cyan]
          /\ res = mkResolved None color INTERACTIVE 0.2 1.0 rotY).
Proof.
  unfold resolve.
  destruct (0 <? List.length hands)%nat eqn:E0.
  2:{ apply Nat.ltb_ge in E0. intros [= <-]. left. split; [lia|reflexivity]. }
  apply Nat.ltb_lt in E0.
  destruct (List.length hands =? 1)%nat eqn:E1.
  - apply Nat.eqb_eq in E1. unfold resolveOne.
    destruct (prop (at_ wh 0) gesture) as [gst|]; [cbn [bind]|discriminate].
    destruct (String.eqb gst "5").
    + intros [= <-]. right; right; left. auto.
    + repeat match goal with
             | |- bind ?r _ = _ -> _ => destruct r; [cbn [bind]|discriminate]
             end.
      intros [= <-]. right; right; right; left. auto.
  - apply Nat.eqb_neq in E1.
    destruct (List.length hands =? 2)%nat eqn:E2.
    + apply Nat.eqb_eq in E2. unfold resolveTwo.
      destruct (prop (at_ wh 0) gesture) as [g1|]; [cbn [bind]|discriminate].
      destruct (prop (at_ wh 1) gesture) as [g2|]; [cbn [bind]|discriminate].
      destruct (_ && _)%bool.
      { intros [= <-]. do 4 right; left. split; [assumption|].
        eexists; split; [|reflexivity]. cbn; auto. }
      destruct (_ && _)%bool.
      { intros [= <-]. do 4 right; left. split; [assumption|].
        eexists; split; [|reflexivity]. cbn; auto. }
      destruct (_ && _)%bool.
      { intros [= <-]. do 4 right; left. split; [assumption|].
        eexists; split; [|reflexivity]. cbn; auto. }
      repeat match goal with
             | |- bind ?r _ = _ -> _ => destruct r; [cbn [bind]|discriminate]
             end.
      intros [= <-]. do 5 right. split; [assumption|].
      eexists; split; [|reflexivity].
      destruct (_ <? 3.5)%float; [cbn; auto|].
      destruct (_ <? 8)%float; cbn; auto.
    + apply Nat.eqb_neq in E2. intros [= <-]. right; left. split; [lia|reflexivity].
Qed.

Lemma resolve_total_ge (hands : list (list HandLandmark)) :
  Forall (fun hand => (21 <= List.length hand)%nat) hands ->
  exists res,
    resolve textGeometries userColor delta rotY hands (map (worldHandOf viewport) hands)
    = Ok res.
Proof.
  intros Hall. unfold resolve.
  destruct hands as [|h1 [|h2 [|h3 rest]]]; cbn [List.length Nat.ltb Nat.leb Nat.eqb map].
  - eauto.
  - inversion Hall as [|? ? H1 _]; subst.
    rewrite (resolveOne_spec h1 H1). destruct (String.eqb _ "5"); eauto.
  - unfold resolveTwo. cbn [at_ nth_error prop bind].
    repeat match goal with
           | |- exists _, (if ?c then _ else _) = _ => destruct c; [eauto|]
           end.
    eauto.
  - eauto.
Qed.

End ResolverFacts.

Lemma resolveObservation_cases
    (viewport : ParticleField.Viewport) (textGeometries : ParticleField.TextGeometries)
    (userColor : ParticleField.Color) (delta rotY : float)
    (hands : list (list HandLandmark)) (res : ParticleField.Resolved) :
  ParticleField.resolveObservation viewport textGeometries userColor delta rotY hands
  = Ok res ->
  exists wh,
    ParticleField.worldHands viewport hands = Ok wh
    /\ ParticleField.resolve textGeometries userColor delta rotY hands wh = Ok res.
Proof.
  unfold ParticleField.resolveObservation.
  destruct (ParticleField.worldHands viewport hands) as [wh|]; [|discriminate].
  cbn [bind]. eauto.
Qed.

Lemma useFrame_unfold_ge
    (Math_sin Math_cos : float -> float) (Math_random : nat -> float)
    (textGeometries : ParticleField.TextGeometries) (userColor : ParticleField.Color)
    (viewport : ParticleField.Viewport) (delta : float) (s : ParticleField.Scene)
    (hands : list (list HandLandmark)) :
  Forall (fun hand => (21 <= List.length hand)%nat) hands ->
  exists res,
    ParticleField.resolveObservation viewport textGeometries userColor delta
      (ParticleField.vy (ParticleField.rotation s)) hands = Ok res
    /\ ParticleField.useFrame Math_sin Math_cos Math_random textGeometries userColor
         (Some (mkHandResult hands)) viewport delta s
       = let points :=
           flat_map (fun hand => map (Spec.pointOf viewport hand) ParticleField.indices)
                    hands in
         let holding := ParticleField.isHolding res in
         let color :=
           ParticleField.Color_lerp (ParticleField.currentColor s)
             (ParticleField.targetColor res) 0.1 in
         let shade :=
           ParticleField.mkVec3 (fround (ParticleField.r color))
             (fround (ParticleField.g color)) (fround (ParticleField.b color)) in
         let moved :=
           ParticleField.updateParticles Math_sin Math_cos Math_random res holding
             (ParticleField.handCenter (List.length hands)
                (map (Spec.worldHandOf viewport) hands))
             (ParticleField.timeRef s + delta)%float points 0
             (ParticleField.positions s) (ParticleField.target s)
             (ParticleField.randomCalls s) in
         Ok (ParticleField.mkScene (ParticleField.timeRef s + delta)%float
               (ParticleField.settleRotation res delta (ParticleField.rotation s)) color
               (fst moved) (map (fun _ => shade) (fst moved)) (ParticleField.target s)
               (snd moved)).
Proof.
  intros Hall.
  destruct (resolve_total_ge viewport textGeometries userColor delta
              (ParticleField.vy (ParticleField.rotation s)) hands Hall) as [res Hres].
  exists res. unfold ParticleField.resolveObservation, ParticleField.useFrame.
  cbn [landmarks].
  rewrite (worldHands_spec_ge viewport hands Hall),
    (interactionPoints_spec_ge viewport hands Hall).
  cbn [bind]. rewrite Hres. cbn [bind]. split; [reflexivity|].
  cbv zeta. destruct (ParticleField.updateParticles _ _ _ _ _ _ _ _ _ _ _ _) as [moved k].
  reflexivity.
Qed.

(** X5. A frame is abandoned by an exception exactly when some hand of the
    observation has fewer than 21 landmarks (the empty hand included); with
    every hand of 21 landmarks or more the callback returns. *)
Theorem frame_abandoned_iff
    (Math_sin Math_cos : float -> float) (Math_random : nat -> float)
    (textGeometries : ParticleField.TextGeometries) (userColor : ParticleField.Color)
    (viewport : ParticleField.Viewport) (delta : float) (s : ParticleField.Scene)
    (hands : list (list HandLandmark)) :
  ParticleField.useFrame Math_sin Math_cos Math_random textGeometries userColor
    (Some (mkHandResult hands)) viewport delta s = TypeError
  <-> Exists (fun hand => (List.length hand < 21)%nat) hands.
Proof.
  split.
  - intros Hthrow. destruct (hands_short_or_not hands) as [Hex|Hall]; [exact Hex|].
    destruct (useFrame_unfold_ge Math_sin Math_cos Math_random textGeometries userColor
                viewport delta s hands Hall) as (res & _ & Hframe).
    rewrite Hframe in Hthrow. discriminate Hthrow.
  - intros Hex. unfold ParticleField.useFrame. cbn [landmarks].
    now rewrite (worldHands_short viewport hands Hex).
Qed.

(** X6. One hand of at least 21 landmarks: if it is classified ['5'] the
    resolver enters text mode on the HELLO cloud and leaves the rotation
    alone; otherwise it enters interactive mode with no cloud and the user's
    colour, and adds to [rotation.y] both the edge spin ([+2 * delta] when
    the mean x of landmarks 0, 5 and 17 is below 0.2, [-2 * delta] above 0.8,
    [+0.1 * delta] in between) and the openness spin
    [rotationSpeed * delta], in the same frame. *)
Theorem one_hand_logic
    (viewport : ParticleField.Viewport) (textGeometries : ParticleField.TextGeometries)
    (userColor : ParticleField.Color) (delta rotY : float) (hand : list HandLandmark) :
  (21 <= List.length hand)%nat ->
  exists label res,
    Gesture.detectGesture hand = Ok label
    /\ ParticleField.resolveObservation viewport textGeometries userColor delta rotY [hand]
       = Ok res
    /\ (label = "5"%string ->
        res = ParticleField.mkResolved (Some (ParticleField.HELLO textGeometries))
                userColor TEXT_MODE 0.2 1.0 rotY)
    /\ (label <> "5"%string ->
        ParticleField.interactionMode res = INTERACTIVE
        /\ ParticleField.activeTextTarget res = None
        /\ ParticleField.targetColor res = userColor
        /\ ParticleField.rotationY res
           = (let rawX :=
                (x (Spec.joint hand 0) + x (Spec.joint hand 5) + x (Spec.joint hand 17)) / 3 in
              (if rawX <? 0.2 then rotY + 2 * delta
               else if 0.8 <? rawX then rotY - 2 * delta
               else rotY + 0.1 * delta)
              + ParticleField.rotationSpeed res * delta)%float).
Proof.
  intros Hlen. exists (Spec.label_string (Spec.classify hand)).
  unfold ParticleField.resolveObservation.
  rewrite (worldHands_spec_ge viewport [hand]) by (repeat constructor; assumption).
  cbn [bind map]. unfold ParticleField.resolve.
  cbn [List.length Nat.ltb Nat.leb Nat.eqb].
  rewrite (resolveOne_spec viewport textGeometries userColor delta rotY hand Hlen).
  rewrite (detectGesture_spec_ge hand Hlen).
  destruct (String.eqb (Spec.label_string (Spec.classify hand)) "5") eqn:E.
  - eexists. split; [reflexivity|]. split; [reflexivity|].
    split; [reflexivity|]. intros Hne. apply String.eqb_eq in E. contradiction.
  - eexists. split; [reflexivity|]. split; [reflexivity|]. split.
    + intros Heq. apply String.eqb_neq in E. contradiction.
    + intros _. cbv zeta. repeat split; reflexivity.
Qed.

Lemma one_hand_logic_witness :
  exists label res,
    Gesture.detectGesture Sample.hand_fist = Ok label
    /\ ParticleField.resolveObservation Sample.viewport0 Sample.clouds0 ParticleField.red
         0.016%float 0%float [Sample.hand_fist] = Ok res
    /\ (label = "5"%string ->
        res = ParticleField.mkResolved (Some (ParticleField.HELLO Sample.clouds0))
                ParticleField.red TEXT_MODE 0.2 1.0 0)
    /\ (label <> "5"%string ->
        ParticleField.interactionMode res = INTERACTIVE
        /\ ParticleField.activeTextTarget res = None
        /\ ParticleField.targetColor res = ParticleField.red
        /\ ParticleField.rotationY res
           = (let rawX :=
                (x (Spec.joint Sample.hand_fist 0) + x (Spec.joint Sample.hand_fist 5)
                 + x (Spec.joint Sample.hand_fist 17)) / 3 in
              (if rawX <? 0.2 then 0 + 2 * 0.016
               else if 0.8 <? rawX then 0 - 2 * 0.016
               else 0 + 0.1 * 0.016)
              + ParticleField.rotationSpeed res * 0.016)%float).
Proof. apply one_hand_logic. cbn. lia. Defined.

(** X7. Whenever the resolver returns: the mode is Idle exactly for zero or
    more than two hands; a glyph cloud is active exactly in text mode; one
    hand can only activate the HELLO cloud and two hands only the YUFU,
    WITHME or PHOTO cloud. *)
Theorem mode_follows_hand_count
    (viewport : ParticleField.Viewport) (textGeometries : ParticleField.TextGeometries)
    (userColor : ParticleField.Color) (delta rotY : float)
    (hands : list (list HandLandmark)) (res : ParticleField.Resolved) :
  ParticleField.resolveObservation viewport textGeometries userColor delta rotY hands
  = Ok res ->
  (ParticleField.interactionMode res = IDLE
   <-> (List.length hands = 0 \/ 2 < List.length hands)%nat)
  /\ (ParticleField.interactionMode res = TEXT_MODE
      <-> ParticleField.activeTextTarget res <> None)
  /\ (forall cloud,
         ParticleField.activeTextTarget res = Some cloud ->
         ((List.length hands = 1)%nat /\ cloud = ParticleField.HELLO textGeometries)
         \/ ((List.length hands = 2)%nat
             /\ In cloud [ParticleField.YUFU textGeometries;
                          ParticleField.WITHME textGeometries;
                          ParticleField.PHOTO textGeometries])).
Proof.
  intros Hres. destruct (resolveObservation_cases _ _ _ _ _ _ _ Hres) as (wh & _ & Hr).
  destruct (resolve_cases _ _ _ _ _ _ _ Hr)
    as [[Hn ->]|[[Hn ->]|[[Hn ->]|[(Hn & Hm & Hc & _)|[(Hn & cloud & Hin & ->)
       |(Hn & color & Hin & ->)]]]]];
    cbn [ParticleField.interactionMode ParticleField.activeTextTarget].
  - repeat split; intros; try discriminate; try congruence; auto.
  - repeat split; intros; try discriminate; try congruence; auto.
  - repeat split; intros; try discriminate; try congruence; try lia.
    left. split; [assumption|congruence].
  - rewrite Hm, Hc. repeat split; intros; try discriminate; try congruence; try lia.
  - repeat split; intros; try discriminate; try congruence; try lia.
    right. split; [assumption|congruence].
  - repeat split; intros; try discriminate; try congruence; try lia.
Qed.

Lemma mode_follows_hand_count_witness :
  (ParticleField.interactionMode
     (ParticleField.mkResolved (Some [4; 4; 4]%float) ParticleField.red TEXT_MODE
        0.2 1 0) = IDLE
   <-> (List.length [Sample.hand_five; Sample.hand_five] = 0
        \/ 2 < List.length [Sample.hand_five; Sample.hand_five])%nat)
  /\ (ParticleField.interactionMode
        (ParticleField.mkResolved (Some [4; 4; 4]%float) ParticleField.red TEXT_MODE
           0.2 1 0) = TEXT_MODE
      <-> ParticleField.activeTextTarget
            (ParticleField.mkResolved (Some [4; 4; 4]%float) ParticleField.red TEXT_MODE
               0.2 1 0) <> None)
  /\ (forall cloud,
         ParticleField.activeTextTarget
           (ParticleField.mkResolved (Some [4; 4; 4]%float) ParticleField.red TEXT_MODE
              0.2 1 0) = Some cloud ->
         ((List.length [Sample.hand_five; Sample.hand_five] = 1)%nat
          /\ cloud = ParticleField.HELLO Sample.clouds0)
         \/ ((List.length [Sample.hand_five; Sample.hand_five] = 2)%nat
             /\ In cloud [ParticleField.YUFU Sample.clouds0;
                          ParticleField.WITHME Sample.clouds0;
                          ParticleField.PHOTO Sample.clouds0])).
Proof.
  apply (mode_follows_hand_count Sample.viewport0 Sample.clouds0 ParticleField.red
           0%float 0%float [Sample.hand_five; Sample.hand_five]).
  vm_compute. reflexivity.
Defined.

(** X8. Two hands, whenever the resolver returns: in text mode the colour
    target is the user's colour and the holding state is off; in interactive
    mode the target is white, red or cyan, never read from the user's
    colour, and the holding state is on exactly when it is white. *)
Theorem two_hands_colour
    (viewport : ParticleField.Viewport) (textGeometries : ParticleField.TextGeometries)
    (userColor : ParticleField.Color) (delta rotY : float)
    (h1 h2 : list HandLandmark) (res : ParticleField.Resolved) :
  ParticleField.resolveObservation viewport textGeometries userColor delta rotY [h1; h2]
  = Ok res ->
  (ParticleField.interactionMode res = TEXT_MODE
   /\ ParticleField.targetColor res = userColor
   /\ ParticleField.isHolding res = false)
  \/ (ParticleField.interactionMode res = INTERACTIVE
      /\ ((ParticleField.targetColor res = ParticleField.white
           /\ ParticleField.isHolding res = true)
          \/ (ParticleField.targetColor res = ParticleField.red
              /\ ParticleField.isHolding res = false)
          \/ (ParticleField.targetColor res = ParticleField.cyan
              /\ ParticleField.isHolding res = false))).
Proof.
  intros Hres. destruct (resolveObservation_cases _ _ _ _ _ _ _ Hres) as (wh & _ & Hr).
  destruct (resolve_cases _ _ _ _ _ _ _ Hr)
    as [[Hn _]|[[Hn _]|[[Hn _]|[(Hn & _)|[(_ & cloud & _ & ->)
       |(_ & color & Hin & ->)]]]]];
    try (cbn in Hn; lia).
  - left. repeat split.
  - right. split; [reflexivity|].
    cbn in Hin. destruct Hin as [<-|[<-|[<-|[]]]]; auto.
Qed.

Lemma two_hands_colour_witness :
  (ParticleField.interactionMode
     (ParticleField.mkResolved None ParticleField.white INTERACTIVE 0.2 1 0) = TEXT_MODE
   /\ ParticleField.targetColor
        (ParticleField.mkResolved None ParticleField.white INTERACTIVE 0.2 1 0)
      = ParticleField.red
   /\ ParticleField.isHolding
        (ParticleField.mkResolved None ParticleField.white INTERACTIVE 0.2 1 0) = false)
  \/ (ParticleField.interactionMode
        (ParticleField.mkResolved None ParticleField.white INTERACTIVE 0.2 1 0)
      = INTERACTIVE
      /\ ((ParticleField.targetColor
             (ParticleField.mkResolved None ParticleField.white INTERACTIVE 0.2 1 0)
           = ParticleField.white
           /\ ParticleField.isHolding
                (ParticleField.mkResolved None ParticleField.white INTERACTIVE 0.2 1 0)
              = true)
          \/ (ParticleField.targetColor
                (ParticleField.mkResolved None ParticleField.white INTERACTIVE 0.2 1 0)
              = ParticleField.red
              /\ ParticleField.isHolding
                   (ParticleField.mkResolved None ParticleField.white INTERACTIVE 0.2 1 0)
                 = false)
          \/ (ParticleField.targetColor
                (ParticleField.mkResolved None ParticleField.white INTERACTIVE 0.2 1 0)
              = ParticleField.cyan
              /\ ParticleField.isHolding
                   (ParticleField.mkResolved None ParticleField.white INTERACTIVE 0.2 1 0)
                 = false))).
Proof.
  apply (two_hands_colour Sample.viewport0 Sample.clouds0 ParticleField.red
           0%float 0%float Sample.hand_fist Sample.hand_fist).
  vm_compute. reflexivity.
Defined.

(** X9. With one hand (of at least 21 landmarks) that is not classified
    ['5'], the holding state is decided by the user's colour alone: it is on
    exactly when the three components of the user's colour exceed 0.95, so a
    white user colour puts every such frame in the holding state. *)
Theorem one_hand_holding_follows_user_colour
    (viewport : ParticleField.Viewport) (textGeometries : ParticleField.TextGeometries)
    (userColor : ParticleField.Color) (delta rotY : float) (hand : list HandLandmark) :
  (21 <= List.length hand)%nat ->
  Gesture.detectGesture hand <> Ok "5"%string ->
  exists res,
    ParticleField.resolveObservation viewport textGeometries userColor delta rotY [hand]
    = Ok res
    /\ ParticleField.isHolding res
       = ((0.95 <? ParticleField.r userColor)%float
          && (0.95 <? ParticleField.g userColor)%float
          && (0.95 <? ParticleField.b userColor)%float)
    /\ (userColor = ParticleField.white -> ParticleField.isHolding res = true).
Proof.
  intros Hlen Hnot.
  unfold ParticleField.resolveObservation.
  rewrite (worldHands_spec_ge viewport [hand]) by (repeat constructor; assumption).
  cbn [bind map]. unfold ParticleField.resolve.
  cbn [List.length Nat.ltb Nat.leb Nat.eqb].
  rewrite (resolveOne_spec viewport textGeometries userColor delta rotY hand Hlen).
  rewrite (detectGesture_spec_ge hand Hlen) in Hnot.
  destruct (String.eqb (Spec.label_string (Spec.classify hand)) "5") eqn:E.
  - apply String.eqb_eq in E. rewrite E in Hnot. contradiction.
  - cbv zeta. eexists. split; [reflexivity|]. split; [reflexivity|].
    intros ->. reflexivity.
Qed.

Lemma one_hand_holding_follows_user_colour_witness :
  exists res,
    ParticleField.resolveObservation Sample.viewport0 Sample.clouds0 ParticleField.white
      0%float 0%float [Sample.hand_fist] = Ok res
    /\ ParticleField.isHolding res
       = ((0.95 <? ParticleField.r ParticleField.white)%float
          && (0.95 <? ParticleField.g ParticleField.white)%float
          && (0.95 <? ParticleField.b ParticleField.white)%float)
    /\ (ParticleField.white = ParticleField.white -> ParticleField.isHolding res = true).
Proof.
  apply one_hand_holding_follows_user_colour; [cbn; lia|].
  vm_compute. discriminate.
Defined.

(** X10. Whenever the resolver returns outside the one-hand interactive
    mode (no hand, one hand in text mode, two hands, more hands), the
    diffusion is 1.0, the rotation speed 0.2 and [rotation.y] is left as it
    was. *)
Theorem defaults_outside_one_hand_interactive
    (viewport : ParticleField.Viewport) (textGeometries : ParticleField.TextGeometries)
    (userColor : ParticleField.Color) (delta rotY : float)
    (hands : list (list HandLandmark)) (res : ParticleField.Resolved) :
  ParticleField.resolveObservation viewport textGeometries userColor delta rotY hands
  = Ok res ->
  List.length hands <> 1%nat \/ ParticleField.interactionMode res <> INTERACTIVE ->
  ParticleField.diffusion res = 1.0%float
  /\ ParticleField.rotationSpeed res = 0.2%float
  /\ ParticleField.rotationY res = rotY.
Proof.
  intros Hres Hout. destruct (resolveObservation_cases _ _ _ _ _ _ _ Hres) as (wh & _ & Hr).
  destruct (resolve_cases _ _ _ _ _ _ _ Hr)
    as [[Hn ->]|[[Hn ->]|[[Hn ->]|[(Hn & Hm & _)|[(Hn & cloud & _ & ->)
       |(Hn & color & _ & ->)]]]]];
    try (repeat split; reflexivity).
  destruct Hout as [Hout|Hout]; contradiction.
Qed.

Lemma defaults_outside_one_hand_interactive_witness :
  ParticleField.diffusion
    (ParticleField.mkResolved None ParticleField.white INTERACTIVE 0.2 1 0) = 1.0%float
  /\ ParticleField.rotationSpeed
       (ParticleField.mkResolved None ParticleField.white INTERACTIVE 0.2 1 0) = 0.2%float
  /\ ParticleField.rotationY
       (ParticleField.mkResolved None ParticleField.white INTERACTIVE 0.2 1 0) = 0%float.
Proof.
  apply (defaults_outside_one_hand_interactive Sample.viewport0 Sample.clouds0
           ParticleField.red 0%float 0%float [Sample.hand_fist; Sample.hand_fist]).
  - vm_compute. reflexivity.
  - left. cbn. lia.
Defined.

(* ------------------------------------------------------------------ *)
(** ** The openness clamp *)

Section Clamp.
Open Scope float_scope.

Lemma SFcompare_Lt_swap (a b : spec_float) :
  SFcompare a b = Some Lt -> SFcompare b a = Some Gt.
Proof.
  destruct a as [sa|sa| |sa ma ea], b as [sb|sb| |sb mb eb]; cbn;
    try discriminate; try (destruct sa, sb; cbn; congruence);
    try (destruct sa; cbn; congruence); try (destruct sb; cbn; congruence).
  change (Pos.compare_cont Eq ma mb) with (Pos.compare ma mb).
  change (Pos.compare_cont Eq mb ma) with (Pos.compare mb ma).
  rewrite (Z.compare_antisym ea eb), (Pos.compare_antisym ma mb).
  destruct sa, sb; cbn; try congruence;
    destruct (ea ?= eb)%Z; cbn; try congruence;
    destruct (ma ?= mb)%positive; cbn; congruence.
Qed.

(** [<] on binary64 numbers is asymmetric. *)
Lemma ltb_asym (a b : float) : (a <? b) = true -> (b <? a) = false.
Proof.
  rewrite !ltb_spec. unfold SFltb.
  destruct (SFcompare (Prim2SF a) (Prim2SF b)) as [[| |]|] eqn:E; try discriminate.
  intros _. now rewrite (SFcompare_Lt_swap _ _ E).
Qed.

Lemma max_zero_floor (v : float) :
  is_nan v = false ->
  is_nan (JsMath.max v 0) = false /\ (JsMath.max v 0 <? 0) = false.
Proof.
  intros Hv. unfold JsMath.max. rewrite Hv.
  change (is_nan 0) with false. cbn [orb].
  destruct (v <? 0) eqn:E1; [split; reflexivity|].
  destruct (0 <? v) eqn:E2; [split; assumption|].
  destruct (classify v); split; first [assumption | reflexivity].
Qed.

Lemma min_one_ceiling (m : float) :
  is_nan m = false -> (m <? 0) = false ->
  is_nan (JsMath.min m 1) = false
  /\ (JsMath.min m 1 <? 0) = false /\ (1 <? JsMath.min m 1) = false.
Proof.
  intros Hm H0. unfold JsMath.min. rewrite Hm.
  change (is_nan 1) with false. cbn [orb].
  destruct (m <? 1) eqn:E1.
  - repeat split; try assumption. now apply ltb_asym.
  - destruct (1 <? m) eqn:E2; [repeat split; reflexivity|].
    destruct (classify m); repeat split; first [assumption | reflexivity].
Qed.

Lemma clamp_nan (v : float) :
  is_nan v = true -> is_nan (JsMath.min (JsMath.max v 0) 1) = true.
Proof.
  intros Hv. unfold JsMath.max. rewrite Hv. reflexivity.
Qed.

End Clamp.

(** X11. With one hand (of at least 21 landmarks) that is not classified
    ['5'], the diffusion is [1 + 3 n] and the rotation speed [0.2 + 2 n] for
    the openness [n = min(max((spread / palmSize - 1) / 2, 0), 1)], where
    [palmSize] is the planar distance of landmarks 0 and 5 and [spread] that
    of landmarks 4 and 20; [n] is [NaN] exactly when
    [(spread / palmSize - 1) / 2] is, and otherwise a number that is neither
    below 0 nor above 1, also when the ratio is infinite. *)
Theorem openness_is_clamped
    (viewport : ParticleField.Viewport) (textGeometries : ParticleField.TextGeometries)
    (userColor : ParticleField.Color) (delta rotY : float) (hand : list HandLandmark) :
  (21 <= List.length hand)%nat ->
  Gesture.detectGesture hand <> Ok "5"%string ->
  let palmSize :=
    JsMath.sqrt (JsMath.pow2 (x (Spec.joint hand 0) - x (Spec.joint hand 5))
                 + JsMath.pow2 (y (Spec.joint hand 0) - y (Spec.joint hand 5)))%float in
  let spread :=
    JsMath.sqrt (JsMath.pow2 (x (Spec.joint hand 4) - x (Spec.joint hand 20))
                 + JsMath.pow2 (y (Spec.joint hand 4) - y (Spec.joint hand 20)))%float in
  let n := JsMath.min (JsMath.max ((spread / palmSize - 1.0) / 2.0)%float 0%float) 1%float in
  exists res,
    ParticleField.resolveObservation viewport textGeometries userColor delta rotY [hand]
    = Ok res
    /\ ParticleField.interactionMode res = INTERACTIVE
    /\ ParticleField.diffusion res = (1.0 + n * 3.0)%float
    /\ ParticleField.rotationSpeed res = (0.2 + n * 2.0)%float
    /\ is_nan n = is_nan ((spread / palmSize - 1.0) / 2.0)%float
    /\ (is_nan n = false -> (n <? 0)%float = false /\ (1 <? n)%float = false).
Proof.
  intros Hlen Hnot palmSize spread n.
  unfold ParticleField.resolveObservation.
  rewrite (worldHands_spec_ge viewport [hand]) by (repeat constructor; assumption).
  cbn [bind map]. unfold ParticleField.resolve.
  cbn [List.length Nat.ltb Nat.leb Nat.eqb].
  rewrite (resolveOne_spec viewport textGeometries userColor delta rotY hand Hlen).
  rewrite (detectGesture_spec_ge hand Hlen) in Hnot.
  destruct (String.eqb (Spec.label_string (Spec.classify hand)) "5") eqn:E.
  { apply String.eqb_eq in E. rewrite E in Hnot. contradiction. }
  cbv zeta. fold palmSize spread. fold n.
  eexists. split; [reflexivity|].
  cbn [ParticleField.interactionMode ParticleField.diffusion ParticleField.rotationSpeed].
  split; [reflexivity|]. split; [reflexivity|]. split; [reflexivity|].
  subst n. set (v := ((spread / palmSize - 1.0) / 2.0)%float).
  destruct (is_nan v) eqn:Ev.
  - rewrite (clamp_nan v Ev). split; [reflexivity|discriminate].
  - destruct (max_zero_floor v Ev) as [Hm Hm0].
    destruct (min_one_ceiling _ Hm Hm0) as (Hn & Hn0 & Hn1).
    split; [exact Hn|]. intros _. split; assumption.
Qed.

Lemma openness_is_clamped_witness :
  let palmSize :=
    JsMath.sqrt (JsMath.pow2 (x (Spec.joint Sample.hand_fist 0)
                              - x (Spec.joint Sample.hand_fist 5))
                 + JsMath.pow2 (y (Spec.joint Sample.hand_fist 0)
                                - y (Spec.joint Sample.hand_fist 5)))%float in
  let spread :=
    JsMath.sqrt (JsMath.pow2 (x (Spec.joint Sample.hand_fist 4)
                              - x (Spec.joint Sample.hand_fist 20))
                 + JsMath.pow2 (y (Spec.joint Sample.hand_fist 4)
                                - y (Spec.joint Sample.hand_fist 20)))%float in
  let n := JsMath.min (JsMath.max ((spread / palmSize - 1.0) / 2.0)%float 0%float) 1%float in
  exists res,
    ParticleField.resolveObservation Sample.viewport0 Sample.clouds0 ParticleField.red
      0%float 0%float [Sample.hand_fist] = Ok res
    /\ ParticleField.interactionMode res = INTERACTIVE
    /\ ParticleField.diffusion res = (1.0 + n * 3.0)%float
    /\ ParticleField.rotationSpeed res = (0.2 + n * 2.0)%float
    /\ is_nan n = is_nan ((spread / palmSize - 1.0) / 2.0)%float
    /\ (is_nan n = false -> (n <? 0)%float = false /\ (1 <? n)%float = false).
Proof.
  apply openness_is_clamped; [cbn; lia|]. vm_compute. discriminate.
Defined.

(* ------------------------------------------------------------------ *)
(** ** The particle loop and the frame *)

Section LoopFacts.
Import ParticleField.
Open Scope float_scope.
Variables (Math_sin Math_cos : float -> float) (Math_random : nat -> float).
Variables (res : Resolved) (holding : bool) (center : Vec3) (time : float).
Variable points : list Point.

Lemma sphereTarget_calls (home : Vec3) (d : float) (i k : nat) :
  snd (sphereTarget Math_sin Math_cos Math_random home d time holding i k)
  = if holding then (3 + k)%nat else k.
Proof. unfold sphereTarget. destruct holding; reflexivity. Qed.

Lemma stepParticle_calls_calm (i : nat) (pos home : Vec3) (k : nat) :
  holding = false ->
  snd (stepParticle Math_sin Math_cos Math_random res holding center time points
         i pos home k) = k.
Proof.
  intros Hcalm. unfold stepParticle.
  destruct (particleTarget _ _ _ _ _ _ _ _ _) as [t k'] eqn:E. cbn [snd].
  assert (Hk : snd (particleTarget Math_sin Math_cos Math_random res holding time home i k)
               = k).
  { unfold particleTarget.
    destruct (AppState_eqb _ _); [destruct (activeTextTarget res) as [cloud|];
      [destruct (0 <? List.length cloud)%nat|]|];
      try reflexivity; rewrite sphereTarget_calls, Hcalm; reflexivity. }
  rewrite E in Hk. exact Hk.
Qed.

Lemma stepParticle_calls_holding (i : nat) (pos home : Vec3) (k : nat) :
  holding = true -> interactionMode res <> TEXT_MODE ->
  snd (stepParticle Math_sin Math_cos Math_random res holding center time points
         i pos home k) = (3 + k)%nat.
Proof.
  intros Hhold Hmode. unfold stepParticle.
  destruct (particleTarget _ _ _ _ _ _ _ _ _) as [t k'] eqn:E. cbn [snd].
  assert (Hk : snd (particleTarget Math_sin Math_cos Math_random res holding time home i k)
               = (3 + k)%nat).
  { unfold particleTarget.
    destruct (interactionMode res); try contradiction; cbn [AppState_eqb];
      rewrite sphereTarget_calls, Hhold; reflexivity. }
  rewrite E in Hk. exact Hk.
Qed.

Lemma updateParticles_cons (i : nat) (pos home : Vec3) (ps hs : list Vec3) (k : nat) :
  updateParticles Math_sin Math_cos Math_random res holding center time points
    i (pos :: ps) (home :: hs) k
  = (fst (stepParticle Math_sin Math_cos Math_random res holding center time points
            i pos home k)
     :: fst (updateParticles Math_sin Math_cos Math_random res holding center time points
               (S i) ps hs
               (snd (stepParticle Math_sin Math_cos Math_random res holding center time
                       points i pos home k))),
     snd (updateParticles Math_sin Math_cos Math_random res holding center time points
            (S i) ps hs
            (snd (stepParticle Math_sin Math_cos Math_random res holding center time
                    points i pos home k)))).
Proof.
  cbn [updateParticles].
  destruct (stepParticle _ _ _ _ _ _ _ _ _ _ _ _) as [p k'].
  destruct (updateParticles _ _ _ _ _ _ _ _ _ _ _ _) as [rest k''].
  reflexivity.
Qed.

(** The loop keeps one entry per particle present in both buffers. *)
Lemma updateParticles_length (ps : list Vec3) :
  forall hs i k,
    List.length (fst (updateParticles Math_sin Math_cos Math_random res holding center
                        time points i ps hs k))
    = Nat.min (List.length ps) (List.length hs).
Proof.
  induction ps as [|pos ps IH]; intros [|home hs] i k; try reflexivity.
  rewrite updateParticles_cons. cbn [fst List.length Nat.min]. now rewrite IH.
Qed.

Lemma updateParticles_calls_calm (ps : list Vec3) :
  holding = false ->
  forall hs i k,
    snd (updateParticles Math_sin Math_cos Math_random res holding center time points
           i ps hs k) = k.
Proof.
  intros Hcalm.
  induction ps as [|pos ps IH]; intros [|home hs] i k; try reflexivity.
  rewrite updateParticles_cons. cbn [snd]. rewrite IH.
  now apply stepParticle_calls_calm.
Qed.

Lemma updateParticles_calls_holding (ps : list Vec3) :
  holding = true -> interactionMode res <> TEXT_MODE ->
  forall hs i k,
    snd (updateParticles Math_sin Math_cos Math_random res holding center time points
           i ps hs k)
    = (3 * Nat.min (List.length ps) (List.length hs) + k)%nat.
Proof.
  intros Hhold Hmode.
  induction ps as [|pos ps IH]; intros [|home hs] i k; try reflexivity.
  rewrite updateParticles_cons. cbn [snd]. rewrite IH.
  rewrite stepParticle_calls_holding by assumption.
  cbn [List.length Nat.min]. lia.
Qed.

(** Without the holding state, particle [j] is moved from its own position
    and home alone. *)
Lemma updateParticles_nth_calm (ps : list Vec3) :
  holding = false ->
  forall hs i k j pos home,
    nth_error ps j = Some pos -> nth_error hs j = Some home ->
    nth_error (fst (updateParticles Math_sin Math_cos Math_random res holding center
                      time points i ps hs k)) j
    = Some (fst (stepParticle Math_sin Math_cos Math_random res holding center time
                   points (i + j) pos home k)).
Proof.
  intros Hcalm.
  induction ps as [|p ps IH]; intros [|h hs] i k j pos home Hp Hh;
    try (destruct j; discriminate).
  rewrite updateParticles_cons. cbn [fst].
  destruct j as [|j]; cbn [nth_error] in *.
  - injection Hp as ->. injection Hh as ->. now rewrite Nat.add_0_r.
  - rewrite stepParticle_calls_calm by assumption.
    rewrite (IH hs (S i) k j pos home Hp Hh).
    replace (S i + j)%nat with (i + S j)%nat by lia. reflexivity.
Qed.

End LoopFacts.

(** What a completed frame is made of. *)
Lemma useFrame_Ok_inv
    (Math_sin Math_cos : float -> float) (Math_random : nat -> float)
    (textGeometries : ParticleField.TextGeometries) (userColor : ParticleField.Color)
    (handData : option HandResult) (viewport : ParticleField.Viewport) (delta : float)
    (s s' : ParticleField.Scene) :
  ParticleField.useFrame Math_sin Math_cos Math_random textGeometries userColor
    handData viewport delta s = Ok s' ->
  let hands := match handData with Some d => landmarks d | None => [] end in
  exists wh points res,
    ParticleField.worldHands viewport hands = Ok wh
    /\ ParticleField.interactionPoints viewport hands = Ok points
    /\ ParticleField.resolveObservation viewport textGeometries userColor delta
         (ParticleField.vy (ParticleField.rotation s)) hands = Ok res
    /\ s' = (let color :=
               ParticleField.Color_lerp (ParticleField.currentColor s)
                 (ParticleField.targetColor res) 0.1 in
             let shade :=
               ParticleField.mkVec3 (fround (ParticleField.r color))
                 (fround (ParticleField.g color)) (fround (ParticleField.b color)) in
             let moved :=
               ParticleField.updateParticles Math_sin Math_cos Math_random res
                 (ParticleField.isHolding res)
                 (ParticleField.handCenter (List.length hands) wh)
                 (ParticleField.timeRef s + delta)%float points 0
                 (ParticleField.positions s) (ParticleField.target s)
                 (ParticleField.randomCalls s) in
             ParticleField.mkScene (ParticleField.timeRef s + delta)%float
               (ParticleField.settleRotation res delta (ParticleField.rotation s)) color
               (fst moved) (map (fun _ => shade) (fst moved)) (ParticleField.target s)
               (snd moved)).
Proof.
  intros Hframe hands. unfold ParticleField.useFrame in Hframe. fold hands in Hframe.
  unfold ParticleField.resolveObservation.
  destruct (ParticleField.worldHands viewport hands) as [wh|]; [|discriminate Hframe].
  destruct (ParticleField.interactionPoints viewport hands) as [points|];
    [|discriminate Hframe].
  cbn [bind] in *.
  destruct (ParticleField.resolve _ _ _ _ _ _) as [res|]; [|discriminate Hframe].
  cbn [bind] in Hframe. exists wh, points, res.
  repeat split; try reflexivity.
  cbv zeta. destruct (ParticleField.updateParticles _ _ _ _ _ _ _ _ _ _ _ _) as [moved k].
  cbn [fst snd]. now injection Hframe as <-.
Qed.

(** X12. A completed frame never writes the home buffer, keeps one position
    and one colour per particle (as many as both buffers hold on entry) and
    advances the clock by [delta]. *)
Theorem frame_keeps_buffers
    (Math_sin Math_cos : float -> float) (Math_random : nat -> float)
    (textGeometries : ParticleField.TextGeometries) (userColor : ParticleField.Color)
    (handData : option HandResult) (viewport : ParticleField.Viewport) (delta : float)
    (s s' : ParticleField.Scene) :
  ParticleField.useFrame Math_sin Math_cos Math_random textGeometries userColor
    handData viewport delta s = Ok s' ->
  ParticleField.target s' = ParticleField.target s
  /\ List.length (ParticleField.positions s')
     = Nat.min (List.length (ParticleField.positions s))
               (List.length (ParticleField.target s))
  /\ List.length (ParticleField.colors s') = List.length (ParticleField.positions s')
  /\ ParticleField.timeRef s' = (ParticleField.timeRef s + delta)%float.
Proof.
  intros Hframe.
  destruct (useFrame_Ok_inv _ _ _ _ _ _ _ _ _ _ Hframe) as (wh & points & res & _ & _ & _ & ->).
  cbv zeta. cbn [ParticleField.target ParticleField.positions ParticleField.colors
                 ParticleField.timeRef].
  rewrite length_map, updateParticles_length. repeat split.
Qed.

Lemma frame_keeps_buffers_witness :
  exists s',
    ParticleField.useFrame (fun _ => 0%float) (fun _ => 1%float) (fun _ => 0.5%float)
      Sample.clouds0 ParticleField.red
      (Some (mkHandResult [Sample.hand_fist; Sample.hand_fist]))
      Sample.viewport0 0.016%float Sample.scene0 = Ok s'
    /\ ParticleField.target s' = ParticleField.target Sample.scene0
    /\ List.length (ParticleField.positions s')
       = Nat.min (List.length (ParticleField.positions Sample.scene0))
                 (List.length (ParticleField.target Sample.scene0))
    /\ List.length (ParticleField.colors s') = List.length (ParticleField.positions s')
    /\ ParticleField.timeRef s' = (ParticleField.timeRef Sample.scene0 + 0.016)%float.
Proof.
  eexists. split; [vm_compute; reflexivity|].
  apply (frame_keeps_buffers (fun _ => 0%float) (fun _ => 1%float) (fun _ => 0.5%float)
           Sample.clouds0 ParticleField.red
           (Some (mkHandResult [Sample.hand_fist; Sample.hand_fist]))
           Sample.viewport0 0.016%float Sample.scene0).
  vm_compute. reflexivity.
Defined.

(** X13. After a completed frame the smoothed colour has moved one tenth of
    the way to the resolved colour target, and every particle carries that
    one colour, as the [Float32Array] keeps it. *)
Theorem one_colour_for_all
    (Math_sin Math_cos : float -> float) (Math_random : nat -> float)
    (textGeometries : ParticleField.TextGeometries) (userColor : ParticleField.Color)
    (handData : option HandResult) (viewport : ParticleField.Viewport) (delta : float)
    (s s' : ParticleField.Scene) :
  ParticleField.useFrame Math_sin Math_cos Math_random textGeometries userColor
    handData viewport delta s = Ok s' ->
  exists res,
    ParticleField.resolveObservation viewport textGeometries userColor delta
      (ParticleField.vy (ParticleField.rotation s))
      (match handData with Some d => landmarks d | None => [] end) = Ok res
    /\ ParticleField.currentColor s'
       = ParticleField.mkColor
           (ParticleField.r (ParticleField.currentColor s)
            + (ParticleField.r (ParticleField.targetColor res)
               - ParticleField.r (ParticleField.currentColor s)) * 0.1)%float
           (ParticleField.g (ParticleField.currentColor s)
            + (ParticleField.g (ParticleField.targetColor res)
               - ParticleField.g (ParticleField.currentColor s)) * 0.1)%float
           (ParticleField.b (ParticleField.currentColor s)
            + (ParticleField.b (ParticleField.targetColor res)
               - ParticleField.b (ParticleField.currentColor s)) * 0.1)%float
    /\ Forall (fun c =>
                 c = ParticleField.mkVec3
                       (fround (ParticleField.r (ParticleField.currentColor s')))
                       (fround (ParticleField.g (ParticleField.currentColor s')))
                       (fround (ParticleField.b (ParticleField.currentColor s'))))
              (ParticleField.colors s').
Proof.
  intros Hframe.
  destruct (useFrame_Ok_inv _ _ _ _ _ _ _ _ _ _ Hframe)
    as (wh & points & res & _ & _ & Hres & ->).
  exists res. split; [exact Hres|]. split; [reflexivity|].
  cbv zeta. cbn [ParticleField.colors ParticleField.currentColor].
  apply Forall_forall. intros c Hc. apply in_map_iff in Hc.
  destruct Hc as (p & <- & _). reflexivity.
Qed.

Lemma one_colour_for_all_witness :
  exists s' res,
    ParticleField.useFrame (fun _ => 0%float) (fun _ => 1%float) (fun _ => 0.5%float)
      Sample.clouds0 ParticleField.red (Some (mkHandResult [Sample.hand_fist]))
      Sample.viewport0 0.016%float Sample.scene0
    = Ok s'
    /\ ParticleField.currentColor Sample.scene0 = ParticleField.mkColor 0 1 1
    /\ ParticleField.currentColor s' = ParticleField.mkColor 0.1 0.9 0.9
    /\ ParticleField.colors s'
       = [ParticleField.mkVec3 (fround 0.1) (fround 0.9) (fround 0.9);
          ParticleField.mkVec3 (fround 0.1) (fround 0.9) (fround 0.9)]
    /\ ParticleField.resolveObservation Sample.viewport0 Sample.clouds0 ParticleField.red
         0.016%float (ParticleField.vy (ParticleField.rotation Sample.scene0))
         [Sample.hand_fist] = Ok res
    /\ ParticleField.currentColor s'
       = ParticleField.mkColor
           (ParticleField.r (ParticleField.currentColor Sample.scene0)
            + (ParticleField.r (ParticleField.targetColor res)
               - ParticleField.r (ParticleField.currentColor Sample.scene0)) * 0.1)%float
           (ParticleField.g (ParticleField.currentColor Sample.scene0)
            + (ParticleField.g (ParticleField.targetColor res)
               - ParticleField.g (ParticleField.currentColor Sample.scene0)) * 0.1)%float
           (ParticleField.b (ParticleField.currentColor Sample.scene0)
            + (ParticleField.b (ParticleField.targetColor res)
               - ParticleField.b (ParticleField.currentColor Sample.scene0)) * 0.1)%float
    /\ Forall (fun c =>
                 c = ParticleField.mkVec3
                       (fround (ParticleField.r (ParticleField.currentColor s')))
                       (fround (ParticleField.g (ParticleField.currentColor s')))
                       (fround (ParticleField.b (ParticleField.currentColor s'))))
              (ParticleField.colors s').
Proof.
  eexists.
  assert (H : ParticleField.useFrame (fun _ => 0%float) (fun _ => 1%float)
                (fun _ => 0.5%float) Sample.clouds0 ParticleField.red
                (Some (mkHandResult [Sample.hand_fist]))
                Sample.viewport0 0.016%float Sample.scene0 = Ok ?[s'])
    by (vm_compute; reflexivity).
  destruct (one_colour_for_all _ _ _ _ _ _ _ _ _ _ H) as (res & H1 & H2 & H3).
  exists res. split; [exact H|]. split; [reflexivity|].
  split; [vm_compute; reflexivity|]. split; [vm_compute; reflexivity|].
  repeat split; assumption.
Defined.

(** X14. [Math.random] is called by a completed frame only in the holding
    state, and then exactly three times per particle. *)
Theorem random_calls_of_a_frame
    (Math_sin Math_cos : float -> float) (Math_random : nat -> float)
    (textGeometries : ParticleField.TextGeometries) (userColor : ParticleField.Color)
    (handData : option HandResult) (viewport : ParticleField.Viewport) (delta : float)
    (s s' : ParticleField.Scene) :
  ParticleField.useFrame Math_sin Math_cos Math_random textGeometries userColor
    handData viewport delta s = Ok s' ->
  exists res,
    ParticleField.resolveObservation viewport textGeometries userColor delta
      (ParticleField.vy (ParticleField.rotation s))
      (match handData with Some d => landmarks d | None => [] end) = Ok res
    /\ ParticleField.randomCalls s'
       = ((if ParticleField.isHolding res
           then 3 * Nat.min (List.length (ParticleField.positions s))
                            (List.length (ParticleField.target s))
           else 0)
          + ParticleField.randomCalls s)%nat.
Proof.
  intros Hframe.
  destruct (useFrame_Ok_inv _ _ _ _ _ _ _ _ _ _ Hframe)
    as (wh & points & res & _ & _ & Hres & ->).
  exists res. split; [exact Hres|].
  cbv zeta. cbn [ParticleField.randomCalls].
  destruct (ParticleField.isHolding res) eqn:Hhold.
  - apply updateParticles_calls_holding; [reflexivity|].
    unfold ParticleField.isHolding in Hhold.
    destruct (ParticleField.interactionMode res); cbn in Hhold; congruence.
  - now apply updateParticles_calls_calm.
Qed.

Lemma random_calls_of_a_frame_witness :
  exists s' res,
    ParticleField.useFrame (fun _ => 0%float) (fun _ => 1%float) (fun _ => 0.5%float)
      Sample.clouds0 ParticleField.red
      (Some (mkHandResult [Sample.hand_fist; Sample.hand_fist]))
      Sample.viewport0 0.016%float Sample.scene0 = Ok s'
    /\ ParticleField.resolveObservation Sample.viewport0 Sample.clouds0 ParticleField.red
         0.016%float (ParticleField.vy (ParticleField.rotation Sample.scene0))
         [Sample.hand_fist; Sample.hand_fist] = Ok res
    /\ ParticleField.randomCalls s'
       = ((if ParticleField.isHolding res
           then 3 * Nat.min (List.length (ParticleField.positions Sample.scene0))
                            (List.length (ParticleField.target Sample.scene0))
           else 0)
          + ParticleField.randomCalls Sample.scene0)%nat.
Proof.
  eexists.
  assert (H : ParticleField.useFrame (fun _ => 0%float) (fun _ => 1%float)
                (fun _ => 0.5%float) Sample.clouds0 ParticleField.red
                (Some (mkHandResult [Sample.hand_fist; Sample.hand_fist]))
                Sample.viewport0 0.016%float Sample.scene0 = Ok ?[s'])
    by (vm_compute; reflexivity).
  destruct (random_calls_of_a_frame _ _ _ _ _ _ _ _ _ _ H) as (res & H1 & H2).
  exists res. repeat split; assumption.
Defined.

(** X15. A frame without hands (no observation yet, or an empty one) always
    completes: the rotation is left as it was, no random number is drawn, the
    colour moves towards cyan, and each particle moves one tenth of the way
    from its own position to its home position plus the ambient noise, no
    force being applied. *)
Theorem idle_frame
    (Math_sin Math_cos : float -> float) (Math_random : nat -> float)
    (textGeometries : ParticleField.TextGeometries) (userColor : ParticleField.Color)
    (handData : option HandResult) (viewport : ParticleField.Viewport) (delta : float)
    (s : ParticleField.Scene) :
  handData = None \/ handData = Some (mkHandResult []) ->
  exists s',
    ParticleField.useFrame Math_sin Math_cos Math_random textGeometries userColor
      handData viewport delta s = Ok s'
    /\ ParticleField.rotation s' = ParticleField.rotation s
    /\ ParticleField.randomCalls s' = ParticleField.randomCalls s
    /\ ParticleField.currentColor s'
       = ParticleField.Color_lerp (ParticleField.currentColor s) ParticleField.cyan 0.1
    /\ forall j pos home,
         nth_error (ParticleField.positions s) j = Some pos ->
         nth_error (ParticleField.target s) j = Some home ->
         nth_error (ParticleField.positions s') j
         = Some (let time := ParticleField.timeRef s + delta in
                 let tx := ParticleField.vx home * 1.0
                           + Math_sin (time * 2 + float_of_nat j * 0.1) * 0.2 in
                 let ty := ParticleField.vy home * 1.0
                           + Math_cos (time * 2 + float_of_nat j * 0.1) * 0.2 in
                 let tz := ParticleField.vz home * 1.0 + 0 in
                 ParticleField.mkVec3
                   (fround (ParticleField.vx pos + (tx - ParticleField.vx pos) * 0.1))
                   (fround (ParticleField.vy pos + (ty - ParticleField.vy pos) * 0.1))
                   (fround (ParticleField.vz pos + (tz - ParticleField.vz pos) * 0.1)))%float.
Proof.
  intros Hnone.
  assert (Hframe :
    ParticleField.useFrame Math_sin Math_cos Math_random textGeometries userColor
      handData viewport delta s
    = let res := ParticleField.mkResolved None ParticleField.cyan IDLE 0.2 1.0
                   (ParticleField.vy (ParticleField.rotation s)) in
      let color := ParticleField.Color_lerp (ParticleField.currentColor s)
                     ParticleField.cyan 0.1 in
      let shade := ParticleField.mkVec3 (fround (ParticleField.r color))
                     (fround (ParticleField.g color)) (fround (ParticleField.b color)) in
      let moved :=
        ParticleField.updateParticles Math_sin Math_cos Math_random res false
          (ParticleField.mkVec3 0 0 0) (ParticleField.timeRef s + delta)%float [] 0
          (ParticleField.positions s) (ParticleField.target s)
          (ParticleField.randomCalls s) in
      Ok (ParticleField.mkScene (ParticleField.timeRef s + delta)%float
            (ParticleField.settleRotation res delta (ParticleField.rotation s)) color
            (fst moved) (map (fun _ => shade) (fst moved)) (ParticleField.target s)
            (snd moved))).
  { destruct Hnone as [->| ->]; unfold ParticleField.useFrame; cbn [landmarks];
      cbn [ParticleField.worldHands ParticleField.interactionPoints mapM bind List.concat
           List.length ParticleField.resolve Nat.ltb Nat.leb ParticleField.handCenter];
      cbv zeta;
      destruct (ParticleField.updateParticles _ _ _ _ _ _ _ _ _ _ _ _) as [moved k];
      reflexivity. }
  rewrite Hframe. cbv zeta. eexists. split; [reflexivity|].
  cbn [ParticleField.rotation ParticleField.randomCalls ParticleField.currentColor
       ParticleField.positions].
  split; [|split; [|split]].
  - unfold ParticleField.settleRotation. cbn.
    destruct (ParticleField.rotation s); reflexivity.
  - now apply updateParticles_calls_calm.
  - reflexivity.
  - intros j pos home Hp Hh.
    rewrite (updateParticles_nth_calm _ _ _ _ _ _ _ _ _ eq_refl _ _ _ _ _ _ Hp Hh).
    reflexivity.
Qed.

Lemma idle_frame_witness :
  exists s',
    ParticleField.useFrame (fun _ => 0%float) (fun _ => 1%float) (fun _ => 0.5%float)
      Sample.clouds0 ParticleField.red None Sample.viewport0 0.016%float Sample.scene0
    = Ok s'
    /\ ParticleField.rotation s' = ParticleField.rotation Sample.scene0
    /\ ParticleField.randomCalls s' = ParticleField.randomCalls Sample.scene0
    /\ ParticleField.currentColor s'
       = ParticleField.Color_lerp (ParticleField.currentColor Sample.scene0)
           ParticleField.cyan 0.1
    /\ forall j pos home,
         nth_error (ParticleField.positions Sample.scene0) j = Some pos ->
         nth_error (ParticleField.target Sample.scene0) j = Some home ->
         nth_error (ParticleField.positions s') j
         = Some (let time := ParticleField.timeRef Sample.scene0 + 0.016 in
                 let tx := ParticleField.vx home * 1.0
                           + 0 * 0.2 in
                 let ty := ParticleField.vy home * 1.0
                           + 1 * 0.2 in
                 let tz := ParticleField.vz home * 1.0 + 0 in
                 ParticleField.mkVec3
                   (fround (ParticleField.vx pos + (tx - ParticleField.vx pos) * 0.1))
                   (fround (ParticleField.vy pos + (ty - ParticleField.vy pos) * 0.1))
                   (fround (ParticleField.vz pos + (tz - ParticleField.vz pos) * 0.1)))%float.
Proof.
  apply (idle_frame (fun _ => 0%float) (fun _ => 1%float) (fun _ => 0.5%float)
           Sample.clouds0 ParticleField.red None Sample.viewport0 0.016%float
           Sample.scene0).
  left. reflexivity.
Defined.

(** X16. Points at or beyond the radius of the mode exert nothing: when no
    interaction point is strictly within the radius of a particle, the
    repulsion loop leaves its target as it was, and only the flee term of
    the holding state is added. *)
Theorem far_points_exert_no_force
    (Math_sin : float -> float) (mode : AppState) (holding : bool)
    (center : ParticleField.Vec3) (time : float) (points : list ParticleField.Point)
    (pos t : ParticleField.Vec3) :
  Forall (fun point =>
            (let dx := ParticleField.vx pos - ParticleField.ptx point in
             let dy := ParticleField.vy pos - ParticleField.pty point in
             let dz := ParticleField.vz pos - 0 in
             dx * dx + dy * dy + dz * dz
             <? ParticleField.radiusOf mode holding * ParticleField.radiusOf mode holding)%float
            = false) points ->
  ParticleField.applyForces Math_sin mode holding center time points pos t
  = if holding && (0 <? List.length points)%nat
    then ParticleField.flee Math_sin center time pos t
    else t.
Proof.
  intros Hfar. unfold ParticleField.applyForces.
  assert (Hfold : fold_left (fun t0 point => ParticleField.repel mode holding pos t0 point)
                            points t = t).
  { induction Hfar as [|point rest Hp _ IH]; [reflexivity|].
    cbn [fold_left]. unfold ParticleField.repel at 2. cbv zeta in Hp |- *.
    rewrite Hp. exact IH. }
  rewrite Hfold. destruct (0 <? List.length points)%nat, holding; reflexivity.
Qed.

Lemma far_points_exert_no_force_witness :
  ParticleField.applyForces (fun _ => 0%float) IDLE false (ParticleField.mkVec3 0 0 0)
    0%float [ParticleField.mkPoint 8 0; ParticleField.mkPoint 4.5 0]
    (ParticleField.mkVec3 1 0 0) (ParticleField.mkVec3 4 0 0)
  = if false && (0 <? List.length [ParticleField.mkPoint 8 0; ParticleField.mkPoint 4.5 0])%nat
    then ParticleField.flee (fun _ => 0%float) (ParticleField.mkVec3 0 0 0) 0%float
           (ParticleField.mkVec3 1 0 0) (ParticleField.mkVec3 4 0 0)
    else ParticleField.mkVec3 4 0 0.
Proof.
  apply far_points_exert_no_force.
  repeat constructor.
Defined.

Lemma useFrame_completes
    (Math_sin Math_cos : float -> float) (Math_random : nat -> float)
    (textGeometries : ParticleField.TextGeometries) (userColor : ParticleField.Color)
    (handData : option HandResult) (viewport : ParticleField.Viewport) (delta : float)
    (s : ParticleField.Scene) :
  Forall (fun hand => (21 <= List.length hand)%nat)
         (match handData with Some d => landmarks d | None => [] end) ->
  exists s',
    ParticleField.useFrame Math_sin Math_cos Math_random textGeometries userColor
      handData viewport delta s = Ok s'.
Proof.
  intros Hall.
  set (hands := match handData with Some d => landmarks d | None => [] end) in *.
  assert (Hsame :
    ParticleField.useFrame Math_sin Math_cos Math_random textGeometries userColor
      handData viewport delta s
    = ParticleField.useFrame Math_sin Math_cos Math_random textGeometries userColor
        (Some (mkHandResult hands)) viewport delta s)
    by (subst hands; destruct handData as [[hs]|]; reflexivity).
  rewrite Hsame.
  destruct (useFrame_unfold_ge Math_sin Math_cos Math_random textGeometries userColor
              viewport delta s hands Hall) as (res & _ & ->).
  cbv zeta. eauto.
Qed.

(** X17. Started from the mounted scene and run on any sequence of
    observations whose hands have at least 21 landmarks, the callback
    completes every frame, the scene holds [COUNT] positions and [COUNT]
    colours throughout, and the home buffer is still the buffer of the
    initial positions: each home position is set once, never written
    again. *)
Theorem run_keeps_particles
    (Math_sin Math_cos Math_acos : float -> float) (Math_PI : float)
    (Math_random : nat -> float)
    (textGeometries : ParticleField.TextGeometries) (userColor : ParticleField.Color)
    (calls : nat) (inputs : list Startup.FrameInput) :
  Forall (fun input =>
            Forall (fun hand => (21 <= List.length hand)%nat)
                   (match Startup.handData input with
                    | Some d => landmarks d
                    | None => []
                    end)) inputs ->
  exists s',
    Startup.runFrames Math_sin Math_cos Math_random textGeometries userColor inputs
      (Startup.initialScene Math_sin Math_cos Math_acos Math_PI Math_random userColor calls)
    = Ok s'
    /\ List.length (ParticleField.positions s') = ParticleField.COUNT
    /\ List.length (ParticleField.colors s') = ParticleField.COUNT
    /\ ParticleField.target s'
       = Startup.pos (Startup.particles Math_sin Math_cos Math_acos Math_PI Math_random)
    /\ ParticleField.target s'
       = Startup.target (Startup.particles Math_sin Math_cos Math_acos Math_PI Math_random).
Proof.
  intros Hall.
  set (s0 := Startup.initialScene Math_sin Math_cos Math_acos Math_PI Math_random
               userColor calls).
  set (home := Startup.pos (Startup.particles Math_sin Math_cos Math_acos Math_PI
                              Math_random)).
  assert (Hinv : List.length (ParticleField.positions s0) = ParticleField.COUNT
                 /\ List.length (ParticleField.colors s0) = ParticleField.COUNT
                 /\ ParticleField.target s0 = home
                 /\ List.length home = ParticleField.COUNT).
  { subst s0 home. unfold Startup.initialScene, Startup.particles.
    cbn [ParticleField.positions ParticleField.colors ParticleField.target
         Startup.pos Startup.colors Startup.target].
    rewrite !length_map, length_seq. repeat split. }
  change (Startup.target (Startup.particles Math_sin Math_cos Math_acos Math_PI Math_random))
    with home.
  clearbody s0 home. revert s0 Hinv.
  induction Hall as [|input rest Hin _ IH]; intros s0 (Hp & Hc & Ht & Hh).
  - exists s0. cbn [Startup.runFrames]. auto.
  - cbn [Startup.runFrames].
    destruct (useFrame_completes Math_sin Math_cos Math_random textGeometries userColor
                (Startup.handData input) (Startup.viewport input) (Startup.delta input)
                s0 Hin) as [s1 Hframe].
    rewrite Hframe. cbn [bind]. apply IH.
    destruct (useFrame_Ok_inv _ _ _ _ _ _ _ _ _ _ Hframe)
      as (wh & points & res & _ & _ & _ & ->).
    cbv zeta. cbn [ParticleField.target ParticleField.positions ParticleField.colors].
    rewrite length_map, updateParticles_length, Hp, Ht, Hh, Nat.min_id. auto.
Qed.

Lemma run_keeps_particles_witness :
  exists s',
    Startup.runFrames (fun _ => 0%float) (fun _ => 1%float) (fun _ => 0.5%float)
      Sample.clouds0 ParticleField.red
      [Startup.mkFrameInput None Sample.viewport0 0.016%float;
       Startup.mkFrameInput (Some (mkHandResult [Sample.hand_fist; Sample.hand_fist]))
         Sample.viewport0 0.016%float]
      (Startup.initialScene (fun _ => 0%float) (fun _ => 1%float) (fun _ => 0%float)
         3.141592653589793%float (fun _ => 0.5%float) ParticleField.red 0)
    = Ok s'
    /\ List.length (ParticleField.positions s') = ParticleField.COUNT
    /\ List.length (ParticleField.colors s') = ParticleField.COUNT
    /\ ParticleField.target s'
       = Startup.pos (Startup.particles (fun _ => 0%float) (fun _ => 1%float)
                        (fun _ => 0%float) 3.141592653589793%float (fun _ => 0.5%float))
    /\ ParticleField.target s'
       = Startup.target (Startup.particles (fun _ => 0%float) (fun _ => 1%float)
                           (fun _ => 0%float) 3.141592653589793%float
                           (fun _ => 0.5%float)).
Proof.
  apply (run_keeps_particles (fun _ => 0%float) (fun _ => 1%float) (fun _ => 0%float)
           3.141592653589793%float (fun _ => 0.5%float) Sample.clouds0 ParticleField.red 0).
  repeat constructor.
Defined.

(* ------------------------------------------------------------------ *)
(** ** Glyph point-cloud generator: the scan as a list *)

Section GridFacts.
Import Grid.
Variable density : Z.
Hypothesis Hdensity : (0 < density)%Z.

Lemma remaining_zero (limit start : Z) (n : nat) :
  remaining density limit n start -> (limit <= start)%Z -> n = 0%nat.
Proof.
  intros [_ Hlast] Hle. destruct n as [|n]; [reflexivity|].
  specialize (Hlast ltac:(discriminate)). nia.
Qed.

Lemma remaining_step (limit start : Z) (n : nat) :
  remaining density limit n start -> (start < limit)%Z ->
  exists n', n = S n' /\ remaining density limit n' (start + density).
Proof.
  intros [Hall Hlast] Hlt. destruct n as [|n]; [cbn in Hall; lia|].
  exists n. split; [reflexivity|]. split.
  - nia.
  - intros Hn. specialize (Hlast ltac:(discriminate)). nia.
Qed.

Lemma remaining_bound (limit : Z) (n : nat) :
  remaining density limit n 0 -> (n <= Z.to_nat limit)%nat.
Proof.
  intros [_ Hlast]. destruct n as [|n]; [lia|].
  specialize (Hlast ltac:(discriminate)). nia.
Qed.

Lemma gridCount_remaining (limit : Z) : remaining density limit (gridCount limit density) 0.
Proof.
  unfold remaining, gridCount.
  pose proof (Z.div_mod (limit + density - 1) density ltac:(lia)) as Hdm.
  pose proof (Z.mod_pos_bound (limit + density - 1) density Hdensity) as Hmod.
  set (q := ((limit + density - 1) / density)%Z) in *.
  destruct (Z.le_gt_cases q 0) as [Hq|Hq].
  - replace (Z.to_nat q) with 0%nat by lia. split; [nia|intros H; contradiction].
  - rewrite Z2Nat.id by lia. split; [nia|]. intros _. nia.
Qed.

Lemma colsFrom_In (n : nat) :
  forall start c,
    In c (colsFrom density n start)
    <-> exists i, (i < n)%nat /\ c = (start + Z.of_nat i * density)%Z.
Proof.
  induction n as [|n IH]; intros start c; cbn [colsFrom In].
  - split; [contradiction|]. intros (i & Hi & _). lia.
  - rewrite IH. split.
    + intros [<-|(i & Hi & ->)].
      * exists 0%nat. split; [lia|]. cbn. lia.
      * exists (S i). split; [lia|]. lia.
    + intros ([|i] & Hi & ->).
      * left. cbn. lia.
      * right. exists i. split; [lia|]. lia.
Qed.

(** The grid holds exactly the multiples of [density] in [[0, limit)]. *)
Lemma grid_In (limit c : Z) :
  In c (grid limit density) <-> (0 <= c < limit)%Z /\ (density | c)%Z.
Proof.
  unfold grid. rewrite colsFrom_In.
  destruct (gridCount_remaining limit) as [Hall Hlast].
  split.
  - intros (i & Hi & ->). split.
    + split; [nia|]. specialize (Hlast ltac:(lia)). nia.
    + exists (Z.of_nat i). lia.
  - intros [[H0 Hlt] [q Hq]].
    assert (Hq0 : (0 <= q)%Z) by nia.
    exists (Z.to_nat q). split; [|rewrite Z2Nat.id by lia; lia].
    destruct (Nat.lt_ge_cases (Z.to_nat q) (gridCount limit density)) as [|Hge];
      [assumption|].
    exfalso. assert ((Z.of_nat (gridCount limit density) <= q)%Z) by lia. nia.
Qed.

End GridFacts.

Section ScanAsList.
Import Grid.
Context {num : Type} `{Arith num}.
Variable Math_random : nat -> num.
Variables (data : list Z) (width height density : Z).
Hypothesis Hdensity : (0 < density)%Z.

Lemma emitAll_app (l1 l2 : list (Z * Z)) :
  forall k,
    emitAll Math_random width height density k (l1 ++ l2)
    = emitAll Math_random width height density k l1 ++ emitAll Math_random width height density (3 * List.length l1 + k) l2.
Proof.
  induction l1 as [|p l1 IH]; intros k; [reflexivity|].
  cbn [emitAll app List.length]. rewrite IH, <- app_assoc.
  do 3 f_equal. lia.
Qed.

Lemma emitAll_length (l : list (Z * Z)) :
  forall k, List.length (emitAll Math_random width height density k l) = (3 * List.length l)%nat.
Proof.
  induction l as [|p l IH]; intros k; [reflexivity|].
  cbn [emitAll List.length]. rewrite length_app, IH. cbn. lia.
Qed.

(** The inner loop pushes the bright pixels of its row, left to right. *)
Lemma scanRow_list (y : Z) (n : nat) :
  forall fuel x k positions,
    remaining density width n x -> (n < fuel)%nat ->
    let row := filter (brightAt data width) (map (fun c => (c, y)) (colsFrom density n x)) in
    scanRow Math_random data width height density fuel y x k positions
    = Some (positions ++ emitAll Math_random width height density k row, (3 * List.length row + k)%nat).
Proof.
  induction n as [|n IH]; intros fuel x k positions Hrem Hfuel;
    (destruct fuel as [|fuel]; [lia|]); cbn [scanRow].
  - destruct Hrem as [Hall _]. cbn in Hall.
    rewrite (proj2 (Z.ltb_ge x width)) by lia.
    cbn. now rewrite app_nil_r.
  - assert (Hlt : (x < width)%Z).
    { destruct (Z.lt_ge_cases x width) as [|Hge]; [assumption|].
      pose proof (remaining_zero density Hdensity width x (S n) Hrem Hge).
      discriminate. }
    rewrite (proj2 (Z.ltb_lt x width) Hlt).
    destruct (remaining_step density width x (S n) Hrem Hlt) as (n' & [= <-] & Hrem').
    cbn [colsFrom map filter].
    change (brightAt data width (x, y)) with (bright data ((y * width + x) * 4)).
    destruct (bright data ((y * width + x) * 4)) eqn:Eb.
    + rewrite (IH fuel (x + density)%Z (3 + k)%nat _ Hrem') by lia.
      cbv zeta. cbn [emitAll List.length fst snd]. rewrite <- app_assoc.
      do 2 f_equal. lia.
    + now rewrite (IH fuel (x + density)%Z k positions Hrem') by lia.
Qed.

(** The outer loop pushes the rows, top to bottom. *)
Lemma scanRows_list (m : nat) :
  forall fuel y k positions,
    remaining density height m y -> (m < fuel)%nat ->
    let pixels :=
      filter (brightAt data width)
             (flat_map (fun r => map (fun c => (c, r)) (grid width density))
                       (colsFrom density m y)) in
    scanRows Math_random data width height density fuel y k positions
    = Some (positions ++ emitAll Math_random width height density k pixels, (3 * List.length pixels + k)%nat).
Proof.
  induction m as [|m IH]; intros fuel y k positions Hrem Hfuel;
    (destruct fuel as [|fuel]; [lia|]); cbn [scanRows].
  - destruct Hrem as [Hall _]. cbn in Hall.
    rewrite (proj2 (Z.ltb_ge y height)) by lia.
    cbn. now rewrite app_nil_r.
  - assert (Hlt : (y < height)%Z).
    { destruct (Z.lt_ge_cases y height) as [|Hge]; [assumption|].
      pose proof (remaining_zero density Hdensity height y (S m) Hrem Hge).
      discriminate. }
    rewrite (proj2 (Z.ltb_lt y height) Hlt).
    destruct (remaining_step density height y (S m) Hrem Hlt) as (m' & [= <-] & Hrem').
    pose proof (gridCount_remaining density Hdensity width) as Hcols.
    rewrite (scanRow_list y (gridCount width density) (S (Z.to_nat width)) 0 k positions
               Hcols)
      by (pose proof (remaining_bound density Hdensity width _ Hcols); lia).
    cbv zeta. fold (grid width density).
    rewrite (IH fuel (y + density)%Z _ _ Hrem') by lia.
    cbv zeta. cbn [colsFrom flat_map].
    rewrite filter_app, emitAll_app, length_app, <- app_assoc.
    do 2 f_equal. lia.
Qed.

(** The generator on a drawn image: the bright sampled pixels, row by row,
    three random numbers each. *)
Lemma generate_scan (renderText : string -> Z -> Z -> option (list Z))
    (k : nat) (text : string) :
  renderText text width height = Some data ->
  generateTextParticlesFrom renderText Math_random k text width height density
  = Some (map store32 (emitAll Math_random width height density k (brightSamples data width height density)),
          (3 * List.length (brightSamples data width height density) + k)%nat).
Proof.
  intros Hdata. unfold generateTextParticlesFrom. rewrite Hdata.
  pose proof (gridCount_remaining density Hdensity height) as Hrows.
  rewrite (scanRows_list (gridCount height density) (S (Z.to_nat height)) 0 k [] Hrows)
    by (pose proof (remaining_bound density Hdensity height _ Hrows); lia).
  reflexivity.
Qed.

End ScanAsList.

Section SampleFacts.
Import Grid.

Lemma colsFrom_length (density : Z) (n : nat) :
  forall start, List.length (colsFrom density n start) = n.
Proof. induction n as [|n IH]; intros start; cbn; [reflexivity|now rewrite IH]. Qed.

Lemma pairs_length (rows cols : list Z) :
  List.length (flat_map (fun r => map (fun c => (c, r)) cols) rows)
  = (List.length rows * List.length cols)%nat.
Proof.
  induction rows as [|r rows IH]; [reflexivity|].
  cbn [flat_map List.length]. rewrite length_app, length_map, IH. lia.
Qed.

Lemma samples_length (width height density : Z) :
  List.length (samples width height density)
  = (gridCount height density * gridCount width density)%nat.
Proof.
  unfold samples, grid. now rewrite pairs_length, !colsFrom_length.
Qed.

Lemma samples_In (width height density x y : Z) :
  (0 < density)%Z ->
  In (x, y) (samples width height density)
  <-> (0 <= x < width)%Z /\ (0 <= y < height)%Z /\ (density | x)%Z /\ (density | y)%Z.
Proof.
  intros Hd. unfold samples. rewrite in_flat_map. split.
  - intros (r & Hr & Hin). apply in_map_iff in Hin. destruct Hin as (c & [= <- <-] & Hc).
    apply (grid_In density Hd) in Hr. apply (grid_In density Hd) in Hc. tauto.
  - intros (Hx & Hy & Dx & Dy). exists y. split.
    + apply (grid_In density Hd). tauto.
    + apply in_map_iff. exists x. split; [reflexivity|].
      apply (grid_In density Hd). tauto.
Qed.

End SampleFacts.

(** X18. For a positive density and a drawn image, the generator returns
    the rounded numbers of the bright sampled pixels in row-major order, the
    [j]-th emitted point using the random numbers [k + 3 j], [k + 3 j + 1]
    and [k + 3 j + 2]; the sampled pixels are exactly those of the image
    whose two coordinates are multiples of the density, and a pixel is bright
    when its red byte exceeds 128. *)
Theorem generated_cloud_is_bright_samples {num : Type} `{Arith num}
    (renderText : string -> Z -> Z -> option (list Z)) (Math_random : nat -> num)
    (k : nat) (text : string) (width height density : Z) (data : list Z) :
  (0 < density)%Z ->
  renderText text width height = Some data ->
  generateTextParticlesFrom renderText Math_random k text width height density
  = Some (map store32
              (Grid.emitAll Math_random width height density k
                 (Grid.brightSamples data width height density)),
          (3 * List.length (Grid.brightSamples data width height density) + k)%nat)
  /\ forall x y,
       In (x, y) (Grid.brightSamples data width height density)
       <-> (0 <= x < width)%Z /\ (0 <= y < height)%Z
           /\ (density | x)%Z /\ (density | y)%Z
           /\ exists red, nth_error data (Z.to_nat ((y * width + x) * 4)) = Some red
                          /\ (128 < red)%Z.
Proof.
  intros Hd Hdata. split; [now apply generate_scan|].
  intros x y. unfold Grid.brightSamples. rewrite filter_In, (samples_In _ _ _ _ _ Hd).
  unfold Grid.brightAt, bright, byteAt. cbn [fst snd].
  split.
  - intros ((Hx & Hy & Dx & Dy) & Hb). repeat split; try tauto.
    destruct ((y * width + x) * 4 <? 0)%Z; [discriminate Hb|].
    destruct (nth_error data _) as [red|]; [|discriminate Hb].
    exists red. split; [reflexivity|]. now apply Z.ltb_lt.
  - intros (Hx & Hy & Dx & Dy & red & Hred & Hgt). split; [tauto|].
    rewrite (proj2 (Z.ltb_ge ((y * width + x) * 4) 0)) by nia.
    rewrite Hred. now apply Z.ltb_lt.
Qed.

Lemma generated_cloud_is_bright_samples_witness :
  generateTextParticlesFrom Sample.whiteCanvas (fun _ => 0.25%float) 0 "A" 12 6 6
  = Some (map store32
              (Grid.emitAll (fun _ => 0.25%float) 12 6 6 0
                 (Grid.brightSamples (repeat 255%Z (Z.to_nat (12 * 6 * 4))) 12 6 6)),
          (3 * List.length (Grid.brightSamples (repeat 255%Z (Z.to_nat (12 * 6 * 4))) 12 6 6)
           + 0)%nat)
  /\ forall x y,
       In (x, y) (Grid.brightSamples (repeat 255%Z (Z.to_nat (12 * 6 * 4))) 12 6 6)
       <-> (0 <= x < 12)%Z /\ (0 <= y < 6)%Z
           /\ (6 | x)%Z /\ (6 | y)%Z
           /\ exists red,
               nth_error (repeat 255%Z (Z.to_nat (12 * 6 * 4)))
                         (Z.to_nat ((y * 12 + x) * 4)) = Some red
               /\ (128 < red)%Z.
Proof.
  apply (generated_cloud_is_bright_samples Sample.whiteCanvas (fun _ => 0.25%float) 0 "A"
           12 6 6 (repeat 255%Z (Z.to_nat (12 * 6 * 4)))); reflexivity.
Defined.

(** X19. On an image of positive width and height and with a positive
    density the generator always returns, whatever the canvas draws: the
    buffer holds whole triples, at most three numbers per sampled pixel (so
    at most [3 * ceil(width / density) * ceil(height / density)]), none when
    no sampled pixel is bright or when there is no 2-D context, and exactly
    as many random numbers are drawn as numbers are emitted. *)
Theorem generated_cloud_size {num : Type} `{Arith num}
    (renderText : string -> Z -> Z -> option (list Z)) (Math_random : nat -> num)
    (k : nat) (text : string) (width height density : Z) :
  (0 < width)%Z -> (0 < height)%Z -> (0 < density)%Z ->
  exists cloud k' n,
    generateTextParticlesFrom renderText Math_random k text width height density
    = Some (cloud, k')
    /\ List.length cloud = (3 * n)%nat
    /\ k' = (List.length cloud + k)%nat
    /\ (n <= Grid.gridCount height density * Grid.gridCount width density)%nat
    /\ (renderText text width height = None -> cloud = [])
    /\ (forall data,
           renderText text width height = Some data ->
           n = List.length (Grid.brightSamples data width height density)).
Proof.
  intros _ _ Hd. destruct (renderText text width height) as [data|] eqn:Hdata.
  - rewrite (generate_scan Math_random data width height density Hd renderText k text Hdata).
    eexists _, _, (List.length (Grid.brightSamples data width height density)).
    split; [reflexivity|].
    rewrite length_map, emitAll_length.
    repeat split; try reflexivity.
    + unfold Grid.brightSamples. rewrite <- samples_length. apply filter_length_le.
    + discriminate.
    + now intros data' [= <-].
  - unfold generateTextParticlesFrom. rewrite Hdata.
    exists [], k, 0%nat. repeat split; try reflexivity; try lia. discriminate.
Qed.

Lemma generated_cloud_size_witness :
  exists cloud k' n,
    generateTextParticlesFrom Sample.whiteCanvas (fun _ => 0.25%float) 0 "A" 12 6 6
    = Some (cloud, k')
    /\ List.length cloud = (3 * n)%nat
    /\ k' = (List.length cloud + 0)%nat
    /\ (n <= Grid.gridCount 6 6 * Grid.gridCount 12 6)%nat
    /\ (Sample.whiteCanvas "A" 12 6 = None -> cloud = [])
    /\ (forall data,
           Sample.whiteCanvas "A" 12 6 = Some data ->
           n = List.length (Grid.brightSamples data 12 6 6)).
Proof. apply generated_cloud_size; reflexivity. Defined.

Lemma scanRow_never_returns {num : Type} `{Arith num} (Math_random : nat -> num)
    (data : list Z) (width height density : Z) (fuel : nat) :
  (density <= 0)%Z ->
  forall y x k positions,
    (x < width)%Z ->
    scanRow Math_random data width height density fuel y x k positions = None.
Proof.
  intros Hd. induction fuel as [|fuel IH]; intros y x k positions Hx; [reflexivity|].
  cbn [scanRow]. rewrite (proj2 (Z.ltb_lt x width) Hx).
  destruct (bright data ((y * width + x) * 4)); apply IH; lia.
Qed.

(** X20. With a density of zero or less, a drawn image and a positive width
    and height, the scan never returns: the column stays inside the image,
    so no amount of fuel lets the inner loop end, and the generator gives no
    result. *)
Theorem generator_does_not_return {num : Type} `{Arith num}
    (renderText : string -> Z -> Z -> option (list Z)) (Math_random : nat -> num)
    (text : string) (width height density : Z) (data : list Z) :
  (density <= 0)%Z -> (0 < width)%Z -> (0 < height)%Z ->
  renderText text width height = Some data ->
  (forall fuel k positions,
      scanRow Math_random data width height density fuel 0 0 k positions = None)
  /\ generateTextParticles renderText Math_random text width height density = None.
Proof.
  intros Hd Hw Hh Hdata. split.
  - intros fuel k positions. now apply scanRow_never_returns.
  - unfold generateTextParticles, generateTextParticlesFrom. rewrite Hdata.
    cbn [scanRows]. rewrite (proj2 (Z.ltb_lt 0 height) Hh).
    now rewrite scanRow_never_returns.
Qed.

Lemma generator_does_not_return_witness :
  (forall fuel k positions,
      scanRow (fun _ => 0.25%float) (repeat 255%Z (Z.to_nat (12 * 6 * 4))) 12 6 0
        fuel 0 0 k positions = None)
  /\ generateTextParticles Sample.whiteCanvas (fun _ => 0.25%float) "A" 12 6 0 = None.
Proof.
  apply (generator_does_not_return Sample.whiteCanvas (fun _ => 0.25%float) "A" 12 6 0
           (repeat 255%Z (Z.to_nat (12 * 6 * 4)))); first [reflexivity | discriminate].
Defined.

(* ------------------------------------------------------------------ *)
(** ** Glyph point-cloud generator: where the points come from *)

Section EmittedPoints.
Open Scope float_scope.
Variable Math_random : nat -> float.
Variables (width height density : Z).

(** The three numbers pushed for the pixel [(x, y)], as binary64 values. *)
Lemma emit_float (x y : Z) (k : nat) :
  emit Math_random width height density x y k
  = [((float_of_Z x + (Math_random k - 0.5) * float_of_Z density * 0.3)
      / float_of_Z width - 0.5) * 20;
     - ((float_of_Z y + (Math_random (S k) - 0.5) * float_of_Z density * 0.3)
        / float_of_Z height - 0.5) * 20 * (float_of_Z height / float_of_Z width);
     (Math_random (S (S k)) - 0.5) * 0.2].
Proof. reflexivity. Qed.

Lemma emitAll_emittedFrom (pixels : list (Z * Z)) :
  Forall (fun p => (0 <= fst p < width)%Z /\ (0 <= snd p < height)%Z
                   /\ (density | fst p)%Z /\ (density | snd p)%Z) pixels ->
  forall k,
    Spec.Triples (Spec.emittedFrom Math_random width height density)
      (map store32 (Grid.emitAll Math_random width height density k pixels)).
Proof.
  induction 1 as [|[x y] pixels (Hx & Hy & Dx & Dy) _ IH]; intros k; [constructor|].
  cbn [Grid.emitAll fst snd]. rewrite emit_float. cbn [app map].
  constructor; [|apply IH].
  exists x, y, k. cbn [fst snd] in *. cbv zeta.
  repeat split; first [assumption | lia | reflexivity].
Qed.

End EmittedPoints.

(** On an image of positive width and height, with a positive density and
    whatever the random numbers are, the scan terminates and every emitted
    point is computed as [Spec.emittedFrom] says, from a sampled pixel of the
    image. *)
Lemma generated_points_formula
    (renderText : string -> Z -> Z -> option (list Z)) (Math_random : nat -> float)
    (text : string) (width height density : Z) :
  (0 < width)%Z -> (0 < height)%Z -> (0 < density)%Z ->
  exists cloud,
    generateTextParticles renderText Math_random text width height density = Some cloud
    /\ Spec.Triples (Spec.emittedFrom Math_random width height density) cloud.
Proof.
  intros _ _ Hd. unfold generateTextParticles.
  destruct (renderText text width height) as [data|] eqn:Hdata.
  - rewrite (generate_scan Math_random data width height density Hd renderText 0 text Hdata).
    cbn [option_map fst]. eexists. split; [reflexivity|].
    apply emitAll_emittedFrom. apply Forall_forall. intros [x y] Hin.
    apply filter_In in Hin. destruct Hin as [Hin _].
    apply (samples_In _ _ _ _ _ Hd) in Hin. exact Hin.
  - unfold generateTextParticlesFrom. rewrite Hdata. cbn [option_map fst].
    exists []. split; [reflexivity | constructor].
Qed.


(* ------------------------------------------------------------------ *)
(** * Binary floating-point arithmetic *)

(** ** Powers of two *)

Section Powers.
Open Scope R_scope.

Lemma bpow_pos (e : Z) : 0 < bpow e.
Proof. apply powerRZ_lt. lra. Qed.

Lemma bpow_add (a b : Z) : bpow (a + b) = bpow a * bpow b.
Proof. apply powerRZ_add. lra. Qed.

Lemma bpow_0 : bpow 0 = 1.
Proof. reflexivity. Qed.

Lemma bpow_1 : bpow 1 = 2.
Proof. unfold bpow. simpl. lra. Qed.

Lemma bpow_m1 : bpow (-1) = / 2.
Proof. unfold bpow. simpl. f_equal. lra. Qed.

Lemma bpow_IZR (e : Z) : (0 <= e)%Z -> bpow e = IZR (2 ^ e).
Proof.
  intros He. destruct e as [|p|p]; [reflexivity| |lia].
  unfold bpow. simpl powerRZ. rewrite pow_IZR. now rewrite positive_nat_Z.
Qed.

Lemma bpow_opp (e : Z) : bpow (- e) = / bpow e.
Proof.
  assert (H : bpow (- e) * bpow e = 1) by (rewrite <- bpow_add, Z.add_opp_diag_l; reflexivity).
  pose proof (bpow_pos e). apply Rmult_eq_reg_r with (bpow e); [|lra].
  rewrite H. field. lra.
Qed.

Lemma bpow_ge_1 (e : Z) : (0 <= e)%Z -> 1 <= bpow e.
Proof.
  intros He. rewrite bpow_IZR by assumption. apply IZR_le.
  pose proof (Z.pow_pos_nonneg 2 e). lia.
Qed.

Lemma bpow_le (a b : Z) : (a <= b)%Z -> bpow a <= bpow b.
Proof.
  intros Hab. replace b with (a + (b - a))%Z by lia. rewrite bpow_add.
  pose proof (bpow_pos a). pose proof (bpow_ge_1 (b - a) ltac:(lia)). nra.
Qed.

Lemma bpow_lt (a b : Z) : (a < b)%Z -> bpow a < bpow b.
Proof.
  intros Hab. replace b with (a + 1 + (b - a - 1))%Z by lia. rewrite !bpow_add, bpow_1.
  pose proof (bpow_pos a). pose proof (bpow_ge_1 (b - a - 1) ltac:(lia)). nra.
Qed.

Lemma bpow_succ (a : Z) : bpow (a + 1) = 2 * bpow a.
Proof. rewrite bpow_add, bpow_1. lra. Qed.

End Powers.


(** ** Binary digits *)

Section Digits.
Open Scope R_scope.

Lemma digits2_pos_bounds (p : positive) :
  (2 ^ (Zpos (digits2_pos p) - 1) <= Zpos p < 2 ^ Zpos (digits2_pos p))%Z.
Proof.
  induction p as [p IH|p IH|]; cbn [digits2_pos].
  - rewrite Pos2Z.inj_succ. replace (Z.succ (Zpos (digits2_pos p)) - 1)%Z
      with (Z.succ (Zpos (digits2_pos p) - 1)) by lia.
    rewrite !Z.pow_succ_r by lia. lia.
  - rewrite Pos2Z.inj_succ. replace (Z.succ (Zpos (digits2_pos p)) - 1)%Z
      with (Z.succ (Zpos (digits2_pos p) - 1)) by lia.
    rewrite !Z.pow_succ_r by lia. lia.
  - cbn. lia.
Qed.

Lemma Zdigits2_nonneg (m : Z) : (0 <= Zdigits2 m)%Z.
Proof. destruct m; cbn; lia. Qed.

Lemma Zdigits2_upper (m : Z) : (0 <= m)%Z -> (m < 2 ^ Zdigits2 m)%Z.
Proof.
  destruct m as [|p|p]; intros H; [cbn; lia| |lia].
  apply digits2_pos_bounds.
Qed.

Lemma Zdigits2_lower (m : Z) : (0 < m)%Z -> (2 ^ (Zdigits2 m - 1) <= m)%Z.
Proof.
  destruct m as [|p|p]; intros H; [lia| |lia].
  apply digits2_pos_bounds.
Qed.

Lemma Zdigits2_pos (m : Z) : (0 < m)%Z -> (0 < Zdigits2 m)%Z.
Proof. destruct m; cbn; lia. Qed.

(** Fewer than [2 ^ k]: at most [k] digits. *)
Lemma Zdigits2_le (m k : Z) : (0 <= k)%Z -> (0 <= m < 2 ^ k)%Z -> (Zdigits2 m <= k)%Z.
Proof.
  intros Hk [H0 H1]. destruct (Z.eq_dec m 0) as [->|Hm]; [exact Hk|].
  pose proof (Zdigits2_lower m ltac:(lia)) as Hl.
  destruct (Z_le_gt_dec (Zdigits2 m) k) as [|Hgt]; [assumption|exfalso].
  assert (2 ^ k <= 2 ^ (Zdigits2 m - 1))%Z by (apply Z.pow_le_mono_r; lia).
  lia.
Qed.

Lemma Zdigits2_pow (k : Z) : (0 <= k)%Z -> Zdigits2 (2 ^ k) = (k + 1)%Z.
Proof.
  intros Hk. pose proof (Z.pow_pos_nonneg 2 k ltac:(lia) Hk) as Hp.
  pose proof (Zdigits2_lower _ Hp) as Hl. pose proof (Zdigits2_upper (2 ^ k) ltac:(lia)) as Hu.
  pose proof (Zdigits2_pos _ Hp) as Hd.
  assert (k < Zdigits2 (2 ^ k))%Z by (apply (Z.pow_lt_mono_r_iff 2); lia).
  assert (Zdigits2 (2 ^ k) - 1 <= k)%Z by (apply (Z.pow_le_mono_r_iff 2); lia).
  lia.
Qed.

End Digits.


(** ** Shifting a mantissa right *)

Section Shift.
Open Scope R_scope.

Lemma iter_pos_nat {A : Type} (f : A -> A) (p : positive) :
  forall x, iter_pos f p x = Nat.iter (Pos.to_nat p) f x.
Proof.
  induction p as [p IH|p IH|]; intros x; cbn [iter_pos].
  - rewrite !IH, Pos2Nat.inj_xI.
    replace (S (2 * Pos.to_nat p)) with (Pos.to_nat p + (Pos.to_nat p + 1))%nat by lia.
    rewrite !Nat.iter_add. reflexivity.
  - rewrite !IH, Pos2Nat.inj_xO.
    replace (2 * Pos.to_nat p)%nat with (Pos.to_nat p + Pos.to_nat p)%nat by lia.
    rewrite Nat.iter_add. reflexivity.
  - reflexivity.
Qed.

Lemma IZR_xI (p : positive) : IZR (Zpos p~1) = 2 * IZR (Zpos p) + 1.
Proof. rewrite Pos2Z.inj_xI, plus_IZR, mult_IZR. reflexivity. Qed.

Lemma IZR_xO (p : positive) : IZR (Zpos p~0) = 2 * IZR (Zpos p).
Proof. rewrite Pos2Z.inj_xO, mult_IZR. reflexivity. Qed.

Lemma shr_1_located (mrs : shr_record) (y : R) :
  located mrs y -> located (shr_1 mrs) (y / 2).
Proof.
  destruct mrs as [m r s]. unfold located. cbn [shr_m shr_r shr_s].
  intros [Hm Hy]. destruct m as [|p|p]; [| |lia].
  - destruct r, s; cbn [shr_1 orb shr_m shr_r shr_s]; split; try lia; lra.
  - destruct p as [p|p|]; [rewrite (IZR_xI p) in Hy | rewrite (IZR_xO p) in Hy | ];
      destruct r, s; cbn [shr_1 orb shr_m shr_r shr_s]; split; try lia; lra.
Qed.

Lemma shr_1_m (mrs : shr_record) :
  (0 <= shr_m mrs)%Z -> shr_m (shr_1 mrs) = (shr_m mrs / 2)%Z.
Proof.
  destruct mrs as [m r s]. cbn [shr_m]. intros Hm.
  destruct m as [|p|p]; [reflexivity| |lia].
  destruct p as [p|p|]; cbn [shr_1 shr_m].
  - rewrite Pos2Z.inj_xI. apply Z.div_unique with 1%Z; lia.
  - rewrite Pos2Z.inj_xO. apply Z.div_unique with 0%Z; lia.
  - reflexivity.
Qed.

Lemma iter_shr_located (n : nat) (mrs : shr_record) (y : R) :
  located mrs y ->
  located (Nat.iter n shr_1 mrs) (y * bpow (- Z.of_nat n))
  /\ shr_m (Nat.iter n shr_1 mrs) = (shr_m mrs / 2 ^ Z.of_nat n)%Z.
Proof.
  intros Hy. induction n as [|n [IH1 IH2]].
  - cbn [Nat.iter]. change (bpow (- Z.of_nat 0)) with 1. rewrite Rmult_1_r.
    split; [assumption|]. cbn. now rewrite Z.div_1_r.
  - change (Nat.iter (S n) shr_1 mrs) with (shr_1 (Nat.iter n shr_1 mrs)). split.
    + replace (y * bpow (- Z.of_nat (S n))) with (y * bpow (- Z.of_nat n) / 2).
      * now apply shr_1_located.
      * replace (- Z.of_nat (S n))%Z with (- Z.of_nat n + -1)%Z by lia.
        rewrite bpow_add, bpow_m1. lra.
    + rewrite shr_1_m by apply IH1. rewrite IH2.
      rewrite Nat2Z.inj_succ, Z.pow_succ_r by lia.
      rewrite Z.div_div by (try lia; apply Z.pow_pos_nonneg; lia).
      f_equal. lia.
Qed.

Lemma shr_located (mrs : shr_record) (e n : Z) (y : R) :
  located mrs y -> (0 <= n)%Z ->
  located (fst (shr mrs e n)) (y * bpow (- n))
  /\ shr_m (fst (shr mrs e n)) = (shr_m mrs / 2 ^ n)%Z
  /\ snd (shr mrs e n) = (e + n)%Z.
Proof.
  intros Hy Hn. destruct n as [|p|p]; [| |lia].
  - cbn [shr fst snd]. change (bpow (- 0)) with 1. change (2 ^ 0)%Z with 1%Z.
    rewrite Rmult_1_r, Z.div_1_r. split; [exact Hy | split; [reflexivity | lia]].
  - cbn [shr fst snd]. rewrite iter_pos_nat.
    destruct (iter_shr_located (Pos.to_nat p) mrs y Hy) as [H1 H2].
    rewrite positive_nat_Z in H1, H2. split; [exact H1 | split; [exact H2 | reflexivity]].
Qed.

Lemma shr_neg (mrs : shr_record) (e n : Z) : (n <= 0)%Z -> shr mrs e n = (mrs, e).
Proof. destruct n as [|p|p]; intros H; [reflexivity|lia|reflexivity]. Qed.

Lemma loc_of_record_of_loc (m : Z) (l : location) :
  loc_of_shr_record (shr_record_of_loc m l) = l.
Proof. destruct l as [|[| |]]; reflexivity. Qed.

Lemma shr_m_record_of_loc (m : Z) (l : location) : shr_m (shr_record_of_loc m l) = m.
Proof. destruct l as [|[| |]]; reflexivity. Qed.

(** Rounding to nearest, ties to even, stays within half a unit. *)
Lemma round_nearest_even_located (mrs : shr_record) (y : R) :
  located mrs y ->
  let m1 := round_nearest_even (shr_m mrs) (loc_of_shr_record mrs) in
  (shr_m mrs <= m1 <= shr_m mrs + 1)%Z
  /\ Rabs (IZR m1 - y) <= / 2
  /\ (shr_r mrs = false -> shr_s mrs = false -> m1 = shr_m mrs).
Proof.
  destruct mrs as [m r s]. unfold located. cbn [shr_m shr_r shr_s].
  intros [Hm Hy]. cbv zeta.
  destruct r, s; cbn [loc_of_shr_record round_nearest_even].
  - rewrite plus_IZR. repeat split; try lia; try discriminate.
    apply Rabs_le. lra.
  - destruct (Z.even m); rewrite ?plus_IZR; repeat split; try lia; try discriminate;
      apply Rabs_le; lra.
  - repeat split; try lia. apply Rabs_le. lra.
  - repeat split; try lia. apply Rabs_le. lra.
Qed.

End Shift.


(** ** Rounding to nearest *)

Section Round.
Open Scope R_scope.
Variables prec emax : Z.
Hypothesis Hprec : (0 < prec)%Z.

Lemma Rabs_bounds (a b : R) : Rabs a <= b -> - b <= a <= b.
Proof. unfold Rabs. destruct (Rcase_abs a); lra. Qed.

Lemma bpow_lt_inv (a b : Z) : bpow a < bpow b -> (a < b)%Z.
Proof.
  intros H. destruct (Z_lt_le_dec a b) as [|Hle]; [assumption|].
  pose proof (bpow_le b a Hle). lra.
Qed.

Lemma fexp_ge_emin (k : Z) : ((SpecFloat.emin prec emax) <= (SpecFloat.fexp prec emax) k)%Z.
Proof. unfold SpecFloat.fexp. lia. Qed.

Lemma fexp_ge (k : Z) : (k - prec <= (SpecFloat.fexp prec emax) k)%Z.
Proof. unfold SpecFloat.fexp. lia. Qed.

Lemma fexp_cases (k : Z) : (SpecFloat.fexp prec emax) k = (SpecFloat.emin prec emax) \/ ((SpecFloat.fexp prec emax) k = k - prec /\ (SpecFloat.emin prec emax) < k - prec)%Z.
Proof. unfold SpecFloat.fexp. lia. Qed.

(** The first shift of [binary_round_aux]. *)
Lemma shr_fexp_located (m e : Z) (l : location) (x : R) :
  (0 <= m)%Z ->
  located (shr_record_of_loc m l) (x * bpow (- e)) ->
  let E1 := Z.max e ((SpecFloat.fexp prec emax) (Zdigits2 m + e)) in
  located (fst (shr_fexp prec emax m e l)) (x * bpow (- E1))
  /\ snd (shr_fexp prec emax m e l) = E1
  /\ (0 <= shr_m (fst (shr_fexp prec emax m e l)) < 2 ^ prec)%Z
  /\ (((SpecFloat.fexp prec emax) (Zdigits2 m + e) <= e)%Z ->
      fst (shr_fexp prec emax m e l) = shr_record_of_loc m l).
Proof.
  intros Hm Hloc E1. unfold shr_fexp.
  set (d := Zdigits2 m) in *. set (E := (SpecFloat.fexp prec emax) (d + e)) in *.
  pose proof (fexp_ge (d + e)) as HE. fold E in HE.
  pose proof (Zdigits2_upper m Hm) as Hd. fold d in Hd.
  pose proof (Zdigits2_nonneg m) as Hd0. fold d in Hd0.
  destruct (Z_le_gt_dec (E - e) 0) as [Hn|Hn].
  - rewrite (shr_neg _ _ _ Hn). cbn [fst snd].
    assert (HE1 : E1 = e) by (subst E1; lia). rewrite HE1.
    split; [exact Hloc|]. split; [reflexivity|]. split; [|reflexivity].
    rewrite shr_m_record_of_loc. split; [exact Hm|].
    apply Z.lt_le_trans with (2 ^ d)%Z; [exact Hd|].
    apply Z.pow_le_mono_r; lia.
  - destruct (shr_located (shr_record_of_loc m l) e (E - e) _ Hloc ltac:(lia))
      as (H1 & H2 & H3).
    assert (HE1 : E1 = E) by (subst E1; lia). rewrite HE1.
    split.
    + replace (x * bpow (- E)) with (x * bpow (- e) * bpow (- (E - e))); [exact H1|].
      rewrite Rmult_assoc, <- bpow_add. f_equal. f_equal. lia.
    + split; [rewrite H3; lia|]. split; [|lia].
      rewrite H2, shr_m_record_of_loc.
      assert (Hp : (0 < 2 ^ (E - e))%Z) by (apply Z.pow_pos_nonneg; lia).
      split; [apply Z.div_pos; lia|].
      apply Z.div_lt_upper_bound; [exact Hp|].
      rewrite <- Z.pow_add_r by lia.
      apply Z.lt_le_trans with (2 ^ d)%Z; [exact Hd|].
      apply Z.pow_le_mono_r; lia.
Qed.

(** The second shift only renormalises a mantissa that rounding carried to
    [2 ^ prec]: it loses nothing. *)
Lemma shr_fexp_renormalise (m1 E1 : Z) :
  (0 <= m1 <= 2 ^ prec)%Z -> ((SpecFloat.emin prec emax) <= E1)%Z ->
  exists m2 e2,
    shr_m (fst (shr_fexp prec emax m1 E1 loc_Exact)) = m2
    /\ snd (shr_fexp prec emax m1 E1 loc_Exact) = e2
    /\ (0 <= m2)%Z
    /\ IZR m2 * bpow e2 = IZR m1 * bpow E1
    /\ (E1 <= e2 <= E1 + 1)%Z
    /\ (m2 < 2 ^ prec)%Z.
Proof.
  intros [H0 H1] HE. unfold shr_fexp.
  destruct (Z.eq_dec m1 (2 ^ prec)) as [->|Hne].
  - rewrite Zdigits2_pow by lia.
    assert (Hn : ((SpecFloat.fexp prec emax) (prec + 1 + E1) - E1 = 1)%Z) by (unfold SpecFloat.fexp; lia).
    rewrite Hn.
    assert (Hloc : located (shr_record_of_loc (2 ^ prec) loc_Exact) (IZR (2 ^ prec))).
    { split; cbn [shr_record_of_loc shr_m shr_r shr_s]; [lia|reflexivity]. }
    destruct (shr_located _ E1 1 _ Hloc ltac:(lia)) as (_ & H2 & H3).
    exists (2 ^ prec / 2 ^ 1)%Z, (E1 + 1)%Z.
    cbn [shr_record_of_loc shr_m] in H2.
    split; [exact H2|]. split; [exact H3|].
    assert (Hdiv : (2 ^ prec / 2 ^ 1 = 2 ^ (prec - 1))%Z).
    { replace prec with (prec - 1 + 1)%Z at 1 by lia.
      rewrite Z.pow_add_r by lia. apply Z.div_mul. cbn. lia. }
    rewrite Hdiv. split; [apply Z.pow_nonneg; lia|].
    split; [|split; [lia | apply Z.pow_lt_mono_r; lia]].
    rewrite bpow_succ.
    replace (2 ^ prec)%Z with (2 ^ (prec - 1) * 2)%Z
      by (rewrite Z.mul_comm, <- (Z.pow_succ_r 2 (prec - 1)) by lia; f_equal; lia).
    rewrite mult_IZR. lra.
  - assert (Hd : (Zdigits2 m1 <= prec)%Z) by (apply Zdigits2_le; lia).
    assert (Hn : ((SpecFloat.fexp prec emax) (Zdigits2 m1 + E1) - E1 <= 0)%Z) by (unfold SpecFloat.fexp; lia).
    rewrite (shr_neg _ _ _ Hn). cbn [fst snd shr_record_of_loc shr_m].
    exists m1, E1. repeat split; try lia.
Qed.

Lemma located_nonneg (mrs : shr_record) (y : R) : located mrs y -> IZR (shr_m mrs) <= y.
Proof.
  destruct mrs as [m r s]. unfold located. cbn [shr_m shr_r shr_s].
  intros [_ H]. destruct r, s; lra.
Qed.

Lemma located_exact (m : Z) (y : R) : located (shr_record_of_loc m loc_Exact) y -> y = IZR m.
Proof. intros [_ H]. exact H. Qed.

Lemma scale_back2 (x : R) (E : Z) : x * bpow E * bpow (- E) = x.
Proof. rewrite Rmult_assoc, <- bpow_add, Z.add_opp_diag_r, bpow_0. lra. Qed.

Lemma scale_back (x : R) (E : Z) : x * bpow (- E) * bpow E = x.
Proof. rewrite Rmult_assoc, <- bpow_add, Z.add_opp_diag_l, bpow_0. lra. Qed.

(** [binary_round_aux] (rounds_to prec emax) to nearest: for a non-negative number [x]
    below [2 ^ K], located by the mantissa [m], the exponent [e] and the
    location [l], it returns a finite number at most half a unit in the last
    place away from [x]. *)
Lemma binary_round_aux_correct (s : bool) (m e : Z) (l : location) (x : R) (K : Z) :
  (0 <= m)%Z ->
  located (shr_record_of_loc m l) (x * bpow (- e)) ->
  l = loc_Exact \/ (e <= (SpecFloat.fexp prec emax) (Zdigits2 m + e))%Z ->
  x < bpow K -> (K < emax - prec)%Z ->
  exists y,
    0 <= y
    /\ is_finite_SF (binary_round_aux prec emax s m e l) = true
    /\ B2R (binary_round_aux prec emax s m e l) = cond_Ropp s y
    /\ Rabs (y - x) <= bpow (- prec) * x + bpow ((SpecFloat.emin prec emax) - 1)
    /\ (l = loc_Exact -> ((SpecFloat.fexp prec emax) (Zdigits2 m + e) <= e)%Z -> y = x).
Proof.
  intros Hm Hloc Hcase Hx HK.
  set (d := Zdigits2 m) in *. set (E := (SpecFloat.fexp prec emax) (d + e)) in *.
  set (E1 := Z.max e E).
  destruct (shr_fexp_located m e l x Hm Hloc) as (L1 & L2 & L3 & L4).
  fold d E E1 in L1, L2, L4.
  unfold binary_round_aux.
  destruct (shr_fexp prec emax m e l) as [mrs' e'] eqn:Hshr.
  cbn [fst snd] in L1, L2, L3, L4. subst e'.
  destruct (round_nearest_even_located mrs' _ L1) as (R1 & R2 & R3).
  set (m1 := round_nearest_even (shr_m mrs') (loc_of_shr_record mrs')) in *.
  assert (HE1 : ((SpecFloat.emin prec emax) <= E1)%Z) by (pose proof (fexp_ge_emin (d + e)); subst E1 E; lia).
  destruct (shr_fexp_renormalise m1 E1 ltac:(lia) HE1)
    as (m2 & e2 & S1 & S2 & S3 & S4 & S5 & _).
  destruct (shr_fexp prec emax m1 E1 loc_Exact) as [mrs'' e''] eqn:Hshr2.
  cbn [fst snd] in S1, S2. subst e''. rewrite S1.
  pose proof (bpow_pos E1) as HbE1. pose proof (bpow_pos e) as Hbe.
  pose proof (located_nonneg _ _ L1) as Hx1.
  assert (Hx0 : 0 <= x).
  { assert (0 <= x * bpow (- E1)) by (apply Rle_trans with (IZR (shr_m mrs')); [apply IZR_le; lia | exact Hx1]).
    pose proof (bpow_pos (- E1)). nra. }
  (* the value returned *)
  set (y := IZR m1 * bpow E1).
  assert (Hy0 : 0 <= y).
  { subst y. assert (0 <= IZR m1) by (apply IZR_le; lia). nra. }
  assert (Herr : Rabs (y - x) <= / 2 * bpow E1).
  { replace (y - x) with ((IZR m1 - x * bpow (- E1)) * bpow E1)
      by (subst y; rewrite Rmult_minus_distr_r, scale_back; reflexivity).
    rewrite Rabs_mult, (Rabs_pos_eq (bpow E1)) by lra.
    apply Rmult_le_compat_r; [lra | exact R2]. }
  assert (Hexact : l = loc_Exact -> (E <= e)%Z -> y = x).
  { intros -> HEe. specialize (L4 HEe). subst mrs'.
    cbn [shr_record_of_loc shr_m shr_r shr_s] in *.
    rewrite (R3 eq_refl eq_refl) in *.
    apply located_exact in Hloc. subst y m1.
    replace E1 with e by (subst E1; lia).
    rewrite (R3 eq_refl eq_refl), <- Hloc. apply scale_back. }
  assert (Hbound : Rabs (y - x) <= bpow (- prec) * x + bpow ((SpecFloat.emin prec emax) - 1)).
  { pose proof (bpow_pos (- prec)). pose proof (bpow_pos ((SpecFloat.emin prec emax) - 1)).
    destruct (Z_le_gt_dec E e) as [HEe|HEe].
    - destruct Hcase as [Hl|He].
      + rewrite (Hexact Hl HEe). rewrite Rminus_diag, Rabs_R0. nra.
      + (* e = E: no shift, the location is rounded at exponent [E] *)
        assert (HEE : E1 = E) by (subst E1; lia).
        rewrite HEE in *. clear HEE.
        apply Rle_trans with (1 := Herr).
        destruct (fexp_cases (d + e)) as [Hc|[Hc Hc']]; fold E in Hc.
        * rewrite Hc. replace ((SpecFloat.emin prec emax)) with ((SpecFloat.emin prec emax) - 1 + 1)%Z at 1 by lia.
          rewrite bpow_succ. nra.
        * assert (Hm1 : (0 < m)%Z).
          { destruct (Z.eq_dec m 0) as [->|]; [|lia]. cbn in d. subst d. lia. }
          pose proof (Zdigits2_lower m Hm1) as Hlow. fold d in Hlow.
          assert (Hxm : IZR m * bpow e <= x).
          { pose proof (L4 ltac:(lia)) as L4'. subst mrs'.
            rewrite shr_m_record_of_loc in Hx1.
            replace E with e in Hx1 by lia.
            apply Rmult_le_compat_r with (r := bpow e) in Hx1; [|lra].
            rewrite scale_back in Hx1. exact Hx1. }
          assert (Hpw : bpow (d - 1 + e) <= IZR m * bpow e).
          { rewrite bpow_add. apply Rmult_le_compat_r; [lra|].
            rewrite bpow_IZR by (pose proof (Zdigits2_pos m Hm1); lia).
            now apply IZR_le. }
          replace (/ 2 * bpow E) with (bpow (- prec) * bpow (d - 1 + e)).
          -- assert (bpow (- prec) * bpow (d - 1 + e) <= bpow (- prec) * x)
               by (apply Rmult_le_compat_l; lra).
             lra.
          -- rewrite <- bpow_add. replace (- prec + (d - 1 + e))%Z with (E + -1)%Z by lia.
             rewrite bpow_add, bpow_m1. lra.
    - assert (HEE : E1 = E) by (subst E1; lia).
      rewrite HEE in *. clear HEE.
      apply Rle_trans with (1 := Herr).
      destruct (fexp_cases (d + e)) as [Hc|[Hc Hc']]; fold E in Hc.
      + rewrite Hc. replace ((SpecFloat.emin prec emax)) with ((SpecFloat.emin prec emax) - 1 + 1)%Z at 1 by lia.
        rewrite bpow_succ. nra.
      + assert (Hm1 : (0 < m)%Z).
        { destruct (Z.eq_dec m 0) as [->|]; [|lia]. cbn in d. subst d. lia. }
        pose proof (Zdigits2_lower m Hm1) as Hlow. fold d in Hlow.
        assert (Hxm : IZR m * bpow e <= x).
        { pose proof (located_nonneg _ _ Hloc) as Hx2.
          rewrite shr_m_record_of_loc in Hx2.
          apply Rmult_le_compat_r with (r := bpow e) in Hx2; [|lra].
          rewrite scale_back in Hx2. exact Hx2. }
        assert (Hpw : bpow (d - 1 + e) <= IZR m * bpow e).
        { rewrite bpow_add. apply Rmult_le_compat_r; [lra|].
          rewrite bpow_IZR by (pose proof (Zdigits2_pos m Hm1); lia).
          now apply IZR_le. }
        replace (/ 2 * bpow E) with (bpow (- prec) * bpow (d - 1 + e)).
        * assert (bpow (- prec) * bpow (d - 1 + e) <= bpow (- prec) * x)
            by (apply Rmult_le_compat_l; lra).
          lra.
        * rewrite <- bpow_add. replace (- prec + (d - 1 + e))%Z with (E + -1)%Z by lia.
          rewrite bpow_add, bpow_m1. lra. }
  exists y. split; [exact Hy0|].
  assert (Hval : IZR m2 * bpow e2 = y) by exact S4.
  destruct m2 as [|p|p]; [| |lia].
  - split; [reflexivity|]. split; [|split; [exact Hbound | exact Hexact]].
    cbn [B2R]. rewrite <- Hval. destruct s; cbn [cond_Ropp]; lra.
  - (* no overflow *)
    assert (Hone : 1 <= IZR m1).
    { destruct (Z.eq_dec m1 0) as [H0|H0].
      - exfalso. rewrite H0 in S4. rewrite Rmult_0_l in S4.
        assert (0 < IZR (Z.pos p)) by (apply IZR_lt; lia).
        pose proof (bpow_pos e2). nra.
      - apply IZR_le. lia. }
    assert (HK1 : (E1 <= K)%Z).
    { assert (Hlow : bpow (E1 - 1) <= x).
      { replace (E1 - 1)%Z with (E1 + -1)%Z by lia. rewrite bpow_add, bpow_m1.
        apply Rabs_bounds in Herr. subst y. nra. }
      assert (bpow (E1 - 1) < bpow K) by lra.
      apply bpow_lt_inv in H. lia. }
    assert (Hleb : (e2 <=? emax - prec)%Z = true) by (apply Z.leb_le; lia).
    rewrite Hleb. split; [reflexivity|]. split; [|split; [exact Hbound | exact Hexact]].
    cbn [B2R]. now rewrite Hval.
Qed.

Lemma located_exists (m : Z) (l : location) :
  (0 <= m)%Z -> exists y, located (shr_record_of_loc m l) y.
Proof.
  intros Hm. destruct l as [|[| |]].
  - exists (IZR m). split; [exact Hm | reflexivity].
  - exists (IZR m + / 2). split; [exact Hm | reflexivity].
  - exists (IZR m + / 4). split; [exact Hm | cbn [shr_record_of_loc shr_m shr_r shr_s]; lra].
  - exists (IZR m + 3 / 4). split; [exact Hm | cbn [shr_record_of_loc shr_m shr_r shr_s]; lra].
Qed.

(** A finite result of [binary_round_aux] is a number of the format. *)
Lemma binary_round_aux_format (s : bool) (m e : Z) (l : location) :
  (0 <= m)%Z ->
  match binary_round_aux prec emax s m e l with
  | S754_finite s2 m2 e2 => s2 = s /\ (Zpos m2 < 2 ^ prec)%Z /\ ((SpecFloat.emin prec emax) <= e2 <= emax - prec)%Z
  | _ => True
  end.
Proof.
  intros Hm. destruct (located_exists m l Hm) as [y0 Hy0].
  assert (Hloc : located (shr_record_of_loc m l) (y0 * bpow e * bpow (- e)))
    by (rewrite scale_back2; exact Hy0).
  destruct (shr_fexp_located m e l _ Hm Hloc) as (L1 & L2 & L3 & _).
  unfold binary_round_aux.
  destruct (shr_fexp prec emax m e l) as [mrs' e'] eqn:Hshr.
  cbn [fst snd] in L1, L2, L3. subst e'.
  destruct (round_nearest_even_located mrs' _ L1) as (R1 & _ & _).
  set (m1 := round_nearest_even (shr_m mrs') (loc_of_shr_record mrs')) in *.
  set (E1 := Z.max e ((SpecFloat.fexp prec emax) (Zdigits2 m + e))) in *.
  assert (HE1 : ((SpecFloat.emin prec emax) <= E1)%Z) by (pose proof (fexp_ge_emin (Zdigits2 m + e)); subst E1; lia).
  destruct (shr_fexp_renormalise m1 E1 ltac:(lia) HE1)
    as (m2 & e2 & S1 & S2 & S3 & S4 & S5 & S6).
  destruct (shr_fexp prec emax m1 E1 loc_Exact) as [mrs'' e''] eqn:Hshr2.
  cbn [fst snd] in S1, S2. subst e''. rewrite S1.
  destruct m2 as [|p|p]; [exact I| |exact I].
  destruct (e2 <=? emax - prec)%Z eqn:Hleb; [|exact I].
  apply Z.leb_le in Hleb. repeat split; lia.
Qed.

Lemma iter_xO_value (m d : positive) :
  Zpos (Pos.iter xO m d) = (Zpos m * 2 ^ Zpos d)%Z.
Proof.
  induction d as [|d IH] using Pos.peano_ind.
  - cbn [Pos.iter]. rewrite Pos2Z.inj_xO. change (2 ^ 1)%Z with 2%Z. lia.
  - rewrite Pos.iter_succ, Pos2Z.inj_xO, IH, Pos2Z.inj_succ, Z.pow_succ_r by lia. lia.
Qed.

Lemma iter_xO_digits (m d : positive) :
  Zpos (digits2_pos (Pos.iter xO m d)) = (Zpos (digits2_pos m) + Zpos d)%Z.
Proof.
  induction d as [|d IH] using Pos.peano_ind.
  - cbn [Pos.iter digits2_pos]. lia.
  - rewrite Pos.iter_succ. cbn [digits2_pos]. rewrite Pos2Z.inj_succ, IH. lia.
Qed.

(** Aligning a mantissa on a smaller exponent keeps the value. *)
Lemma shl_align_value (m : positive) (e e' : Z) :
  let '(mz, ez) := shl_align m e e' in
  IZR (Zpos mz) * bpow ez = IZR (Zpos m) * bpow e
  /\ ez = Z.min e e'
  /\ (Zpos (digits2_pos mz) + ez = Zpos (digits2_pos m) + e)%Z.
Proof.
  unfold shl_align. destruct (e' - e)%Z as [|d|d] eqn:Hd.
  - repeat split; lia.
  - repeat split; lia.
  - rewrite iter_xO_value, iter_xO_digits. split; [|split; lia].
    rewrite mult_IZR, <- bpow_IZR by lia.
    rewrite Rmult_assoc, <- bpow_add. f_equal. f_equal. lia.
Qed.

(** [binary_round] (rounds_to prec emax) [m * 2 ^ e] to nearest, and is exact when the
    number fits the format. *)
Lemma binary_round_correct (s : bool) (m : positive) (e K : Z) :
  IZR (Zpos m) * bpow e < bpow K -> (K < emax - prec)%Z ->
  exists y,
    0 <= y
    /\ is_finite_SF (binary_round prec emax s m e) = true
    /\ B2R (binary_round prec emax s m e) = cond_Ropp s y
    /\ Rabs (y - IZR (Zpos m) * bpow e)
       <= bpow (- prec) * (IZR (Zpos m) * bpow e) + bpow ((SpecFloat.emin prec emax) - 1)
    /\ (((SpecFloat.fexp prec emax) (Zpos (digits2_pos m) + e) <= e)%Z -> y = IZR (Zpos m) * bpow e).
Proof.
  intros Hx HK. unfold binary_round.
  pose proof (shl_align_value m e ((SpecFloat.fexp prec emax) (Zpos (digits2_pos m) + e))) as Hal.
  destruct (shl_align m e ((SpecFloat.fexp prec emax) (Zpos (digits2_pos m) + e))) as [mz ez].
  destruct Hal as (Hv & Hez & Hdig).
  destruct (binary_round_aux_correct s (Zpos mz) ez loc_Exact (IZR (Zpos m) * bpow e) K)
    as (y & Y0 & Y1 & Y2 & Y3 & Y4); try assumption; try lia.
  - split; cbn [shr_record_of_loc shr_m shr_r shr_s]; [lia|].
    rewrite <- Hv. apply scale_back2.
  - now left.
  - exists y. repeat split; try assumption.
    intros Hfit. apply Y4; [reflexivity|].
    cbn [Zdigits2]. rewrite Hdig. lia.
Qed.

Lemma binary_round_format (s : bool) (m : positive) (e : Z) :
  match binary_round prec emax s m e with
  | S754_finite s2 m2 e2 => s2 = s /\ (Zpos m2 < 2 ^ prec)%Z /\ ((SpecFloat.emin prec emax) <= e2 <= emax - prec)%Z
  | _ => True
  end.
Proof.
  unfold binary_round. destruct (shl_align m e _) as [mz ez].
  apply binary_round_aux_format. lia.
Qed.

(** A number that fits the format is returned as it is, on its canonical
    exponent. *)
Lemma binary_round_exact (s : bool) (m : positive) (e : Z) :
  let E := (SpecFloat.fexp prec emax) (Zpos (digits2_pos m) + e) in
  (E <= e)%Z -> (E <= emax - prec)%Z ->
  binary_round prec emax s m e = S754_finite s (fst (shl_align m e E)) E.
Proof.
  intros E HE Hmax. unfold binary_round. fold E.
  pose proof (shl_align_value m e E) as Hal.
  destruct (shl_align m e E) as [mz ez]. destruct Hal as (_ & Hez & Hdig).
  assert (Hmin : Z.min e E = E) by lia. rewrite Hmin in Hez. subst ez. cbn [fst].
  unfold binary_round_aux, shr_fexp. cbn [Zdigits2]. rewrite Hdig. fold E.
  rewrite Z.sub_diag. cbn [shr shr_record_of_loc shr_m loc_of_shr_record round_nearest_even].
  cbn [Zdigits2]. rewrite Hdig. fold E. rewrite Z.sub_diag.
  cbn [shr shr_m]. now rewrite (proj2 (Z.leb_le E (emax - prec)) Hmax).
Qed.

Lemma cond_Ropp_IZR (s : bool) (m : Z) : cond_Ropp s (IZR m) = IZR (cond_Zopp s m).
Proof. destruct s; cbn; [now rewrite opp_IZR | reflexivity]. Qed.

Lemma rounds_to_exact (r : spec_float) : is_finite_SF r = true -> rounds_to prec emax (B2R r) r.
Proof.
  intros Hr. split; [exact Hr|]. rewrite Rminus_diag, Rabs_R0.
  pose proof (bpow_pos (- prec)). pose proof (bpow_pos ((SpecFloat.emin prec emax) - 1)).
  pose proof (Rabs_pos (B2R r)). nra.
Qed.

Lemma cond_Ropp_rounds (s : bool) (x y : R) (b : R) :
  0 <= x -> Rabs (y - x) <= b -> Rabs (cond_Ropp s y - cond_Ropp s x) <= b.
Proof.
  intros Hx H. destruct s; cbn [cond_Ropp]; [|exact H].
  replace (- y - - x) with (- (y - x)) by lra. now rewrite Rabs_Ropp.
Qed.

Lemma binary_normalize_correct (m e K : Z) (szero : bool) :
  Rabs (IZR m * bpow e) < bpow K -> (K < emax - prec)%Z ->
  rounds_to prec emax (IZR m * bpow e) (binary_normalize prec emax m e szero)
  /\ (((SpecFloat.fexp prec emax) (Zdigits2 m + e) <= e)%Z ->
      B2R (binary_normalize prec emax m e szero) = IZR m * bpow e).
Proof.
  intros Hx HK. pose proof (bpow_pos e) as Hbe.
  destruct m as [|p|p]; cbn [binary_normalize Zdigits2].
  - rewrite Rmult_0_l. split; [|reflexivity].
    apply (rounds_to_exact (S754_zero szero)). reflexivity.
  - assert (Hpos : 0 < IZR (Zpos p) * bpow e).
    { assert (0 < IZR (Zpos p)) by (apply IZR_lt; lia). nra. }
    rewrite Rabs_pos_eq in Hx by lra.
    destruct (binary_round_correct false p e K Hx HK) as (y & Y0 & Y1 & Y2 & Y3 & Y4).
    cbn [cond_Ropp] in Y2. split.
    + split; [exact Y1|]. rewrite Y2, (Rabs_pos_eq (IZR (Zpos p) * bpow e)) by lra. exact Y3.
    + intros Hfit. rewrite Y2. now apply Y4.
  - assert (Hpos : 0 < IZR (Zpos p) * bpow e).
    { assert (0 < IZR (Zpos p)) by (apply IZR_lt; lia). nra. }
    assert (Hneg : IZR (Zneg p) * bpow e = - (IZR (Zpos p) * bpow e)).
    { change (Zneg p) with (- Zpos p)%Z. rewrite opp_IZR. lra. }
    rewrite Hneg, Rabs_Ropp, Rabs_pos_eq in Hx by lra.
    destruct (binary_round_correct true p e K Hx HK) as (y & Y0 & Y1 & Y2 & Y3 & Y4).
    cbn [cond_Ropp] in Y2. rewrite Hneg. split.
    + split; [exact Y1|]. rewrite Y2, Rabs_Ropp, (Rabs_pos_eq (IZR (Zpos p) * bpow e)) by lra.
      replace (- y - - (IZR (Zpos p) * bpow e)) with (- (y - IZR (Zpos p) * bpow e)) by lra.
      rewrite Rabs_Ropp. exact Y3.
    + intros Hfit. rewrite Y2. f_equal. now apply Y4.
Qed.

End Round.


(** ** Multiplication, addition, subtraction *)

Section Operations.
Open Scope R_scope.
Variables prec emax : Z.
Hypothesis Hprec : (0 < prec)%Z.

Lemma rounds_zero (x : R) (s : bool) : x = 0 -> (rounds_to prec emax) x (S754_zero s).
Proof. intros ->. apply (rounds_to_exact prec emax (S754_zero s)). reflexivity. Qed.

Lemma rounds_same (x : R) (r : spec_float) :
  is_finite_SF r = true -> x = B2R r -> (rounds_to prec emax) x r.
Proof. intros Hr ->. now apply rounds_to_exact. Qed.

Lemma Rabs_cond_Ropp (s : bool) (x : R) : Rabs (cond_Ropp s x) = Rabs x.
Proof. destruct s; cbn [cond_Ropp]; [apply Rabs_Ropp | reflexivity]. Qed.

Lemma cond_Ropp_mult (s1 s2 : bool) (x y : R) :
  cond_Ropp s1 x * cond_Ropp s2 y = cond_Ropp (xorb s1 s2) (x * y).
Proof. destruct s1, s2; cbn [cond_Ropp xorb]; lra. Qed.

Lemma cond_Ropp_div (s1 s2 : bool) (x y : R) :
  y <> 0 -> cond_Ropp s1 x / cond_Ropp s2 y = cond_Ropp (xorb s1 s2) (x / y).
Proof. intros Hy. destruct s1, s2; cbn [cond_Ropp xorb]; field; lra. Qed.

Lemma finite_value_pos (m : positive) (e : Z) : 0 < IZR (Zpos m) * bpow e.
Proof.
  assert (0 < IZR (Zpos m)) by (apply IZR_lt; lia). pose proof (bpow_pos e). nra.
Qed.

(** The result of [binary_round_aux] on a positive number, with the sign put
    back. *)
Lemma round_aux_signed (s : bool) (m e : Z) (l : location) (x : R) (K : Z) :
  (0 <= m)%Z ->
  located (shr_record_of_loc m l) (x * bpow (- e)) ->
  l = loc_Exact \/ (e <= (SpecFloat.fexp prec emax) (Zdigits2 m + e))%Z ->
  x < bpow K -> (K < emax - prec)%Z ->
  (rounds_to prec emax) (cond_Ropp s x) (binary_round_aux prec emax s m e l).
Proof.
  intros Hm Hloc Hcase Hx HK.
  destruct (binary_round_aux_correct prec emax Hprec s m e l x K Hm Hloc Hcase Hx HK)
    as (y & Y0 & Y1 & Y2 & Y3 & _).
  assert (Hx0 : 0 <= x).
  { pose proof (located_nonneg _ _ Hloc) as H. rewrite shr_m_record_of_loc in H.
    assert (0 <= x * bpow (- e)) by (apply Rle_trans with (IZR m); [apply IZR_le; lia | exact H]).
    pose proof (bpow_pos (- e)). nra. }
  split; [exact Y1|]. rewrite Y2, Rabs_cond_Ropp, (Rabs_pos_eq x) by exact Hx0.
  now apply cond_Ropp_rounds.
Qed.

Theorem SFmul_correct (a b : spec_float) (K : Z) :
  is_finite_SF a = true -> is_finite_SF b = true ->
  Rabs (B2R a * B2R b) < bpow K -> (K < emax - prec)%Z ->
  (rounds_to prec emax) (B2R a * B2R b) (SFmul prec emax a b).
Proof.
  intros Ha Hb Hx HK.
  destruct a as [sa|sa| |sa ma ea]; try discriminate Ha;
    destruct b as [sb|sb| |sb mb eb]; try discriminate Hb; cbn [SFmul B2R];
    try (apply rounds_zero; lra).
  cbn [B2R] in Hx. rewrite cond_Ropp_mult in *. rewrite Rabs_cond_Ropp in Hx.
  assert (Hprod : IZR (Zpos ma) * bpow ea * (IZR (Zpos mb) * bpow eb)
                  = IZR (Zpos (ma * mb)) * bpow (ea + eb)).
  { rewrite Pos2Z.inj_mul, mult_IZR, bpow_add. lra. }
  rewrite Hprod in *.
  pose proof (finite_value_pos (ma * mb) (ea + eb)) as Hpos.
  rewrite Rabs_pos_eq in Hx by lra.
  apply round_aux_signed with (K := K); try assumption; try lia.
  - split; cbn [shr_record_of_loc shr_m shr_r shr_s]; [lia|]. apply scale_back2.
  - now left.
Qed.

Lemma shl_align_fst (m : positive) (e ez : Z) :
  (ez <= e)%Z ->
  IZR (Zpos (fst (shl_align m e ez))) * bpow ez = IZR (Zpos m) * bpow e.
Proof.
  intros Hle. pose proof (shl_align_value m e ez) as H.
  destruct (shl_align m e ez) as [mz ez']. destruct H as (Hv & He & _).
  cbn [fst]. replace ez with ez' by lia. exact Hv.
Qed.

Theorem SFadd_correct (a b : spec_float) (K : Z) :
  is_finite_SF a = true -> is_finite_SF b = true ->
  Rabs (B2R a + B2R b) < bpow K -> (K < emax - prec)%Z ->
  (rounds_to prec emax) (B2R a + B2R b) (SFadd prec emax a b).
Proof.
  intros Ha Hb Hx HK.
  destruct a as [sa|sa| |sa ma ea]; try discriminate Ha;
    destruct b as [sb|sb| |sb mb eb]; try discriminate Hb; cbn [SFadd].
  - destruct sa, sb; apply rounds_zero; cbn [B2R]; lra.
  - apply rounds_same; [reflexivity | cbn [B2R]; lra].
  - apply rounds_same; [reflexivity | cbn [B2R]; lra].
  - set (ez := Z.min ea eb).
    pose proof (shl_align_fst ma ea ez ltac:(lia)) as Ea.
    pose proof (shl_align_fst mb eb ez ltac:(lia)) as Eb.
    set (ma' := fst (shl_align ma ea ez)) in *. set (mb' := fst (shl_align mb eb ez)) in *.
    assert (Hsum : B2R (S754_finite sa ma ea) + B2R (S754_finite sb mb eb)
                   = IZR (cond_Zopp sa (Zpos ma') + cond_Zopp sb (Zpos mb')) * bpow ez).
    { cbn [B2R]. rewrite plus_IZR, <- !cond_Ropp_IZR, <- Ea, <- Eb.
      destruct sa, sb; cbn [cond_Ropp]; lra. }
    rewrite Hsum in *.
    apply (binary_normalize_correct prec emax Hprec _ _ K false Hx HK).
Qed.

Theorem SFsub_correct (a b : spec_float) (K : Z) :
  is_finite_SF a = true -> is_finite_SF b = true ->
  Rabs (B2R a - B2R b) < bpow K -> (K < emax - prec)%Z ->
  (rounds_to prec emax) (B2R a - B2R b) (SFsub prec emax a b).
Proof.
  intros Ha Hb Hx HK.
  destruct a as [sa|sa| |sa ma ea]; try discriminate Ha;
    destruct b as [sb|sb| |sb mb eb]; try discriminate Hb; cbn [SFsub].
  - destruct sa, sb; apply rounds_zero; cbn [B2R]; lra.
  - apply rounds_same; [reflexivity | cbn [B2R]; destruct sb; cbn [negb cond_Ropp]; lra].
  - apply rounds_same; [reflexivity | cbn [B2R]; lra].
  - set (ez := Z.min ea eb).
    pose proof (shl_align_fst ma ea ez ltac:(lia)) as Ea.
    pose proof (shl_align_fst mb eb ez ltac:(lia)) as Eb.
    set (ma' := fst (shl_align ma ea ez)) in *. set (mb' := fst (shl_align mb eb ez)) in *.
    assert (Hsum : B2R (S754_finite sa ma ea) - B2R (S754_finite sb mb eb)
                   = IZR (cond_Zopp sa (Zpos ma') - cond_Zopp sb (Zpos mb')) * bpow ez).
    { cbn [B2R]. rewrite minus_IZR, <- !cond_Ropp_IZR, <- Ea, <- Eb.
      destruct sa, sb; cbn [cond_Ropp]; lra. }
    rewrite Hsum in *.
    apply (binary_normalize_correct prec emax Hprec _ _ K false Hx HK).
Qed.

Lemma SFopp_correct (a : spec_float) :
  is_finite_SF (SFopp a) = is_finite_SF a /\ B2R (SFopp a) = - B2R a.
Proof.
  destruct a as [s|s| |s m e]; cbn [SFopp is_finite_SF B2R]; split; try reflexivity; try lra.
  destruct s; cbn [negb cond_Ropp]; lra.
Qed.

End Operations.


(** ** Division *)

Section Division.
Open Scope R_scope.
Variables prec emax : Z.
Hypothesis Hprec : (0 < prec)%Z.

(** Where the remainder [r] of a division by [b] lies. *)
Lemma new_location_located (q b r : Z) (y : R) :
  (0 <= q)%Z -> (0 <= r < b)%Z -> y = IZR q + IZR r / IZR b ->
  located (shr_record_of_loc q (new_location b r)) y.
Proof.
  intros Hq Hr ->.
  assert (Hb : 0 < IZR b) by (apply IZR_lt; lia).
  assert (Hr0 : 0 <= IZR r) by (apply IZR_le; lia).
  assert (Hfrac : forall c : R, (IZR r / IZR b < c <-> IZR r < c * IZR b)
                                /\ (c < IZR r / IZR b <-> c * IZR b < IZR r)).
  { intros c. split; split; intros H.
    - apply Rmult_lt_compat_r with (r := IZR b) in H; [|exact Hb].
      unfold Rdiv in H. rewrite Rmult_assoc, Rinv_l, Rmult_1_r in H by lra. exact H.
    - apply Rmult_lt_reg_r with (IZR b); [exact Hb|].
      unfold Rdiv. rewrite Rmult_assoc, Rinv_l, Rmult_1_r by lra. exact H.
    - apply Rmult_lt_compat_r with (r := IZR b) in H; [|exact Hb].
      unfold Rdiv in H. rewrite Rmult_assoc, Rinv_l, Rmult_1_r in H by lra. exact H.
    - apply Rmult_lt_reg_r with (IZR b); [exact Hb|].
      unfold Rdiv. rewrite Rmult_assoc, Rinv_l, Rmult_1_r by lra. exact H. }
  assert (Hlt1 : IZR r / IZR b < 1).
  { apply (proj1 (Hfrac 1)). rewrite Rmult_1_l. apply IZR_lt. lia. }
  assert (Hcmp : forall c, (2 * r ?= b)%Z = c ->
            match c with
            | Lt => IZR r / IZR b < / 2
            | Eq => IZR r / IZR b = / 2
            | Gt => / 2 < IZR r / IZR b
            end).
  { intros c Hc. destruct c.
    - apply Z.compare_eq in Hc. apply (f_equal IZR) in Hc. rewrite mult_IZR in Hc.
      apply Rmult_eq_reg_r with (IZR b); [|lra].
      unfold Rdiv. rewrite Rmult_assoc, Rinv_l, Rmult_1_r by lra. lra.
    - apply (proj1 (Z.compare_lt_iff _ _)) in Hc. apply IZR_lt in Hc. rewrite mult_IZR in Hc.
      apply (proj2 (proj1 (Hfrac (/ 2)))). lra.
    - apply (proj1 (Z.compare_gt_iff _ _)) in Hc. apply IZR_lt in Hc. rewrite mult_IZR in Hc.
      apply (proj2 (proj2 (Hfrac (/ 2)))). lra. }
  assert (Hpos : r <> 0%Z -> 0 < IZR r / IZR b).
  { intros Hne. apply (proj2 (proj2 (Hfrac 0))). rewrite Rmult_0_l. apply IZR_lt. lia. }
  unfold new_location.
  destruct (Z.even b) eqn:Heven.
  - unfold new_location_even. destruct (Z.eqb_spec r 0) as [->|Hne].
    + split; cbn [shr_record_of_loc shr_m shr_r shr_s]; [exact Hq|].
      unfold Rdiv. rewrite Rmult_0_l. lra.
    + specialize (Hpos Hne). specialize (Hcmp _ eq_refl).
      destruct (2 * r ?= b)%Z; split; cbn [shr_record_of_loc shr_m shr_r shr_s];
        try exact Hq; lra.
  - unfold new_location_odd. destruct (Z.eqb_spec r 0) as [->|Hne].
    + split; cbn [shr_record_of_loc shr_m shr_r shr_s]; [exact Hq|].
      unfold Rdiv. rewrite Rmult_0_l. lra.
    + specialize (Hpos Hne).
      assert (Hodd : (2 * r <> b)%Z).
      { intros <-. rewrite Z.even_mul in Heven. discriminate Heven. }
      destruct (2 * r + 1 ?= b)%Z eqn:Hc.
      * apply Z.compare_eq in Hc.
        pose proof (Hcmp Lt ltac:(apply Z.compare_lt_iff; lia)) as H.
        split; cbn [shr_record_of_loc shr_m shr_r shr_s]; try exact Hq; lra.
      * apply (proj1 (Z.compare_lt_iff _ _)) in Hc.
        pose proof (Hcmp Lt ltac:(apply Z.compare_lt_iff; lia)) as H.
        split; cbn [shr_record_of_loc shr_m shr_r shr_s]; try exact Hq; lra.
      * apply (proj1 (Z.compare_gt_iff _ _)) in Hc.
        pose proof (Hcmp Gt ltac:(apply Z.compare_gt_iff; lia)) as H.
        split; cbn [shr_record_of_loc shr_m shr_r shr_s]; try exact Hq; lra.
Qed.

(** The quotient computed by [SFdiv_core_binary] has at least [prec] digits
    (or sits at the smallest exponent), and its location is that of the
    exact quotient. *)
Lemma SFdiv_core_binary_correct (m1 m2 : positive) (e1 e2 : Z) :
  let x := (IZR (Zpos m1) * bpow e1) / (IZR (Zpos m2) * bpow e2) in
  let '(q, e', l) := SFdiv_core_binary prec emax (Zpos m1) e1 (Zpos m2) e2 in
  (0 <= q)%Z
  /\ located (shr_record_of_loc q l) (x * bpow (- e'))
  /\ (e' <= (SpecFloat.fexp prec emax) (Zdigits2 q + e'))%Z.
Proof.
  intros x. unfold SFdiv_core_binary.
  set (d1 := Zdigits2 (Zpos m1)). set (d2 := Zdigits2 (Zpos m2)).
  set (e' := Z.min ((SpecFloat.fexp prec emax) (d1 + e1 - (d2 + e2))) (e1 - e2)).
  set (s := (e1 - e2 - e')%Z).
  assert (Hs : (0 <= s)%Z) by (subst s e'; lia).
  set (m' := match s with
             | 0%Z => Zpos m1
             | Zpos _ => Z.shiftl (Zpos m1) s
             | Zneg _ => 0%Z
             end).
  assert (Hm' : m' = (Zpos m1 * 2 ^ s)%Z).
  { subst m'. destruct s as [|p|p] eqn:Es; [cbn; lia| |lia].
    now rewrite Z.shiftl_mul_pow2 by lia. }
  clearbody m'.
  pose proof (Z_div_mod m' (Zpos m2) ltac:(lia)) as Hdm.
  destruct (Z.div_eucl m' (Zpos m2)) as [q r] eqn:Hqr.
  destruct Hdm as [Hdm Hr].
  assert (Hp2 : (0 < 2 ^ s)%Z) by (apply Z.pow_pos_nonneg; lia).
  assert (Hq : (0 <= q)%Z) by nia.
  split; [exact Hq|].
  pose proof (finite_value_pos m2 e2) as Hden.
  pose proof (bpow_pos e1) as Hb1. pose proof (bpow_pos e2) as Hb2.
  assert (Hm2 : 0 < IZR (Zpos m2)) by (apply IZR_lt; lia).
  split.
  - apply new_location_located; [exact Hq | exact Hr |].
    assert (Hx : x * bpow (- e') = IZR m' / IZR (Zpos m2)).
    { subst x. rewrite Hm', mult_IZR, <- bpow_IZR by exact Hs.
      replace e1 with (s + e2 + e')%Z at 1 by (subst s; lia).
      rewrite !bpow_add, bpow_opp. pose proof (bpow_pos e'). pose proof (bpow_pos s).
      field. lra. }
    rewrite Hx, Hdm, plus_IZR, mult_IZR. field. lra.
  - (* enough digits *)
    destruct (fexp_cases prec emax (d1 + e1 - (d2 + e2))) as [Hc|[Hc Hc']].
    + pose proof (fexp_ge_emin prec emax (Zdigits2 q + e')). subst e'. lia.
    + assert (Hk : (prec - 1 <= d1 - 1 + s - d2)%Z) by (subst s e'; lia).
      pose proof (Zdigits2_lower (Zpos m1) ltac:(lia)) as Hl1. fold d1 in Hl1.
      pose proof (Zdigits2_upper (Zpos m2) ltac:(lia)) as Hu2. fold d2 in Hu2.
      pose proof (Zdigits2_pos (Zpos m1) ltac:(lia)) as Hd1. fold d1 in Hd1.
      pose proof (Zdigits2_pos (Zpos m2) ltac:(lia)) as Hd2. fold d2 in Hd2.
      set (k := (d1 - 1 + s - d2)%Z) in *.
      assert (Hqk : (2 ^ k <= q)%Z).
      { assert (Hle : (Zpos m2 * 2 ^ k <= m')%Z).
        { rewrite Hm'.
          apply Z.le_trans with (2 ^ d2 * 2 ^ k)%Z.
          - apply Z.mul_le_mono_nonneg_r; [apply Z.pow_nonneg; lia | lia].
          - rewrite <- Z.pow_add_r by lia.
            replace (d2 + k)%Z with (d1 - 1 + s)%Z by (subst k; lia).
            rewrite Z.pow_add_r by lia.
            apply Z.mul_le_mono_nonneg_r; lia. }
        assert (Hdiv : (2 ^ k <= m' / Zpos m2)%Z) by (apply Z.div_le_lower_bound; lia).
        assert (Hq' : q = (m' / Zpos m2)%Z).
        { apply Z.div_unique with r; [left; lia | exact Hdm]. }
        now rewrite Hq'. }
      assert (Hdq : (prec <= Zdigits2 q)%Z).
      { pose proof (Zdigits2_upper q Hq) as Hu.
        assert (2 ^ (prec - 1) <= 2 ^ k)%Z by (apply Z.pow_le_mono_r; lia).
        assert (Hlt : (2 ^ (prec - 1) < 2 ^ Zdigits2 q)%Z) by lia.
        apply Z.pow_lt_mono_r_iff in Hlt; [lia | lia | apply Zdigits2_nonneg]. }
      pose proof (fexp_ge prec emax (Zdigits2 q + e')). lia.
Qed.

Theorem SFdiv_correct (a b : spec_float) (K : Z) :
  is_finite_SF a = true -> is_finite_SF b = true -> B2R b <> 0 ->
  Rabs (B2R a / B2R b) < bpow K -> (K < emax - prec)%Z ->
  (rounds_to prec emax) (B2R a / B2R b) (SFdiv prec emax a b).
Proof.
  intros Ha Hb Hb0 Hx HK.
  destruct a as [sa|sa| |sa ma ea]; try discriminate Ha;
    destruct b as [sb|sb| |sb mb eb]; try discriminate Hb; cbn [SFdiv];
    try (exfalso; apply Hb0; reflexivity).
  - apply rounds_zero. cbn [B2R]. unfold Rdiv. apply Rmult_0_l.
  - pose proof (SFdiv_core_binary_correct ma mb ea eb) as Hcore.
    destruct (SFdiv_core_binary prec emax (Zpos ma) ea (Zpos mb) eb) as [[q e'] l].
    cbv zeta in Hcore. destruct Hcore as (Hq & Hloc & Hdig).
    pose proof (finite_value_pos ma ea) as Hpa. pose proof (finite_value_pos mb eb) as Hpb.
    cbn [B2R] in *. rewrite cond_Ropp_div in * by lra.
    rewrite Rabs_cond_Ropp in Hx.
    assert (Hpos : 0 < IZR (Zpos ma) * bpow ea / (IZR (Zpos mb) * bpow eb))
      by (apply Rdiv_lt_0_compat; lra).
    rewrite Rabs_pos_eq in Hx by lra.
    apply round_aux_signed with (K := K); try assumption. now right.
Qed.

End Division.

(** ** Binary64 operations *)

Section Binary64.
Open Scope R_scope.
Open Scope float_scope.

Lemma near_rounds (x : R) (a : float) : rounds_to prec emax x (Prim2SF a) -> near x a.
Proof. intros H. exact H. Qed.

Lemma prec_pos : (0 < prec)%Z.
Proof. reflexivity. Qed.

Lemma add_near (a b : float) :
  finite a -> finite b -> (Rabs (val a + val b) < bpow 200)%R -> near (val a + val b) (a + b).
Proof.
  intros Ha Hb Hx. apply near_rounds. rewrite FloatAxioms.add_spec.
  apply (SFadd_correct prec emax prec_pos _ _ 200); try assumption. reflexivity.
Qed.

Lemma sub_near (a b : float) :
  finite a -> finite b -> (Rabs (val a - val b) < bpow 200)%R -> near (val a - val b) (a - b).
Proof.
  intros Ha Hb Hx. apply near_rounds. rewrite FloatAxioms.sub_spec.
  apply (SFsub_correct prec emax prec_pos _ _ 200); try assumption. reflexivity.
Qed.

Lemma mul_near (a b : float) :
  finite a -> finite b -> (Rabs (val a * val b) < bpow 200)%R -> near (val a * val b) (a * b).
Proof.
  intros Ha Hb Hx. apply near_rounds. rewrite FloatAxioms.mul_spec.
  apply (SFmul_correct prec emax prec_pos _ _ 200); try assumption. reflexivity.
Qed.

Lemma div_near (a b : float) :
  finite a -> finite b -> val b <> 0%R -> (Rabs (val a / val b) < bpow 200)%R ->
  near (val a / val b) (a / b).
Proof.
  intros Ha Hb Hb0 Hx. apply near_rounds. rewrite FloatAxioms.div_spec.
  apply (SFdiv_correct prec emax prec_pos _ _ 200); try assumption. reflexivity.
Qed.

Lemma opp_exact (a : float) : finite a -> finite (- a) /\ val (- a) = (- val a)%R.
Proof.
  intros Ha. unfold finite, val. rewrite FloatAxioms.opp_spec.
  destruct (SFopp_correct (Prim2SF a)) as [H1 H2]. rewrite H1, H2. now split.
Qed.

End Binary64.

(** ** Integers *)

Section Integers.
Open Scope R_scope.

Lemma float_of_Z_spec (z : Z) :
  (0 <= z < 2 ^ 63)%Z -> Prim2SF (float_of_Z z) = binary_normalize prec emax z 0 false.
Proof.
  intros Hz. unfold float_of_Z.
  assert (Hn : Uint63.to_Z (Uint63.of_Z z) = z).
  { rewrite Uint63.of_Z_spec. apply Z.mod_small. exact Hz. }
  rewrite <- Hn at 1. rewrite <- of_uint63_spec, SF2Prim_Prim2SF, of_uint63_spec.
  now rewrite Hn.
Qed.

(** Integers below [2 ^ 53] are binary64 numbers. *)
Lemma float_of_Z_exact (z : Z) :
  (0 <= z < 2 ^ 53)%Z -> finite (float_of_Z z) /\ val (float_of_Z z) = IZR z.
Proof.
  intros Hz. unfold finite, val. rewrite float_of_Z_spec by lia.
  assert (Hx : Rabs (IZR z * bpow 0) < bpow 53).
  { rewrite bpow_0, Rmult_1_r, Rabs_pos_eq by (apply IZR_le; lia).
    rewrite bpow_IZR by lia. apply IZR_lt. lia. }
  destruct (binary_normalize_correct prec emax prec_pos z 0 53 false Hx eq_refl)
    as [[Hfin _] Hexact].
  split; [exact Hfin|].
  rewrite Hexact; [rewrite bpow_0; lra|].
  pose proof (Zdigits2_le z 53 ltac:(lia) Hz) as Hd.
  unfold SpecFloat.fexp, SpecFloat.emin, prec, emax. lia.
Qed.

End Integers.

(** ** Literals and random numbers *)

Section Constants.
Open Scope R_scope.
Open Scope float_scope.

Lemma finite_value (s : bool) (m k : positive) (a : float) :
  Prim2SF a = S754_finite s m (Zneg k) ->
  finite a /\ val a = cond_Ropp s (IZR (Zpos m) / IZR (2 ^ Zpos k)).
Proof.
  intros H. unfold finite, val. rewrite H. split; [reflexivity|].
  cbn [B2R]. f_equal. change (Zneg k) with (- Zpos k)%Z.
  rewrite bpow_opp, bpow_IZR by lia. reflexivity.
Qed.

Lemma val_half : finite 0.5 /\ val 0.5 = (/ 2)%R.
Proof.
  destruct (finite_value false 4503599627370496 53 0.5) as [Hf Hv];
    [vm_compute; reflexivity|].
  split; [exact Hf|]. rewrite Hv. cbn [cond_Ropp].
  change (2 ^ 53)%Z with 9007199254740992%Z. lra.
Qed.

(** The literal [0.3] is a little less than three tenths. *)
Lemma val_three_tenths :
  finite 0.3 /\ (0 < val 0.3 <= 3 / 10)%R /\ (3 / 10 * (1 - bpow (-53)) <= val 0.3)%R.
Proof.
  destruct (finite_value false 5404319552844595 54 0.3) as [Hf Hv];
    [vm_compute; reflexivity|].
  split; [exact Hf|]. rewrite Hv. cbn [cond_Ropp].
  change (-53)%Z with (- (53))%Z. rewrite bpow_opp, bpow_IZR by lia.
  change (2 ^ 54)%Z with 18014398509481984%Z.
  change (2 ^ 53)%Z with 9007199254740992%Z. lra.
Qed.

(** The literal [0.2] is a little more than two tenths. *)
Lemma val_two_tenths :
  finite 0.2 /\ (2 / 10 <= val 0.2 <= 2 / 10 * (1 + bpow (-53)))%R.
Proof.
  destruct (finite_value false 7205759403792794 55 0.2) as [Hf Hv];
    [vm_compute; reflexivity|].
  split; [exact Hf|]. rewrite Hv. cbn [cond_Ropp].
  change (-53)%Z with (- (53))%Z. rewrite bpow_opp, bpow_IZR by lia.
  change (2 ^ 55)%Z with 36028797018963968%Z.
  change (2 ^ 53)%Z with 9007199254740992%Z. lra.
Qed.

Lemma val_twenty : finite 20 /\ val 20 = 20%R.
Proof.
  destruct (finite_value false 5629499534213120 48 20) as [Hf Hv];
    [vm_compute; reflexivity|].
  split; [exact Hf|]. rewrite Hv. cbn [cond_Ropp].
  change (2 ^ 48)%Z with 281474976710656%Z. lra.
Qed.

(** A random number: a binary64 number of [[0, 1)]. *)
Lemma unit_interval (r : float) :
  (0 <=? r) = true -> (r <? 1) = true -> finite r /\ (0 <= val r < 1)%R.
Proof.
  rewrite FloatAxioms.leb_spec, FloatAxioms.ltb_spec.
  change (Prim2SF 0) with (S754_zero false).
  change (Prim2SF 1) with (S754_finite false 4503599627370496 (-52)).
  pose proof (Prim2SF_valid r) as Hvalid. unfold finite, val.
  destruct (Prim2SF r) as [s|s| |s m e]; unfold SFleb, SFltb; cbn [SFcompare].
  - intros _ _. cbn [is_finite_SF B2R]. split; [reflexivity | lra].
  - destruct s; discriminate.
  - discriminate.
  - destruct s; [discriminate|]. intros _ Hlt.
    cbn [is_finite_SF B2R cond_Ropp]. split; [reflexivity|].
    pose proof (finite_value_pos m e) as Hpos. split; [lra|].
    cbn [valid_binary] in Hvalid. unfold bounded, canonical_mantissa in Hvalid.
    apply andb_prop in Hvalid. destruct Hvalid as [Hcan _].
    apply Z.eqb_eq in Hcan.
    pose proof (fexp_ge prec emax (Zpos (digits2_pos m) + e)) as Hge.
    pose proof (digits2_pos_bounds m) as [_ Hup].
    assert (Hm53 : (Zpos m < 2 ^ 53)%Z).
    { apply Z.lt_le_trans with (1 := Hup). apply Z.pow_le_mono_r; [lia|].
      rewrite Hcan in Hge. unfold prec in Hge. lia. }
    assert (Hlim : (Zpos m < 2 ^ (- e))%Z /\ (0 <= - e)%Z).
    { destruct (e ?= -52)%Z eqn:Ecmp; try discriminate Hlt.
      - apply Z.compare_eq in Ecmp. subst e.
        destruct (Pos.compare_cont Eq m 4503599627370496) eqn:Mcmp; try discriminate Hlt.
        split; [|clear; lia].
        change (2 ^ (- -52))%Z with 4503599627370496%Z. exact Mcmp.
      - apply (proj1 (Z.compare_lt_iff _ _)) in Ecmp. split; [|clear - Ecmp; lia].
        apply Z.lt_le_trans with (1 := Hm53). apply Z.pow_le_mono_r; clear - Ecmp; lia. }
    destruct Hlim as [Hlim He].
    apply IZR_lt in Hlim. rewrite <- (bpow_IZR (- e) He) in Hlim.
    pose proof (bpow_pos e) as Hbe.
    apply Rmult_lt_compat_r with (r := bpow e) in Hlim; [|exact Hbe].
    rewrite <- bpow_add, Z.add_opp_diag_l, bpow_0 in Hlim. exact Hlim.
Qed.

End Constants.

(** ** Accumulated rounding *)

Section ErrorAnalysis.
Open Scope R_scope.
Lemma Rabs_bounds' (a b : R) : Rabs a <= b -> - b <= a <= b.
Proof. unfold Rabs. destruct (Rcase_abs a); lra. Qed.

Lemma close_abs (v t M : R) : close v t -> Rabs v <= M -> Rabs t <= M * (1 + u64) + tiny.
Proof.
  unfold close. intros H HM. apply Rabs_bounds' in H.
  assert (0 < u64) by (unfold u64; lra).
  apply Rabs_le. pose proof (Rabs_pos v). apply Rabs_bounds' in HM as HM'.
  unfold u64 in *. split; lra.
Qed.

Lemma close_interval (v t lo hi M : R) :
  close v t -> lo <= v <= hi -> Rabs v <= M ->
  lo - (u64 * M + tiny) <= t <= hi + (u64 * M + tiny).
Proof.
  unfold close. intros H Hv HM. apply Rabs_bounds' in H.
  pose proof (Rabs_pos v). unfold u64 in *. split; lra.
Qed.

Lemma Rabs_mult_le (a b A B : R) : Rabs a <= A -> Rabs b <= B -> Rabs (a * b) <= A * B.
Proof.
  intros Ha Hb. rewrite Rabs_mult.
  pose proof (Rabs_pos a). pose proof (Rabs_pos b).
  apply Rmult_le_compat; assumption.
Qed.

(** The jitter [(r - 0.5) * density * 0.3]. *)
Lemma jitter_bound (r D c3 t1 t2 t3 : R) :
  0 <= r < 1 -> 1 <= D -> 0 < c3 <= 3 / 10 ->
  close (r - / 2) t1 -> close (t1 * D) t2 -> close (t2 * c3) t3 ->
  Rabs t3 <= 15 / 100 * D * (1 + / 1125899906842624).
Proof.
  intros Hr HD Hc H1 H2 H3.
  assert (A1 : Rabs (r - / 2) <= / 2) by (apply Rabs_le; lra).
  pose proof (close_abs _ _ _ H1 A1) as B1.
  assert (A2 : Rabs (t1 * D) <= (/ 2 * (1 + u64) + tiny) * D).
  { apply Rabs_mult_le; [exact B1 | rewrite Rabs_pos_eq; lra]. }
  pose proof (close_abs _ _ _ H2 A2) as B2.
  assert (A3 : Rabs (t2 * c3) <= ((/ 2 * (1 + u64) + tiny) * D * (1 + u64) + tiny) * (3 / 10)).
  { apply Rabs_mult_le; [exact B2 | rewrite Rabs_pos_eq; lra]. }
  pose proof (close_abs _ _ _ H3 A3) as B3.
  apply Rle_trans with (1 := B3). unfold u64, tiny. lra.
Qed.

(** The normalisation [((x + j) / size - 0.5) * 20] of a pixel coordinate
    [0 <= x <= size] displaced by a jitter [j]; [s] is the number before the
    multiplication, or its opposite. *)
Lemma normalised_bound (X0 W D j t4 t5 t6 s t7 : R) :
  1 <= W -> 0 <= X0 <= W -> 1 <= D ->
  Rabs j <= 15 / 100 * D * (1 + / 1125899906842624) ->
  close (X0 + j) t4 -> close (t4 / W) t5 -> close (t5 - / 2) t6 ->
  Rabs s = Rabs t6 -> close (s * 20) t7 ->
  Rabs t7 <= (10 + 3 * D / W) * (1 + / 562949953421312).
Proof.
  intros HW HX HD Hj H4 H5 H6 Hs H7.
  set (a := 15 / 100 * (1 + / 1125899906842624)).
  assert (Ha : 0 < a) by (unfold a; lra).
  set (iw := / W).
  assert (Hiw : 0 < iw <= 1).
  { unfold iw. split; [apply Rinv_0_lt_compat; lra|].
    rewrite <- Rinv_1. apply Rinv_le_contravar; lra. }
  assert (HWiw : W * iw = 1) by (unfold iw; field; lra).
  set (q := D * iw). set (p := X0 * iw).
  assert (Hq : 0 <= q) by (unfold q; nra).
  assert (Hp : 0 <= p <= 1) by (unfold p; nra).
  apply Rabs_bounds' in Hj.
  (* x + j *)
  assert (V4 : - (a * D) <= X0 + j <= X0 + a * D) by (unfold a; lra).
  assert (M4 : Rabs (X0 + j) <= W + a * D) by (apply Rabs_le; lra).
  pose proof (close_interval _ _ _ _ _ H4 V4 M4) as B4.
  (* / W *)
  set (e4 := u64 * (W + a * D) + tiny) in *.
  assert (He4 : 0 <= e4) by (unfold e4, u64, tiny; nra).
  assert (He4iw : e4 * iw <= u64 * (1 + a * q) + tiny).
  { unfold e4, q. replace ((u64 * (W + a * D) + tiny) * iw)
      with (u64 * (W * iw + a * (D * iw)) + tiny * iw) by ring.
    rewrite HWiw. assert (tiny * iw <= tiny) by (unfold tiny in *; nra). lra. }
  set (b5 := a * q + u64 * (1 + a * q) + tiny).
  assert (V5 : - b5 <= t4 / W <= 1 + b5).
  { unfold Rdiv. fold iw. split.
    - apply Rle_trans with ((- (a * D) - e4) * iw).
      + replace ((- (a * D) - e4) * iw) with (- (a * q) - e4 * iw) by (unfold q; ring).
        unfold b5. lra.
      + apply Rmult_le_compat_r; lra.
    - apply Rle_trans with ((X0 + a * D + e4) * iw).
      + apply Rmult_le_compat_r; lra.
      + replace ((X0 + a * D + e4) * iw) with (p + a * q + e4 * iw) by (unfold p, q; ring).
        unfold b5. lra. }
  assert (Hb5 : 0 <= b5) by (unfold b5, u64, tiny; nra).
  assert (M5 : Rabs (t4 / W) <= 1 + b5) by (apply Rabs_le; lra).
  pose proof (close_interval _ _ _ _ _ H5 V5 M5) as B5.
  (* - 0.5 *)
  set (e5 := u64 * (1 + b5) + tiny) in *.
  assert (He5 : 0 <= e5) by (unfold e5, u64, tiny; nra).
  assert (M6 : Rabs (t5 - / 2) <= / 2 + b5 + e5) by (apply Rabs_le; lra).
  pose proof (close_abs _ _ _ H6 M6) as B6.
  (* * 20 *)
  assert (M7 : Rabs (s * 20) <= ((/ 2 + b5 + e5) * (1 + u64) + tiny) * 20).
  { apply Rabs_mult_le; [rewrite Hs; exact B6 | rewrite Rabs_pos_eq; lra]. }
  pose proof (close_abs _ _ _ H7 M7) as B7.
  apply Rle_trans with (1 := B7).
  replace (3 * D / W) with (3 * q) by (unfold q, iw; field; lra).
  unfold e5, b5, a, u64, tiny. lra.
Qed.

(** The aspect correction [* (height / width)] of the normalised row. *)
Lemma aspect_bound (H W D t7 rr nY : R) :
  1 <= H -> 1 <= W <= 9007199254740992 -> 1 <= D ->
  Rabs t7 <= (10 + 3 * D / H) * (1 + / 562949953421312) ->
  close (H / W) rr -> close (t7 * rr) nY ->
  Rabs nY <= (10 * H + 3 * D) / W * (1 + / 281474976710656).
Proof.
  intros HH HW HD Ht7 Hr HY.
  set (iw := / W). set (ih := / H).
  assert (Hiw : / 9007199254740992 <= iw <= 1).
  { unfold iw. split.
    - apply Rinv_le_contravar; lra.
    - rewrite <- Rinv_1. apply Rinv_le_contravar; lra. }
  assert (Hih : 0 < ih <= 1).
  { unfold ih. split; [apply Rinv_0_lt_compat; lra|].
    rewrite <- Rinv_1. apply Rinv_le_contravar; lra. }
  assert (HHih : H * ih = 1) by (unfold ih; field; lra).
  set (A := H * iw). set (q := D * iw). set (r2 := D * ih).
  assert (HA : / 9007199254740992 <= A) by (unfold A; nra).
  assert (Hq : 0 <= q) by (unfold q; nra).
  assert (Hr2 : 0 <= r2 <= 9007199254740992 * q) by (unfold r2, q; nra).
  assert (Mr : Rabs (H / W) <= A).
  { unfold Rdiv. fold iw. fold A. rewrite Rabs_pos_eq; lra. }
  pose proof (close_abs _ _ _ Hr Mr) as Br.
  replace (3 * D / H) with (3 * r2) in Ht7 by (unfold r2, ih; field; lra).
  assert (MY : Rabs (t7 * rr)
               <= (10 + 3 * r2) * (1 + / 562949953421312) * (A * (1 + u64) + tiny))
    by (apply Rabs_mult_le; assumption).
  assert (Hprod : r2 * A = q) by (unfold r2, A, q; transitivity (D * iw * (H * ih)); [ring | rewrite HHih; ring]).
  replace ((10 + 3 * r2) * (1 + / 562949953421312) * (A * (1 + u64) + tiny))
    with ((1 + / 562949953421312)
          * (10 * A * (1 + u64) + 3 * (r2 * A) * (1 + u64) + 10 * tiny + 3 * r2 * tiny)) in MY by ring.
  rewrite Hprod in MY.
  pose proof (close_abs _ _ _ HY MY) as BY.
  apply Rle_trans with (1 := BY).
  replace ((10 * H + 3 * D) / W) with (10 * A + 3 * q) by (unfold A, q, iw; field; lra).
  unfold u64, tiny in *. lra.
Qed.

(** The depth [(r - 0.5) * 0.2]. *)
Lemma depth_bound (r c2 t1 nZ : R) :
  0 <= r < 1 -> 2 / 10 <= c2 <= 2 / 10 * (1 + u64) ->
  close (r - / 2) t1 -> close (t1 * c2) nZ ->
  Rabs nZ <= 1 / 10 * (1 + / 1125899906842624).
Proof.
  intros Hr Hc H1 H2.
  assert (A1 : Rabs (r - / 2) <= / 2) by (apply Rabs_le; lra).
  pose proof (close_abs _ _ _ H1 A1) as B1.
  assert (A2 : Rabs (t1 * c2) <= (/ 2 * (1 + u64) + tiny) * (2 / 10 * (1 + u64))).
  { apply Rabs_mult_le; [exact B1 | rewrite Rabs_pos_eq; unfold u64 in *; lra]. }
  pose proof (close_abs _ _ _ H2 A2) as B2.
  apply Rle_trans with (1 := B2). unfold u64, tiny. lra.
Qed.

End ErrorAnalysis.

(** ** [Math.fround] *)

Section Binary32.
Open Scope R_scope.
Open Scope float_scope.

(** What [SF2Prim] makes of a binary32 number: the binary64 number of the
    same value. *)
Lemma SF2Prim_binary32 (s : bool) (m : positive) (e : Z) :
  (Zpos m < 2 ^ 24)%Z -> (-149 <= e <= 104)%Z ->
  is_finite_SF (Prim2SF (SF2Prim (S754_finite s m e))) = true
  /\ B2R (Prim2SF (SF2Prim (S754_finite s m e))) = B2R (S754_finite s m e).
Proof.
  intros Hm He.
  set (d := Zpos (digits2_pos m)).
  assert (Hd : (1 <= d <= 24)%Z).
  { pose proof (Zdigits2_le (Zpos m) 24 ltac:(lia) ltac:(lia)) as H. cbn [Zdigits2] in H.
    subst d. lia. }
  set (E0 := (d - 53)%Z).
  set (mz := fst (shl_align m 0 E0)).
  assert (Hn : Uint63.to_Z (Uint63.of_Z (Zpos m)) = Zpos m).
  { rewrite Uint63.of_Z_spec. apply Z.mod_small. split; [lia|].
    apply Z.lt_trans with (2 ^ 24)%Z; [exact Hm | reflexivity]. }
  assert (H1 : Prim2SF (of_uint63 (Uint63.of_Z (Zpos m))) = S754_finite false mz E0).
  { rewrite of_uint63_spec, Hn. cbn [binary_normalize].
    assert (HE : SpecFloat.fexp prec emax (Zpos (digits2_pos m) + 0) = E0)
      by (fold d; unfold SpecFloat.fexp, SpecFloat.emin, prec, emax; subst E0; lia).
    pose proof (binary_round_exact prec emax false m 0) as Hex. cbv zeta in Hex.
    rewrite HE in Hex. apply Hex; [subst E0; lia | subst E0; unfold prec, emax; lia]. }
  pose proof (shl_align_value m 0 E0) as Hal.
  destruct (shl_align m 0 E0) as [mz' ez'] eqn:Hs. cbn [fst] in mz. subst mz.
  destruct Hal as (Hv & Hez & Hdig). fold d in Hdig.
  assert (Hez' : ez' = E0) by (subst E0; lia). subst ez'.
  assert (H2 : Prim2SF (Z.ldexp (of_uint63 (Uint63.of_Z (Zpos m))) e)
               = S754_finite false mz' (E0 + e)).
  { rewrite Z_ldexp_spec, H1. cbn [SFldexp].
    assert (HE : SpecFloat.fexp prec emax (Zpos (digits2_pos mz') + (E0 + e)) = (E0 + e)%Z).
    { unfold SpecFloat.fexp, SpecFloat.emin, prec, emax. subst E0. lia. }
    pose proof (binary_round_exact prec emax false mz' (E0 + e)) as Hex. cbv zeta in Hex.
    rewrite HE in Hex. rewrite Hex; [|lia | subst E0; unfold prec, emax; lia].
    f_equal. unfold shl_align. now rewrite Z.sub_diag. }
  assert (Hval : (IZR (Zpos mz') * bpow (E0 + e) = IZR (Zpos m) * bpow e)%R).
  { rewrite Hez' in Hv. rewrite bpow_add, <- Rmult_assoc, Hv, bpow_0. lra. }
  cbn [SF2Prim]. destruct s.
  - rewrite FloatAxioms.opp_spec, H2. cbn [SFopp negb is_finite_SF B2R cond_Ropp].
    split; [reflexivity | now rewrite Hval].
  - rewrite H2. cbn [is_finite_SF B2R cond_Ropp]. split; [reflexivity | now rewrite Hval].
Qed.

(** [Math.fround] on a binary64 number below [2 ^ 100] in magnitude gives a
    finite number within binary32 rounding of it. *)
Lemma fround_near (x : float) :
  finite x -> (Rabs (val x) < bpow 100)%R ->
  finite (fround x)
  /\ (Rabs (val (fround x) - val x) <= bpow (-24) * Rabs (val x) + bpow (-150))%R.
Proof.
  unfold finite, val, fround. intros Hfin Hx.
  pose proof (bpow_pos (-24)) as Hu. pose proof (bpow_pos (-150)) as He.
  destruct (Prim2SF x) as [s|s| |s m e] eqn:Hp; try discriminate Hfin.
  - rewrite Hp. cbn [is_finite_SF B2R]. split; [reflexivity|].
    rewrite Rminus_diag, Rabs_R0. lra.
  - cbn [B2R] in Hx. rewrite Rabs_cond_Ropp in Hx.
    pose proof (finite_value_pos m e) as Hpos.
    rewrite Rabs_pos_eq in Hx by lra.
    destruct (binary_round_correct 24 128 eq_refl s m e 100 Hx eq_refl)
      as (y & Y0 & Y1 & Y2 & Y3 & _).
    pose proof (binary_round_format 24 128 eq_refl s m e) as Hfmt.
    assert (Hgoal : is_finite_SF (Prim2SF (SF2Prim (binary_round 24 128 s m e))) = true
                    /\ B2R (Prim2SF (SF2Prim (binary_round 24 128 s m e)))
                       = B2R (binary_round 24 128 s m e)).
    { destruct (binary_round 24 128 s m e) as [s2|s2| |s2 m2 e2]; try discriminate Y1.
      - destruct s2; split; reflexivity.
      - destruct Hfmt as (_ & Hm2 & He2).
        apply SF2Prim_binary32; [exact Hm2|].
        unfold SpecFloat.emin in He2. lia. }
    destruct Hgoal as [G1 G2]. split; [exact G1|].
    rewrite G2, Y2. cbn [B2R]. rewrite Rabs_cond_Ropp, (Rabs_pos_eq _ (Rlt_le _ _ Hpos)).
    apply cond_Ropp_rounds; [lra|]. exact Y3.
Qed.

End Binary32.

(** ** One operation at a time *)

Section Connect.
Open Scope R_scope.

Lemma bpow_neg (k : positive) : bpow (Zneg k) = / IZR (2 ^ Zpos k).
Proof. change (Zneg k) with (- Zpos k)%Z. rewrite bpow_opp, bpow_IZR by lia. reflexivity. Qed.

Lemma bpow_m53_U : bpow (-53) = u64.
Proof. rewrite bpow_neg. reflexivity. Qed.

Lemma bpow_m1075_E : bpow (-1075) <= tiny.
Proof.
  apply Rle_trans with (bpow (-200)); [apply bpow_le; lia|].
  rewrite bpow_neg. right. reflexivity.
Qed.

Lemma bpow_200 : bpow 200 = 1606938044258990275541962092341162602522202993782792835301376.
Proof. rewrite bpow_IZR by lia. reflexivity. Qed.

Lemma bpow_100 : bpow 100 = 1267650600228229401496703205376.
Proof. rewrite bpow_IZR by lia. reflexivity. Qed.

Lemma near_close (x : R) (a : float) : near x a -> finite a /\ close x (val a).
Proof.
  intros [Hf H]. split; [exact Hf|]. unfold close.
  rewrite bpow_m53_U in H. pose proof bpow_m1075_E. lra.
Qed.

(** One operation: the result is finite and within rounding of the exact
    one, as long as the operands are not huge. *)
Lemma add_step (a b : float) (A B : R) :
  finite a -> finite b -> Rabs (val a) <= A -> Rabs (val b) <= B ->
  A + B <= 1427247692705959881058285969449495136382746624 ->
  finite (a + b) /\ close (val a + val b) (val (a + b)).
Proof.
  intros Ha Hb HA HB Hs. apply near_close, add_near; try assumption.
  rewrite bpow_200. pose proof (Rabs_triang (val a) (val b)). lra.
Qed.

Lemma sub_step (a b : float) (A B : R) :
  finite a -> finite b -> Rabs (val a) <= A -> Rabs (val b) <= B ->
  A + B <= 1427247692705959881058285969449495136382746624 ->
  finite (a - b) /\ close (val a - val b) (val (a - b)).
Proof.
  intros Ha Hb HA HB Hs. apply near_close, sub_near; try assumption.
  rewrite bpow_200. pose proof (Rabs_triang (val a) (- val b)) as Ht.
  rewrite Rabs_Ropp in Ht. unfold Rminus. lra.
Qed.

Lemma mul_step (a b : float) (A B : R) :
  finite a -> finite b -> Rabs (val a) <= A -> Rabs (val b) <= B ->
  A * B <= 1427247692705959881058285969449495136382746624 ->
  finite (a * b) /\ close (val a * val b) (val (a * b)).
Proof.
  intros Ha Hb HA HB Hs. apply near_close, mul_near; try assumption.
  rewrite bpow_200. pose proof (Rabs_mult_le _ _ _ _ HA HB). lra.
Qed.

Lemma div_step (a b : float) (A : R) :
  finite a -> finite b -> Rabs (val a) <= A -> 1 <= val b ->
  A <= 1427247692705959881058285969449495136382746624 ->
  finite (a / b) /\ close (val a / val b) (val (a / b)).
Proof.
  intros Ha Hb HA HB Hs. apply near_close, div_near; try assumption; [lra|].
  rewrite bpow_200. unfold Rdiv. rewrite Rabs_mult.
  assert (Hinv : Rabs (/ val b) <= 1).
  { rewrite Rabs_pos_eq by (apply Rlt_le, Rinv_0_lt_compat; lra).
    rewrite <- Rinv_1. apply Rinv_le_contravar; lra. }
  pose proof (Rabs_pos (val a)). pose proof (Rabs_pos (/ val b)). nra.
Qed.

Lemma IZR_range (z : Z) :
  (0 < z < 2 ^ 53)%Z -> 1 <= IZR z <= 9007199254740992.
Proof.
  intros [H0 H1]. split.
  - apply IZR_le. lia.
  - apply IZR_le. change 9007199254740992%Z with (2 ^ 53)%Z. lia.
Qed.

End Connect.

(** ** The numbers of one emitted point *)

Section Emit.
Open Scope R_scope.
Open Scope float_scope.
Variables (width height density : Z).
Hypothesis Hw : (0 < width < 2 ^ 53)%Z.
Hypothesis Hh : (0 < height < 2 ^ 53)%Z.
Hypothesis Hd : (0 < density < 2 ^ 53)%Z.

Lemma Rabs_le_1 (v : R) : (0 <= v <= 1 -> Rabs v <= 1)%R.
Proof. intros H. apply Rabs_le. lra. Qed.

(** The jitter [(r - 0.5) * density * 0.3] of a random number [r]. *)
Lemma jitter_float (r : float) :
  (0 <=? r) = true -> (r <? 1) = true ->
  finite ((r - 0.5) * float_of_Z density * 0.3)
  /\ (Rabs (val ((r - 0.5) * float_of_Z density * 0.3))
      <= 15 / 100 * IZR density * (1 + / 1125899906842624))%R.
Proof.
  intros H0 H1.
  destruct (unit_interval r H0 H1) as [Fr Vr].
  destruct val_half as [Fh Vh].
  destruct (float_of_Z_exact density ltac:(lia)) as [FD VD].
  destruct val_three_tenths as (F3 & V3 & _).
  pose proof (IZR_range density Hd) as RD.
  destruct (sub_step r 0.5 1 1) as [F1 C1]; try assumption;
    [apply Rabs_le_1; lra | rewrite Vh; apply Rabs_le_1; lra | lra |].
  rewrite Vh in C1.
  assert (M1 : (Rabs (val (r - 0.5)) <= 1)%R).
  { assert (A1 : (Rabs (val r - / 2) <= / 2)%R) by (apply Rabs_le; lra).
    pose proof (close_abs _ _ _ C1 A1). unfold u64, tiny in *. lra. }
  destruct (mul_step (r - 0.5) (float_of_Z density) 1 9007199254740992) as [F2 C2];
    try assumption; [rewrite VD, Rabs_pos_eq; lra | lra |].
  rewrite VD in C2.
  assert (M2 : (Rabs (val ((r - 0.5) * float_of_Z density)) <= 2 * 9007199254740992)%R).
  { assert (A2 : (Rabs (val (r - 0.5) * IZR density) <= 1 * 9007199254740992)%R)
      by (apply Rabs_mult_le; [exact M1 | rewrite Rabs_pos_eq; lra]).
    pose proof (close_abs _ _ _ C2 A2). unfold u64, tiny in *. lra. }
  destruct (mul_step ((r - 0.5) * float_of_Z density) 0.3 (2 * 9007199254740992) 1)
    as [F3' C3]; try assumption; [apply Rabs_le_1; lra | lra |].
  split; [exact F3'|].
  apply (jitter_bound (val r) (IZR density) (val 0.3) _ _ _ Vr ltac:(lra) V3 C1 C2 C3).
Qed.

Lemma Rabs_div_le (a b A : R) : (Rabs a <= A -> 1 <= b -> Rabs (a / b) <= A)%R.
Proof.
  intros HA Hb. unfold Rdiv. rewrite Rabs_mult.
  assert (Hinv : (Rabs (/ b) <= 1)%R).
  { rewrite Rabs_pos_eq by (apply Rlt_le, Rinv_0_lt_compat; lra).
    rewrite <- Rinv_1. apply Rinv_le_contravar; lra. }
  pose proof (Rabs_pos a). pose proof (Rabs_pos (/ b)). nra.
Qed.

Lemma Rdiv_le_num (a b : R) : (0 <= a -> 1 <= b -> 0 <= a / b <= a)%R.
Proof.
  intros Ha Hb. unfold Rdiv.
  assert (0 < / b <= 1)%R.
  { split; [apply Rinv_0_lt_compat; lra|]. rewrite <- Rinv_1. apply Rinv_le_contravar; lra. }
  nra.
Qed.

(** The pixel coordinate [x] of an image of size [size], displaced by the
    jitter [j] and normalised: [(x + j) / size - 0.5]. *)
Lemma normalise_float (x size : Z) (j : float) :
  (0 <= x < size)%Z -> (0 < size < 2 ^ 53)%Z ->
  finite j ->
  (Rabs (val j) <= 15 / 100 * IZR density * (1 + / 1125899906842624))%R ->
  finite ((float_of_Z x + j) / float_of_Z size - 0.5)
  /\ (Rabs (val ((float_of_Z x + j) / float_of_Z size - 0.5)) <= 6 * 9007199254740992)%R
  /\ (forall s t7 : R,
         Rabs s = Rabs (val ((float_of_Z x + j) / float_of_Z size - 0.5)) ->
         close (s * 20) t7 ->
         Rabs t7 <= (10 + 3 * IZR density / IZR size) * (1 + / 562949953421312))%R.
Proof.
  intros Hx Hs Fj Mj.
  destruct (float_of_Z_exact x ltac:(lia)) as [Fx Vx].
  destruct (float_of_Z_exact size ltac:(lia)) as [Fs Vs].
  destruct val_half as [Fh Vh].
  pose proof (IZR_range density Hd) as RD.
  pose proof (IZR_range size Hs) as RS.
  assert (RX : (0 <= IZR x <= IZR size)%R) by (split; apply IZR_le; lia).
  assert (Mj' : (Rabs (val j) <= 9007199254740992)%R) by lra.
  destruct (add_step (float_of_Z x) j 9007199254740992 9007199254740992) as [F4 C4];
    try assumption; [rewrite Vx, Rabs_pos_eq; lra | lra |].
  rewrite Vx in C4.
  assert (M4 : (Rabs (val (float_of_Z x + j)) <= 3 * 9007199254740992)%R).
  { assert (A4 : (Rabs (IZR x + val j) <= 2 * 9007199254740992)%R).
    { pose proof (Rabs_triang (IZR x) (val j)). rewrite (Rabs_pos_eq (IZR x)) in H; lra. }
    pose proof (close_abs _ _ _ C4 A4). unfold u64, tiny in *. lra. }
  destruct (div_step (float_of_Z x + j) (float_of_Z size) (3 * 9007199254740992))
    as [F5 C5]; try assumption; [rewrite Vs; lra | lra |].
  rewrite Vs in C5.
  assert (M5 : (Rabs (val ((float_of_Z x + j) / float_of_Z size)) <= 4 * 9007199254740992)%R).
  { assert (A5 : (Rabs (val (float_of_Z x + j) / IZR size) <= 3 * 9007199254740992)%R)
      by (apply Rabs_div_le; lra).
    pose proof (close_abs _ _ _ C5 A5). unfold u64, tiny in *. lra. }
  destruct (sub_step ((float_of_Z x + j) / float_of_Z size) 0.5 (4 * 9007199254740992) 1)
    as [F6 C6]; try assumption; [rewrite Vh; apply Rabs_le_1; lra | lra |].
  rewrite Vh in C6.
  split; [exact F6|]. split.
  - assert (A6 : (Rabs (val ((float_of_Z x + j) / float_of_Z size) - / 2)
                  <= 5 * 9007199254740992)%R).
    { pose proof (Rabs_triang (val ((float_of_Z x + j) / float_of_Z size)) (- / 2)) as Ht.
      rewrite Rabs_Ropp, (Rabs_pos_eq (/ 2)) in Ht by lra. unfold Rminus. lra. }
    pose proof (close_abs _ _ _ C6 A6). unfold u64, tiny in *. lra.
  - intros s t7 Hs7 C7.
    apply (normalised_bound (IZR x) (IZR size) (IZR density) (val j)
             (val (float_of_Z x + j)) (val ((float_of_Z x + j) / float_of_Z size))
             (val ((float_of_Z x + j) / float_of_Z size - 0.5)) s t7);
      try assumption; lra.
Qed.

(** Storing in the [Float32Array] adds the rounding of binary32. *)
Lemma fround_bound (t : float) (B : R) :
  finite t -> (Rabs (val t) <= B * (1 + / 281474976710656))%R ->
  (/ 1152921504606846976 <= B <= 1152921504606846976)%R ->
  finite (fround t) /\ (Rabs (val (fround t)) <= B * (1 + / 8388608))%R.
Proof.
  intros Ft Mt HB.
  assert (Hlt : (Rabs (val t) < bpow 100)%R) by (rewrite bpow_100; lra).
  destruct (fround_near t Ft Hlt) as [Ff Hn]. split; [exact Ff|].
  assert (H24 : bpow (-24) = (/ 16777216)%R) by (rewrite bpow_neg; reflexivity).
  assert (H150 : bpow (-150) = (/ 1427247692705959881058285969449495136382746624)%R)
    by (rewrite bpow_neg; reflexivity).
  rewrite H24, H150 in Hn. apply Rabs_bounds' in Hn.
  pose proof (Rabs_pos (val t)). apply Rabs_bounds' in Mt as Mt'.
  apply Rabs_le. split; lra.
Qed.

Lemma emitted_X (x : Z) (r : float) :
  (0 <= x < width)%Z -> (0 <=? r) = true -> (r <? 1) = true ->
  finite (fround (((float_of_Z x + (r - 0.5) * float_of_Z density * 0.3)
                   / float_of_Z width - 0.5) * 20))
  /\ (Rabs (val (fround (((float_of_Z x + (r - 0.5) * float_of_Z density * 0.3)
                          / float_of_Z width - 0.5) * 20)))
      <= (10 + 3 * IZR density / IZR width) * (1 + / 8388608))%R.
Proof.
  intros Hx H0 H1.
  destruct (jitter_float r H0 H1) as [Fj Mj].
  destruct (normalise_float x width _ Hx Hw Fj Mj) as (F6 & M6 & B6).
  destruct val_twenty as [F20 V20].
  pose proof (IZR_range density Hd) as RD. pose proof (IZR_range width Hw) as RW.
  set (t6 := (float_of_Z x + (r - 0.5) * float_of_Z density * 0.3) / float_of_Z width - 0.5) in *.
  destruct (mul_step t6 20 (6 * 9007199254740992) 20) as [F7 C7]; try assumption;
    [rewrite V20, Rabs_pos_eq; lra | lra |].
  rewrite V20 in C7.
  pose proof (B6 (val t6) _ eq_refl C7) as B7.
  pose proof (Rdiv_le_num (IZR density) (IZR width) ltac:(lra) ltac:(lra)) as Hq.
  apply fround_bound; [exact F7 | | ].
  - apply Rle_trans with (1 := B7).
    replace (3 * IZR density / IZR width)%R with (3 * (IZR density / IZR width))%R
      by (unfold Rdiv; ring).
    set (q := (IZR density / IZR width)%R) in *. nra.
  - replace (3 * IZR density / IZR width)%R with (3 * (IZR density / IZR width))%R
      by (unfold Rdiv; ring).
    lra.
Qed.

Lemma emitted_Y (y : Z) (r : float) :
  (0 <= y < height)%Z -> (0 <=? r) = true -> (r <? 1) = true ->
  finite (fround (- ((float_of_Z y + (r - 0.5) * float_of_Z density * 0.3)
                     / float_of_Z height - 0.5) * 20
                  * (float_of_Z height / float_of_Z width)))
  /\ (Rabs (val (fround (- ((float_of_Z y + (r - 0.5) * float_of_Z density * 0.3)
                            / float_of_Z height - 0.5) * 20
                         * (float_of_Z height / float_of_Z width))))
      <= (10 * IZR height + 3 * IZR density) / IZR width * (1 + / 8388608))%R.
Proof.
  intros Hy H0 H1.
  destruct (jitter_float r H0 H1) as [Fj Mj].
  destruct (normalise_float y height _ Hy Hh Fj Mj) as (F6 & M6 & B6).
  destruct val_twenty as [F20 V20].
  pose proof (IZR_range density Hd) as RD. pose proof (IZR_range width Hw) as RW.
  pose proof (IZR_range height Hh) as RH.
  destruct (float_of_Z_exact width ltac:(lia)) as [FW VW].
  destruct (float_of_Z_exact height ltac:(lia)) as [FH VH].
  set (t6 := (float_of_Z y + (r - 0.5) * float_of_Z density * 0.3) / float_of_Z height - 0.5) in *.
  destruct (opp_exact t6 F6) as [Fo Vo].
  destruct (mul_step (- t6) 20 (6 * 9007199254740992) 20) as [F7 C7]; try assumption;
    [rewrite Vo, Rabs_Ropp; exact M6 | rewrite V20, Rabs_pos_eq; lra | lra |].
  rewrite V20 in C7.
  assert (Hs : Rabs (val (- t6)) = Rabs (val t6)) by (rewrite Vo; apply Rabs_Ropp).
  pose proof (B6 (val (- t6)) _ Hs C7) as B7.
  pose proof (Rdiv_le_num (IZR density) (IZR height) ltac:(lra) ltac:(lra)) as Hq.
  destruct (div_step (float_of_Z height) (float_of_Z width) 9007199254740992) as [Fr Cr];
    try assumption; [rewrite VH, Rabs_pos_eq; lra | rewrite VW; lra | lra |].
  rewrite VH, VW in Cr.
  assert (Mr : (Rabs (val (float_of_Z height / float_of_Z width)) <= 2 * 9007199254740992)%R).
  { assert (Ar : (Rabs (IZR height / IZR width) <= 9007199254740992)%R)
      by (apply Rabs_div_le; [rewrite Rabs_pos_eq; lra | lra]).
    pose proof (close_abs _ _ _ Cr Ar). unfold u64, tiny in *. lra. }
  assert (M7 : (Rabs (val (- t6 * 20)) <= 8 * 9007199254740992)%R).
  { apply Rle_trans with (1 := B7).
    replace (3 * IZR density / IZR height)%R with (3 * (IZR density / IZR height))%R
      by (unfold Rdiv; ring).
    set (q := (IZR density / IZR height)%R) in *. nra. }
  destruct (mul_step (- t6 * 20) (float_of_Z height / float_of_Z width)
              (8 * 9007199254740992) (2 * 9007199254740992)) as [F8 C8];
    try assumption; [lra|].
  pose proof (aspect_bound (IZR height) (IZR width) (IZR density) _ _ _
                ltac:(lra) ltac:(lra) ltac:(lra) B7 Cr C8) as B8.
  assert (HB : (/ 9007199254740992 <= (10 * IZR height + 3 * IZR density) / IZR width
                <= 13 * 9007199254740992)%R).
  { unfold Rdiv.
    assert (Hiw : (/ 9007199254740992 <= / IZR width <= 1)%R).
    { split; [apply Rinv_le_contravar; lra|].
      rewrite <- Rinv_1. apply Rinv_le_contravar; lra. }
    split; nra. }
  apply fround_bound; [exact F8 | exact B8 | lra].
Qed.

Lemma emitted_Z (r : float) :
  (0 <=? r) = true -> (r <? 1) = true ->
  finite (fround ((r - 0.5) * 0.2))
  /\ (Rabs (val (fround ((r - 0.5) * 0.2))) <= 1 / 10 * (1 + / 8388608))%R.
Proof.
  intros H0 H1.
  destruct (unit_interval r H0 H1) as [Fr Vr].
  destruct val_half as [Fh Vh].
  destruct val_two_tenths as (F2 & V2).
  rewrite bpow_m53_U in V2.
  destruct (sub_step r 0.5 1 1) as [F1 C1]; try assumption;
    [apply Rabs_le_1; lra | rewrite Vh; apply Rabs_le_1; lra | lra |].
  rewrite Vh in C1.
  assert (M1 : (Rabs (val (r - 0.5)) <= 1)%R).
  { assert (A1 : (Rabs (val r - / 2) <= / 2)%R) by (apply Rabs_le; lra).
    pose proof (close_abs _ _ _ C1 A1). unfold u64, tiny in *. lra. }
  destruct (mul_step (r - 0.5) 0.2 1 1) as [F3 C3]; try assumption;
    [apply Rabs_le_1; unfold u64 in *; lra | lra |].
  pose proof (depth_bound (val r) (val 0.2) _ _ Vr V2 C1 C3) as B3.
  apply fround_bound; [exact F3 | lra | lra].
Qed.

End Emit.

(* ------------------------------------------------------------------ *)
(** ** Glyph point-cloud generator: where the points lie *)

Lemma Triples_impl {A : Type} (P Q : A -> A -> A -> Prop) (l : list A) :
  (forall a b c, P a b c -> Q a b c) -> Spec.Triples P l -> Spec.Triples Q l.
Proof. intros HPQ. induction 1; constructor; auto. Qed.

Lemma emittedFrom_bounded (Math_random : nat -> float) (width height density : Z)
    (nX nY nZ : float) :
  (0 < width < 2 ^ 53)%Z -> (0 < height < 2 ^ 53)%Z -> (0 < density < 2 ^ 53)%Z ->
  (forall k, (0 <=? Math_random k)%float = true /\ (Math_random k <? 1)%float = true) ->
  Spec.emittedFrom Math_random width height density nX nY nZ ->
  Spec.boundedPoint Math_random width height density nX nY nZ.
Proof.
  intros Hw Hh Hd Hr (x & y & k & Hx & Hy & Dx & Dy & Hpt).
  cbv zeta in Hpt. destruct Hpt as (-> & -> & ->).
  destruct (Hr k) as [A0 A1], (Hr (S k)) as [B0 B1], (Hr (S (S k))) as [C0 C1].
  destruct (jitter_float density Hd _ A0 A1) as [FjX MjX].
  destruct (jitter_float density Hd _ B0 B1) as [FjY MjY].
  destruct (emitted_X width density Hw Hd x _ Hx A0 A1) as [FX MX].
  destruct (emitted_Y width height density Hw Hh Hd y _ Hy B0 B1) as [FY MY].
  destruct (emitted_Z _ C0 C1) as [FZ MZ].
  exists x, y, k. cbv zeta.
  repeat (split; [first [assumption | reflexivity]|]). assumption.
Qed.

(** C7 (amended). For a width, a height and a density that are positive
    (and below [2 ^ 53]) and whatever values in [[0, 1)] the random numbers
    take, the scan terminates and every emitted point comes from a sampled
    pixel of the image, moved on each image axis by a jitter of amplitude at
    most [0.15 * density * (1 + 2 ^ -50)], and its three stored numbers are
    finite with [|X| <= (10 + 3 * density / width) * (1 + 2 ^ -23)],
    [|Y| <= (10 * height + 3 * density) / width * (1 + 2 ^ -23)] and
    [|Z| <= 0.1 * (1 + 2 ^ -23)]: the declared box widened by the image of
    the jitter, up to the rounding of the binary64 operations and of the
    binary32 store. *)
Theorem generated_points_bounded
    (renderText : string -> Z -> Z -> option (list Z)) (Math_random : nat -> float)
    (text : string) (width height density : Z) :
  (0 < width < 2 ^ 53)%Z -> (0 < height < 2 ^ 53)%Z -> (0 < density < 2 ^ 53)%Z ->
  (forall k, (0 <=? Math_random k)%float = true /\ (Math_random k <? 1)%float = true) ->
  exists cloud,
    generateTextParticles renderText Math_random text width height density = Some cloud
    /\ Spec.Triples (Spec.boundedPoint Math_random width height density) cloud.
Proof.
  intros Hw Hh Hd Hr.
  destruct (generated_points_formula renderText Math_random text width height density)
    as (cloud & Hcloud & Hpts); try lia.
  exists cloud. split; [exact Hcloud|].
  apply Triples_impl with (2 := Hpts). intros a b c.
  now apply emittedFrom_bounded.
Qed.

Lemma generated_points_bounded_witness :
  exists cloud,
    generateTextParticles Sample.whiteCanvas (fun _ => 0.25%float) "A" 12 6 6 = Some cloud
    /\ Spec.Triples (Spec.boundedPoint (fun _ => 0.25%float) 12 6 6) cloud.
Proof.
  apply generated_points_bounded; [split; reflexivity .. | intros k; split; reflexivity].
Defined.

(* ------------------------------------------------------------------ *)
(** ** NaN in the particle buffers *)

Section NaNFacts.
Import ParticleField.
Open Scope float_scope.

Lemma is_nan_eq (a : float) : is_nan a = true -> a = nan.
Proof.
  unfold is_nan. rewrite FloatAxioms.eqb_spec. unfold SFeqb. intros Hnan.
  apply Prim2SF_inj. change (Prim2SF nan) with S754_nan.
  destruct (Prim2SF a) as [sa|sa| |sa ma ea]; cbn in Hnan.
  - destruct sa; discriminate.
  - destruct sa; discriminate.
  - reflexivity.
  - change (Pos.compare_cont Eq ma ma) with (Pos.compare ma ma) in Hnan.
    rewrite Z.compare_refl, Pos.compare_refl in Hnan. destruct sa; discriminate.
Qed.

Lemma add_nan_l (a : float) : nan + a = nan.
Proof. apply Prim2SF_inj. rewrite add_spec. reflexivity. Qed.

Lemma add_nan_r (a : float) : a + nan = nan.
Proof.
  apply Prim2SF_inj. rewrite add_spec. change (Prim2SF nan) with S754_nan.
  destruct (Prim2SF a); reflexivity.
Qed.

Lemma sub_nan_l (a : float) : nan - a = nan.
Proof. apply Prim2SF_inj. rewrite sub_spec. reflexivity. Qed.

Lemma sub_nan_r (a : float) : a - nan = nan.
Proof.
  apply Prim2SF_inj. rewrite sub_spec. change (Prim2SF nan) with S754_nan.
  destruct (Prim2SF a); reflexivity.
Qed.

Lemma mul_nan_l (a : float) : nan * a = nan.
Proof. apply Prim2SF_inj. rewrite mul_spec. reflexivity. Qed.

Lemma mul_nan_r (a : float) : a * nan = nan.
Proof.
  apply Prim2SF_inj. rewrite mul_spec. change (Prim2SF nan) with S754_nan.
  destruct (Prim2SF a); reflexivity.
Qed.

(** The lerp of line 316 cannot leave [NaN], on either side. *)
Lemma lerp_nan_pos (t speed : float) : fround (nan + (t - nan) * speed) = nan.
Proof. now rewrite add_nan_l. Qed.

Lemma lerp_nan_target (p speed : float) : fround (p + (nan - p) * speed) = nan.
Proof. now rewrite sub_nan_l, mul_nan_l, add_nan_r. Qed.

Variables (Math_sin Math_cos : float -> float) (Math_random : nat -> float).

Lemma repel_allNaN (mode : AppState) (holding : bool) (pos t : Vec3) (point : Point) :
  allNaN t -> allNaN (repel mode holding pos t point).
Proof.
  intros ->. unfold repel, allNaN. cbv zeta.
  destruct (_ <? _); [|reflexivity].
  cbn [vx vy vz]. now rewrite !add_nan_l.
Qed.

Lemma applyForces_allNaN (mode : AppState) (holding : bool) (center : Vec3)
    (time : float) (points : list Point) (pos t : Vec3) :
  allNaN t -> allNaN (applyForces Math_sin mode holding center time points pos t).
Proof.
  intros Ht. unfold applyForces.
  destruct (0 <? List.length points)%nat; [|exact Ht].
  assert (Hfold : allNaN (fold_left (fun t0 point => repel mode holding pos t0 point)
                                    points t)).
  { revert t Ht. induction points as [|point rest IH]; intros t Ht; [exact Ht|].
    cbn [fold_left]. apply IH. now apply repel_allNaN. }
  destruct holding; [|exact Hfold].
  rewrite Hfold. unfold flee, allNaN. cbv zeta. cbn [vx vy vz].
  now rewrite !add_nan_l.
Qed.

Lemma sphereTarget_allNaN (home : Vec3) (time : float) (holding : bool) (i k : nat) :
  allNaN (fst (sphereTarget Math_sin Math_cos Math_random home nan time holding i k)).
Proof.
  unfold sphereTarget, allNaN. cbv zeta.
  destruct holding; cbn [fst]; now rewrite !mul_nan_r, !add_nan_l.
Qed.

Lemma integrate_allNaN (holding : bool) (pos t : Vec3) :
  allNaN t -> allNaN (integrate holding pos t).
Proof.
  intros ->. unfold integrate, allNaN. cbv zeta. cbn [vx vy vz].
  now rewrite !lerp_nan_target.
Qed.

(** Every particle of the loop is moved by [stepParticle], from its own
    position and home. *)
Lemma updateParticles_nth (res : Resolved) (holding : bool) (center : Vec3)
    (time : float) (points : list Point) (ps : list Vec3) :
  forall hs i k j pos home,
    nth_error ps j = Some pos -> nth_error hs j = Some home ->
    exists kj,
      nth_error (fst (updateParticles Math_sin Math_cos Math_random res holding center
                        time points i ps hs k)) j
      = Some (fst (stepParticle Math_sin Math_cos Math_random res holding center time
                     points (i + j) pos home kj)).
Proof.
  induction ps as [|p ps IH]; intros [|h hs] i k j pos home Hp Hh;
    try (destruct j; discriminate).
  rewrite updateParticles_cons. cbn [fst].
  destruct j as [|j]; cbn [nth_error] in *.
  - injection Hp as ->. injection Hh as ->. exists k. now rewrite Nat.add_0_r.
  - destruct (IH hs (S i)
                (snd (stepParticle Math_sin Math_cos Math_random res holding center time
                        points i p h k)) j pos home Hp Hh) as [kj Hkj].
    exists kj. rewrite Hkj. replace (S i + j)%nat with (i + S j)%nat by lia. reflexivity.
Qed.

Lemma stepParticle_integrate (res : Resolved) (holding : bool) (center : Vec3)
    (time : float) (points : list Point) (i : nat) (pos home : Vec3) (k : nat) :
  fst (stepParticle Math_sin Math_cos Math_random res holding center time points
         i pos home k)
  = integrate holding pos
      (applyForces Math_sin (interactionMode res) holding center time points pos
         (fst (particleTarget Math_sin Math_cos Math_random res holding time home i k))).
Proof.
  unfold stepParticle.
  destruct (particleTarget _ _ _ _ _ _ _ _ _) as [t k']. reflexivity.
Qed.

End NaNFacts.

(** X21. A coordinate that is [NaN] stays [NaN]: after a completed frame,
    whatever the hands, the mode and the forces, every particle present in
    both buffers is still there and each of its coordinates that was [NaN]
    before the frame is [NaN] after it. *)
Theorem nan_coordinate_never_recovers
    (Math_sin Math_cos : float -> float) (Math_random : nat -> float)
    (textGeometries : ParticleField.TextGeometries) (userColor : ParticleField.Color)
    (handData : option HandResult) (viewport : ParticleField.Viewport) (delta : float)
    (s s' : ParticleField.Scene) (j : nat) (pos home : ParticleField.Vec3) :
  ParticleField.useFrame Math_sin Math_cos Math_random textGeometries userColor
    handData viewport delta s = Ok s' ->
  nth_error (ParticleField.positions s) j = Some pos ->
  nth_error (ParticleField.target s) j = Some home ->
  exists pos',
    nth_error (ParticleField.positions s') j = Some pos'
    /\ (ParticleField.vx pos = nan -> ParticleField.vx pos' = nan)
    /\ (ParticleField.vy pos = nan -> ParticleField.vy pos' = nan)
    /\ (ParticleField.vz pos = nan -> ParticleField.vz pos' = nan).
Proof.
  intros Hframe Hp Hh.
  destruct (useFrame_Ok_inv _ _ _ _ _ _ _ _ _ _ Hframe)
    as (wh & points & res & _ & _ & _ & ->).
  cbv zeta. cbn [ParticleField.positions].
  match goal with
  | |- context [ParticleField.updateParticles ?a ?b ?c ?r ?h ?ce ?t ?pts ?i ?ps ?hs ?k] =>
    destruct (updateParticles_nth a b c r h ce t pts ps hs i k j pos home Hp Hh)
      as [kj Hkj]
  end.
  rewrite Hkj, stepParticle_integrate. eexists. split; [reflexivity|].
  unfold ParticleField.integrate. cbv zeta.
  cbn [ParticleField.vx ParticleField.vy ParticleField.vz].
  repeat split; intros ->; apply lerp_nan_pos.
Qed.

Lemma nan_coordinate_never_recovers_witness :
  exists s' pos',
    ParticleField.useFrame (fun _ => 0%float) (fun _ => 1%float) (fun _ => 0.5%float)
      Sample.clouds0 ParticleField.red None Sample.viewport0 0.016%float
      (ParticleField.mkScene 0 (ParticleField.mkVec3 0 0 0) ParticleField.cyan
         [ParticleField.mkVec3 nan 0 0] [ParticleField.mkVec3 0 1 1]
         [ParticleField.mkVec3 4 0 0] 0) = Ok s'
    /\ nth_error (ParticleField.positions s') 0 = Some pos'
    /\ (ParticleField.vx (ParticleField.mkVec3 nan 0 0) = nan
        -> ParticleField.vx pos' = nan)
    /\ (ParticleField.vy (ParticleField.mkVec3 nan 0 0) = nan
        -> ParticleField.vy pos' = nan)
    /\ (ParticleField.vz (ParticleField.mkVec3 nan 0 0) = nan
        -> ParticleField.vz pos' = nan).
Proof.
  eexists.
  assert (H : ParticleField.useFrame (fun _ => 0%float) (fun _ => 1%float)
                (fun _ => 0.5%float) Sample.clouds0 ParticleField.red None
                Sample.viewport0 0.016%float
                (ParticleField.mkScene 0 (ParticleField.mkVec3 0 0 0) ParticleField.cyan
                   [ParticleField.mkVec3 nan 0 0] [ParticleField.mkVec3 0 1 1]
                   [ParticleField.mkVec3 4 0 0] 0) = Ok ?[s'])
    by (vm_compute; reflexivity).
  destruct (nan_coordinate_never_recovers _ _ _ _ _ _ _ _ _ _ 0
              (ParticleField.mkVec3 nan 0 0) (ParticleField.mkVec3 4 0 0)
              H eq_refl eq_refl) as (pos' & H1 & H2).
  exists pos'. split; [exact H|]. split; [exact H1|exact H2].
Defined.

(** X22. A [NaN] diffusion destroys the whole field in one frame: if the
    resolved diffusion is [NaN] (a single hand whose palm size and spread are
    both zero), every coordinate of every particle is [NaN] after the
    frame. *)
Theorem nan_diffusion_poisons_every_particle
    (Math_sin Math_cos : float -> float) (Math_random : nat -> float)
    (textGeometries : ParticleField.TextGeometries) (userColor : ParticleField.Color)
    (handData : option HandResult) (viewport : ParticleField.Viewport) (delta : float)
    (s s' : ParticleField.Scene) (res : ParticleField.Resolved) :
  ParticleField.useFrame Math_sin Math_cos Math_random textGeometries userColor
    handData viewport delta s = Ok s' ->
  ParticleField.resolveObservation viewport textGeometries userColor delta
    (ParticleField.vy (ParticleField.rotation s))
    (match handData with Some d => landmarks d | None => [] end) = Ok res ->
  ParticleField.diffusion res = nan ->
  Forall (fun pos => pos = ParticleField.mkVec3 nan nan nan) (ParticleField.positions s').
Proof.
  intros Hframe Hres Hnan.
  destruct (useFrame_Ok_inv _ _ _ _ _ _ _ _ _ _ Hframe)
    as (wh & points & res' & Hwh & _ & Hres' & ->).
  rewrite Hres in Hres'. injection Hres' as <-.
  assert (Hmode : ParticleField.interactionMode res <> TEXT_MODE).
  { intros Hmode. unfold ParticleField.resolveObservation in Hres.
    rewrite Hwh in Hres. cbn [bind] in Hres.
    destruct (resolve_text_defaults _ _ _ _ _ _ _ Hres Hmode) as (Hd & _).
    rewrite Hd in Hnan.
    apply (f_equal is_nan) in Hnan. vm_compute in Hnan. discriminate Hnan. }
  cbv zeta. cbn [ParticleField.positions].
  apply Forall_forall. intros p Hin. apply In_nth_error in Hin. destruct Hin as [j Hj].
  match type of Hj with
  | nth_error (fst (ParticleField.updateParticles ?a ?b ?c ?r ?h ?ce ?t ?pts ?i ?ps ?hs ?k))
      _ = _ =>
    assert (Hlen : (j < Nat.min (List.length ps) (List.length hs))%nat)
      by (rewrite <- (updateParticles_length a b c r h ce t pts ps hs i k);
          apply nth_error_Some; congruence);
    destruct (nth_error ps j) as [pos|] eqn:Hp;
      [|apply nth_error_None in Hp; lia];
    destruct (nth_error hs j) as [home|] eqn:Hh;
      [|apply nth_error_None in Hh; lia];
    destruct (updateParticles_nth a b c r h ce t pts ps hs i k j pos home Hp Hh)
      as [kj Hkj]
  end.
  rewrite Hkj in Hj. injection Hj as <-.
  rewrite stepParticle_integrate.
  apply integrate_allNaN, applyForces_allNaN.
  unfold ParticleField.particleTarget. rewrite Hnan.
  destruct (ParticleField.interactionMode res); try contradiction;
    cbn [AppState_eqb]; apply sphereTarget_allNaN.
Qed.

Lemma nan_diffusion_poisons_every_particle_witness :
  exists s',
    ParticleField.useFrame (fun _ => 0%float) (fun _ => 1%float) (fun _ => 0.5%float)
      Sample.clouds0 ParticleField.cyan (Some (mkHandResult [Sample.hand_point]))
      Sample.viewport0 0.016%float Sample.scene0 = Ok s'
    /\ Forall (fun pos => pos = ParticleField.mkVec3 nan nan nan)
              (ParticleField.positions s').
Proof.
  eexists.
  assert (H : ParticleField.useFrame (fun _ => 0%float) (fun _ => 1%float)
                (fun _ => 0.5%float) Sample.clouds0 ParticleField.cyan
                (Some (mkHandResult [Sample.hand_point]))
                Sample.viewport0 0.016%float Sample.scene0 = Ok ?[s'])
    by (vm_compute; reflexivity).
  split; [exact H|].
  apply (nan_diffusion_poisons_every_particle _ _ _ _ _ _ _ _ _ _
           (ParticleField.mkResolved None ParticleField.cyan INTERACTIVE nan nan nan) H);
    vm_compute; reflexivity.
Defined.

(* ------------------------------------------------------------------ *)
(** ** Repulsion by every hand *)

Section Repulsion.
Import ParticleField.
Open Scope float_scope.

(** The loop body of lines 266-292 displaces the target as [Spec.push]
    says. *)
Lemma repel_push (mode : AppState) (holding : bool) (pos t : Vec3) (point : Point) :
  repel mode holding pos t point = Spec.push mode holding pos t point.
Proof. unfold repel, radiusOf, forceMultiOf, Spec.push. destruct mode; reflexivity. Qed.

Lemma fold_repel_push (mode : AppState) (holding : bool) (pos : Vec3) (points : list Point) :
  forall t,
    fold_left (fun t point => repel mode holding pos t point) points t
    = fold_left (Spec.push mode holding pos) points t.
Proof.
  induction points as [|point points IH]; intros t; [reflexivity|].
  cbn [fold_left]. rewrite repel_push. apply IH.
Qed.

Lemma flat_map_six_length {A B : Type} (f : A -> list B) (l : list A) :
  (forall a, List.length (f a) = 6%nat) ->
  List.length (flat_map f l) = (6 * List.length l)%nat.
Proof.
  intros Hf. induction l as [|a l IH]; [reflexivity|].
  cbn [flat_map]. rewrite length_app, IH, Hf. cbn [List.length]. lia.
Qed.

End Repulsion.

(** C10. Every visible (well-formed) hand contributes exactly six interaction
    points, the projections of landmarks 4, 8, 12, 16, 20 and 9, in the order
    of the hands.  In every mode the force loop folds the repulsion of
    [Spec.push] over all of them, and a completed frame moves every particle
    towards its target so displaced by the points of every hand, those of the
    hands after the second included (followed, in the holding state, by the
    flee term). *)
Theorem every_hand_repels
    (Math_sin Math_cos : float -> float) (Math_random : nat -> float)
    (viewport : ParticleField.Viewport) (hands : list (list HandLandmark)) :
  Forall (fun hand => List.length hand = 21%nat) hands ->
  let points :=
    flat_map (fun hand => map (Spec.pointOf viewport hand) [4; 8; 12; 16; 20; 9]%nat) hands in
  ParticleField.interactionPoints viewport hands = Ok points
  /\ List.length points = (6 * List.length hands)%nat
  /\ (forall mode holding center time pos t,
         ParticleField.applyForces Math_sin mode holding center time points pos t
         = let t' := fold_left (Spec.push mode holding pos) points t in
           if holding && (0 <? List.length hands)%nat
           then ParticleField.flee Math_sin center time pos t'
           else t')
  /\ (forall textGeometries userColor delta s,
         exists res s',
           ParticleField.resolveObservation viewport textGeometries userColor delta
             (ParticleField.vy (ParticleField.rotation s)) hands = Ok res
           /\ ParticleField.useFrame Math_sin Math_cos Math_random textGeometries userColor
                (Some (mkHandResult hands)) viewport delta s = Ok s'
           /\ forall j pos home,
                nth_error (ParticleField.positions s) j = Some pos ->
                nth_error (ParticleField.target s) j = Some home ->
                exists k,
                  let holding := ParticleField.isHolding res in
                  let time := (ParticleField.timeRef s + delta)%float in
                  let t0 :=
                    fst (ParticleField.particleTarget Math_sin Math_cos Math_random
                           res holding time home j k) in
                  let t1 :=
                    fold_left (Spec.push (ParticleField.interactionMode res) holding pos)
                              points t0 in
                  let t :=
                    if holding && (0 <? List.length hands)%nat
                    then ParticleField.flee Math_sin
                           (ParticleField.handCenter (List.length hands)
                              (map (Spec.worldHandOf viewport) hands))
                           time pos t1
                    else t1 in
                  let speed := (if holding then 0.15 else 0.1)%float in
                  nth_error (ParticleField.positions s') j
                  = Some (ParticleField.mkVec3
                            (fround (ParticleField.vx pos
                                     + (ParticleField.vx t - ParticleField.vx pos) * speed))
                            (fround (ParticleField.vy pos
                                     + (ParticleField.vy t - ParticleField.vy pos) * speed))
                            (fround (ParticleField.vz pos
                                     + (ParticleField.vz t - ParticleField.vz pos) * speed)))%float).
Proof.
  intros Hall points.
  assert (Hlen : List.length points = (6 * List.length hands)%nat)
    by (apply flat_map_six_length; intros hand; reflexivity).
  assert (Hforces : forall mode holding center time pos t,
             ParticleField.applyForces Math_sin mode holding center time points pos t
             = let t' := fold_left (Spec.push mode holding pos) points t in
               if holding && (0 <? List.length hands)%nat
               then ParticleField.flee Math_sin center time pos t'
               else t').
  { intros mode holding center time pos t. unfold ParticleField.applyForces.
    rewrite fold_repel_push, Hlen. cbv zeta.
    destruct hands as [|hand rest].
    - cbn [List.length Nat.mul Nat.ltb Nat.leb]. rewrite andb_false_r.
      subst points. reflexivity.
    - replace (0 <? 6 * List.length (hand :: rest))%nat with true
        by (symmetry; apply Nat.ltb_lt; cbn [List.length]; lia).
      replace (0 <? List.length (hand :: rest))%nat with true
        by (symmetry; apply Nat.ltb_lt; cbn [List.length]; lia).
      rewrite andb_true_r. reflexivity. }
  split; [apply interactionPoints_spec; assumption|].
  split; [exact Hlen|]. split; [exact Hforces|].
  intros tg uc delta s.
  destruct (useFrame_total Math_sin Math_cos Math_random tg uc viewport delta s hands Hall)
    as (res & Hres & Hframe).
  exists res. eexists. split; [exact Hres|]. split; [exact Hframe|].
  intros j pos home Hpos Hhome. cbn [ParticleField.positions].
  destruct (updateParticles_nth Math_sin Math_cos Math_random res
              (ParticleField.isHolding res)
              (ParticleField.handCenter (List.length hands)
                 (map (Spec.worldHandOf viewport) hands))
              (ParticleField.timeRef s + delta)%float points
              (ParticleField.positions s) (ParticleField.target s) 0
              (ParticleField.randomCalls s) j pos home Hpos Hhome) as [k Hk].
  exists k. cbv zeta.
  change (flat_map (fun hand => map (Spec.pointOf viewport hand) ParticleField.indices) hands)
    with points.
  rewrite Hk, stepParticle_integrate, Hforces.
  reflexivity.
Qed.

Lemma every_hand_repels_witness :
  let hands := [Sample.hand_at 0; Sample.hand_at 0; Sample.hand_at 0.5] in
  let Math_sin := fun _ : float => 0%float in
  let Math_cos := fun _ : float => 1%float in
  let Math_random := fun _ : nat => 0%float in
  let viewport := Sample.viewport0 in
  let points :=
    flat_map (fun hand => map (Spec.pointOf viewport hand) [4; 8; 12; 16; 20; 9]%nat) hands in
  ParticleField.interactionPoints viewport hands = Ok points
  /\ List.length points = (6 * List.length hands)%nat
  /\ (forall mode holding center time pos t,
         ParticleField.applyForces Math_sin mode holding center time points pos t
         = let t' := fold_left (Spec.push mode holding pos) points t in
           if holding && (0 <? List.length hands)%nat
           then ParticleField.flee Math_sin center time pos t'
           else t')
  /\ (forall textGeometries userColor delta s,
         exists res s',
           ParticleField.resolveObservation viewport textGeometries userColor delta
             (ParticleField.vy (ParticleField.rotation s)) hands = Ok res
           /\ ParticleField.useFrame Math_sin Math_cos Math_random textGeometries userColor
                (Some (mkHandResult hands)) viewport delta s = Ok s'
           /\ forall j pos home,
                nth_error (ParticleField.positions s) j = Some pos ->
                nth_error (ParticleField.target s) j = Some home ->
                exists k,
                  let holding := ParticleField.isHolding res in
                  let time := (ParticleField.timeRef s + delta)%float in
                  let t0 :=
                    fst (ParticleField.particleTarget Math_sin Math_cos Math_random
                           res holding time home j k) in
                  let t1 :=
                    fold_left (Spec.push (ParticleField.interactionMode res) holding pos)
                              points t0 in
                  let t :=
                    if holding && (0 <? List.length hands)%nat
                    then ParticleField.flee Math_sin
                           (ParticleField.handCenter (List.length hands)
                              (map (Spec.worldHandOf viewport) hands))
                           time pos t1
                    else t1 in
                  let speed := (if holding then 0.15 else 0.1)%float in
                  nth_error (ParticleField.positions s') j
                  = Some (ParticleField.mkVec3
                            (fround (ParticleField.vx pos
                                     + (ParticleField.vx t - ParticleField.vx pos) * speed))
                            (fround (ParticleField.vy pos
                                     + (ParticleField.vy t - ParticleField.vy pos) * speed))
                            (fround (ParticleField.vz pos
                                     + (ParticleField.vz t - ParticleField.vz pos) * speed)))%float).
Proof.
  apply (every_hand_repels (fun _ => 0%float) (fun _ => 1%float) (fun _ => 0%float)
           Sample.viewport0 [Sample.hand_at 0; Sample.hand_at 0; Sample.hand_at 0.5]).
  repeat constructor.
Defined.
